(** * Fruit_products: the segmented fetch pipeline of [Fruit_day.py]

    A shallow embedding of the agricultural-price crawler
    ([src/Fruit_day.py], and its sibling
    [src/example/Steven_Crawler全範圍.py]) together with the properties its
    specification states about it: the window planner [period_windows],
    the calendar conversions [to_roc] and [roc_to_western], the record
    normalizer [normalize_record], the retrying page fetch [get_json] and
    the paged fetcher [fetch_period_block].  Further properties cover
    the period task [process_period], the count of the main block and
    the crop table of the sibling script. *)

From Stdlib Require Import ZArith Lia Bool List String Ascii.
From Stdlib Require Import Floats.SpecFloat.
From stdpp Require Import base option list strings gmap fin_maps.

Local Open Scope string_scope.
Local Open Scope list_scope.
Local Open Scope Z_scope.

(** ** Exceptions and results

    The exceptions the modelled code can meet.  [result] is the outcome of
    an expression that may raise. *)

Inductive exn : Type :=
  | OverflowError
  | ValueError
  | AttributeError
  | KeyError
  | ConnectionError.

Inductive result (A : Type) : Type :=
  | Ret (a : A)
  | Raise (e : exn).
Arguments Ret {A} a.
Arguments Raise {A} e.

#[global] Instance result_ret : MRet result := fun A a => Ret a.
#[global] Instance result_bind : MBind result := fun A B k r =>
  match r with
  | Ret a => k a
  | Raise e => Raise e
  end.

(** ** [datetime.date] and [datetime.timedelta]

    A date is its three fields, as in [datetime.date]; its arithmetic goes
    through the proleptic Gregorian ordinal, following [datetime]'s own
    [_ymd2ord] and [_ord2ymd]. *)

Module Calendar.

Record date : Type := mkdate { year : Z; month : Z; day : Z }.

Definition MINYEAR : Z := 1.
Definition MAXYEAR : Z := 9999.
Definition MAXORDINAL : Z := 3652059.

Definition DAYS_IN_MONTH : list Z :=
  [-1; 31; 28; 31; 30; 31; 30; 31; 31; 30; 31; 30; 31].
Definition DAYS_BEFORE_MONTH : list Z :=
  [-1; 0; 31; 59; 90; 120; 151; 181; 212; 243; 273; 304; 334].

Definition table (t : list Z) (i : Z) : Z := nth (Z.to_nat i) t (-1).

Definition is_leap (y : Z) : bool :=
  (y mod 4 =? 0) && (negb (y mod 100 =? 0) || (y mod 400 =? 0)).

Definition days_before_year (yr : Z) : Z :=
  let y := yr - 1 in y * 365 + y / 4 - y / 100 + y / 400.

Definition days_in_month (y m : Z) : Z :=
  if (m =? 2) && is_leap y then 29 else table DAYS_IN_MONTH m.

Definition days_before_month (y m : Z) : Z :=
  table DAYS_BEFORE_MONTH m + (if (2 <? m) && is_leap y then 1 else 0).

Definition ymd2ord (y m d : Z) : Z :=
  days_before_year y + days_before_month y m + d.

Definition DI400Y : Z := 146097.
Definition DI100Y : Z := 36524.
Definition DI4Y : Z := 1461.

Definition ord2ymd (n : Z) : Z * Z * Z :=
  let n := n - 1 in
  let n400 := n / DI400Y in
  let n := n mod DI400Y in
  let yr := n400 * 400 + 1 in
  let n100 := n / DI100Y in
  let n := n mod DI100Y in
  let n4 := n / DI4Y in
  let n := n mod DI4Y in
  let n1 := n / 365 in
  let n := n mod 365 in
  let yr := yr + n100 * 100 + n4 * 4 + n1 in
  if (n1 =? 4) || (n100 =? 4) then (yr - 1, 12, 31)
  else
    let leapyear := (n1 =? 3) && (negb (n4 =? 24) || (n100 =? 3)) in
    let mo := Z.shiftr (n + 50) 5 in
    let preceding :=
      table DAYS_BEFORE_MONTH mo + (if (2 <? mo) && leapyear then 1 else 0) in
    if n <? preceding then
      let mo := mo - 1 in
      let preceding :=
        preceding
        - (table DAYS_IN_MONTH mo + (if (mo =? 2) && leapyear then 1 else 0)) in
      (yr, mo, n - preceding + 1)
    else (yr, mo, n - preceding + 1).

(** The check of the [date(year, month, day)] constructor. *)
Definition valid_date (d : date) : bool :=
  (MINYEAR <=? year d) && (year d <=? MAXYEAR)
  && (1 <=? month d) && (month d <=? 12)
  && (1 <=? day d) && (day d <=? days_in_month (year d) (month d)).

Definition toordinal (d : date) : Z := ymd2ord (year d) (month d) (day d).

Definition fromordinal (n : Z) : date :=
  let '(y, m, d) := ord2ymd n in mkdate y m d.

(** Dates compare as the tuples (year, month, day). *)
Definition date_lt (a b : date) : bool :=
  (year a <? year b)
  || ((year a =? year b)
      && ((month a <? month b)
          || ((month a =? month b) && (day a <? day b)))).

Definition date_le (a b : date) : bool := negb (date_lt b a).

Record timedelta : Type := mktimedelta { days : Z }.

(** [timedelta(days=n)]: magnitudes above 999999999 days are refused. *)
Definition timedelta_days (n : Z) : result timedelta :=
  if Z.abs n <=? 999999999 then Ret (mktimedelta n) else Raise OverflowError.

(** [date + timedelta]. *)
Definition date_add (d : date) (t : timedelta) : result date :=
  let o := toordinal d + days t in
  if (0 <? o) && (o <=? MAXORDINAL) then Ret (fromordinal o)
  else Raise OverflowError.

(** The two-argument builtin [min(a, b)]: [b] only when [b < a]. *)
Definition date_min (a b : date) : date := if date_lt b a then b else a.

End Calendar.
Export Calendar.

(** ** Outcomes of loops that need fuel

    [while] loops are unrolled [fuel] times.  [OutOfFuel] is not a Python
    outcome: it only says that the given fuel did not reach the end. *)

Inductive outcome (A : Type) : Type :=
  | Returns (a : A)
  | Raises (e : exn)
  | OutOfFuel.
Arguments Returns {A} a.
Arguments Raises {A} e.
Arguments OutOfFuel {A}.

(** ** Configuration of [Fruit_day.py] *)

Definition FARM_TRANS_URL : string :=
  "https://data.moa.gov.tw/Service/OpenData/FromM/FarmTransData.aspx".
Definition USE_ROC : bool := true.
Definition MAX_WORKERS : Z := 10.
Definition SEGMENT_DAYS : Z := 10.
Definition RETRY_DELAY_BASE : Z := 1.

(** ** The window planner

    [period_windows] is a generator.  Its run is the list of the windows
    it yields, in order, and the way it ends: [Returns tt] when the
    [while] condition fails, [Raises e] when date arithmetic overflows.
    The statement after the [yield] runs when the generator is resumed,
    so an overflow there comes after the window was handed out. *)

Definition window : Type := date * date.

Fixpoint period_windows_from (fuel : nat) (cursor end_d : date) (days : Z)
  : list window * outcome unit :=
  match fuel with
  | O => ([], OutOfFuel)
  | S fuel' =>
    if date_le cursor end_d then
      let period_start := cursor in
      match (t ← timedelta_days (days - 1); date_add cursor t) with
      | Raise e => ([], Raises e)
      | Ret stop =>
        let period_end := date_min end_d stop in
        match (t ← timedelta_days 1; date_add period_end t) with
        | Raise e => ([(period_start, period_end)], Raises e)
        | Ret cursor' =>
          let '(rest, ending) := period_windows_from fuel' cursor' end_d days in
          ((period_start, period_end) :: rest, ending)
        end
      end
    else ([], Returns tt)
  end.

Definition period_windows (fuel : nat) (start_d end_d : date) (days : Z)
  : list window * outcome unit :=
  period_windows_from fuel start_d end_d days.

(** ** Python strings

    A [str] is a sequence of code points.  It is modelled by the string
    of its UTF-8 bytes, a lone surrogate being written on three bytes
    like the other code points of its range: every [str] has one such
    encoding, and [split], [in] and [==] can work on the bytes.
    [strip()] and [int()] work on the code points, which [decode] reads
    back; the characters that they take for spaces and for decimal
    digits are those of CPython 3.11 (Unicode 14.0).

    CPython 3.11 refuses by default to convert more than 4300 digits
    between [str] and [int].  This limit is a setting of the interpreter
    ([sys.set_int_max_str_digits]) and is not modelled: a statement that
    would depend on it bounds the length of its string. *)

Module PyStr.

Definition code (c : ascii) : Z := Z.of_nat (nat_of_ascii c).

(** [s.split(sep)] for a separator of one ASCII character. *)
Fixpoint split (sep : ascii) (s : string) : list string :=
  match s with
  | EmptyString => [""]
  | String c rest =>
    if Ascii.eqb c sep then "" :: split sep rest
    else match split sep rest with
         | p :: ps => String c p :: ps
         | [] => [String c ""]
         end
  end.

(** *** Code points *)

(** The bytes 128..191 continue a character. *)
Definition continuation (c : ascii) : bool :=
  (128 <=? code c) && (code c <=? 191).

(** The code point at the head of a string, and the number of its
    bytes.  A byte that starts no well-formed character counts for one
    character that is no code point, [-1]. *)
Definition head_char (s : string) : Z * nat :=
  match s with
  | EmptyString => (-1, 1%nat)
  | String c1 r1 =>
    let b1 := code c1 in
    if b1 <? 128 then (b1, 1%nat)
    else
      match r1 with
      | EmptyString => (-1, 1%nat)
      | String c2 r2 =>
        let cp2 := (b1 - 192) * 64 + (code c2 - 128) in
        if (194 <=? b1) && (b1 <? 224) && continuation c2 then (cp2, 2%nat)
        else
          match r2 with
          | EmptyString => (-1, 1%nat)
          | String c3 r3 =>
            let cp3 :=
              ((b1 - 224) * 64 + (code c2 - 128)) * 64 + (code c3 - 128) in
            if (224 <=? b1) && (b1 <? 240) && continuation c2
               && continuation c3 && (2048 <=? cp3)
            then (cp3, 3%nat)
            else
              match r3 with
              | EmptyString => (-1, 1%nat)
              | String c4 _ =>
                let cp4 :=
                  (((b1 - 240) * 64 + (code c2 - 128)) * 64
                   + (code c3 - 128)) * 64 + (code c4 - 128) in
                if (240 <=? b1) && (b1 <? 245) && continuation c2
                   && continuation c3 && continuation c4
                   && (65536 <=? cp4) && (cp4 <=? 1114111)
                then (cp4, 4%nat)
                else (-1, 1%nat)
              end
          end
      end
  end.

(** The characters of a string, each with the number of its bytes;
    [skip] bytes belong to the character before. *)
Fixpoint decode_from (skip : nat) (s : string) : list (Z * nat) :=
  match s with
  | EmptyString => []
  | String _ rest =>
    match skip with
    | S skip' => decode_from skip' rest
    | O =>
      let ch := head_char s in
      ch :: decode_from (ch.2 - 1) rest
    end
  end.

Definition decode (s : string) : list (Z * nat) := decode_from 0 s.

(** [Py_UNICODE_ISSPACE]: the characters that [str.strip()] strips and
    that [int()] reads as a space. *)
Definition is_unicode_space (cp : Z) : bool :=
  ((9 <=? cp) && (cp <=? 13)) || ((28 <=? cp) && (cp <=? 32))
  || (cp =? 133) || (cp =? 160) || (cp =? 5760)
  || ((8192 <=? cp) && (cp <=? 8202)) || (cp =? 8232) || (cp =? 8233)
  || (cp =? 8239) || (cp =? 8287) || (cp =? 12288).

(** The digit zero of each run of ten decimal digits (general category
    [Nd]), from the ASCII digits to the segmented digits. *)
Definition DECIMAL_ZEROS : list Z :=
  [ 48; 1632; 1776; 1984; 2406; 2534; 2662; 2790; 2918; 3046; 3174;
    3302; 3430; 3558; 3664; 3792; 3872; 4160; 4240; 6112; 6160; 6470;
    6608; 6784; 6800; 6992; 7088; 7232; 7248; 42528; 43216; 43264;
    43472; 43504; 43600; 44016; 65296; 66720; 68912; 69734; 69872;
    69942; 70096; 70384; 70736; 70864; 71248; 71360; 71472; 71904;
    72016; 72784; 73040; 73120; 92768; 92864; 93008; 120782; 120792;
    120802; 120812; 120822; 123200; 123632; 125264; 130032 ].

(** [Py_UNICODE_TODECIMAL]. *)
Definition decimal_value (cp : Z) : option Z :=
  match find (fun zero => (zero <=? cp) && (cp <? zero + 10)) DECIMAL_ZEROS
  with
  | Some zero => Some (cp - zero)
  | None => None
  end.

(** *** [str.strip()] *)

(** The number of bytes of the spaces at the head of a string. *)
Fixpoint space_bytes (chars : list (Z * nat)) : nat :=
  match chars with
  | (cp, n) :: rest =>
    if is_unicode_space cp then (n + space_bytes rest)%nat else 0%nat
  | [] => 0%nat
  end.

Definition strip (s : string) : string :=
  let chars := decode s in
  let lead := space_bytes chars in
  let trail := space_bytes (rev chars) in
  substring lead (String.length s - lead - trail) s.

(** *** [int()] *)

Fixpoint all_chars (p : ascii -> bool) (s : string) : bool :=
  match s with
  | String c rest => p c && all_chars p rest
  | EmptyString => true
  end.

Definition digit_char (d : Z) : ascii := ascii_of_nat (Z.to_nat (48 + d)).

(** What [int()] makes of a character before it reads the number: an
    ASCII character is itself, a space is a blank, a decimal digit is
    the ASCII digit of its value, anything else is a question mark. *)
Definition to_ascii (cp : Z) : ascii :=
  if (0 <=? cp) && (cp <? 128) then ascii_of_nat (Z.to_nat cp)
  else if is_unicode_space cp then " "%char
  else match decimal_value cp with
       | Some d => digit_char d
       | None => "?"%char
       end.

Definition ascii_text (s : string) : string :=
  string_of_list_ascii (map (fun ch => to_ascii ch.1) (decode s)).

(** Whitespace around an ASCII number: space, tab, newline, vertical
    tab, form feed, carriage return. *)
Definition is_space (c : ascii) : bool :=
  (code c =? 32) || ((9 <=? code c) && (code c <=? 13)).

Fixpoint lstrip (p : ascii -> bool) (s : string) : string :=
  match s with
  | String c rest => if p c then lstrip p rest else s
  | EmptyString => EmptyString
  end.

Definition digit_val (c : ascii) : option Z :=
  if (48 <=? code c) && (code c <=? 57) then Some (code c - 48) else None.

Definition underscore : ascii := "_"%char.

(** The digits of an [int()] literal after its first one: digits, single
    underscores between digits, then whitespace up to the end. *)
Fixpoint int_digits (acc : Z) (after_underscore : bool) (s : string)
  : option Z :=
  match s with
  | EmptyString => if after_underscore then None else Some acc
  | String c rest =>
    match digit_val c with
    | Some d => int_digits (10 * acc + d) false rest
    | None =>
      if after_underscore then None
      else if Ascii.eqb c underscore then int_digits acc true rest
      else if all_chars is_space s then Some acc
      else None
    end
  end.

Definition int_unsigned (s : string) : option Z :=
  match s with
  | String c rest =>
    match digit_val c with
    | Some d => int_digits d false rest
    | None => None
    end
  | EmptyString => None
  end.

(** The number that an ASCII text denotes in base 10: [ValueError] on
    anything but optional whitespace, an optional sign, digits, optional
    whitespace. *)
Definition int_ascii (s : string) : result Z :=
  let signed :=
    match lstrip is_space s with
    | String "+"%char rest => int_unsigned rest
    | String "-"%char rest => Z.opp <$> int_unsigned rest
    | body => int_unsigned body
    end in
  match signed with
  | Some n => Ret n
  | None => Raise ValueError
  end.

(** [int(s)]. *)
Definition int (s : string) : result Z := int_ascii (ascii_text s).

(** *** Formatting *)

(** The decimal digits of [n >= 0], most significant first. *)
Fixpoint decimal_from (fuel : nat) (n : Z) (acc : string) : string :=
  match fuel with
  | O => acc
  | S fuel' =>
    if n <? 10 then String (digit_char n) acc
    else decimal_from fuel' (n / 10) (String (digit_char (n mod 10)) acc)
  end.

Definition decimal (n : Z) : string :=
  decimal_from (S (Z.to_nat (Z.log2 n))) n "".

Fixpoint zeros (k : nat) : string :=
  match k with
  | O => ""
  | S k' => String "0"%char (zeros k')
  end.

Definition zfill (width : nat) (s : string) : string :=
  zeros (width - String.length s) ++ s.

(** The format specification [0<width>d] of an f-string: zero padding
    after the sign, which counts in the width. *)
Definition format_0d (width : nat) (n : Z) : string :=
  if n <? 0 then String "-"%char (zfill (width - 1) (decimal (- n)))
  else zfill width (decimal n).

(** *** Encoding *)

(** Whether the string holds a surrogate, a code point from U+D800 to
    U+DFFF: on three bytes, 237 and a byte from 160 on.  The codec
    [utf-8-sig] of the output file refuses to encode it. *)
Fixpoint has_surrogate (s : string) : bool :=
  match s with
  | String c1 ((String c2 _) as rest) =>
    ((code c1 =? 237) && (160 <=? code c2) && (code c2 <=? 191))
    || has_surrogate rest
  | _ => false
  end.

End PyStr.

(** ** JSON values

    What [r.json()] can hand to the program: the values of a decoded JSON
    document.  A raw record is a [dict] with string keys. *)

#[warnings="-register-all"]
Inductive pyval : Type :=
  | VNone
  | VBool (b : bool)
  | VInt (n : Z)
  | VFloat (f : spec_float)
  | VStr (s : string)
  | VList (l : list pyval)
  | VDict (m : gmap string pyval).

Abbreviation record := (gmap string pyval).

(** Truth value, as tested by [not x]. *)
Definition truthy (v : pyval) : bool :=
  match v with
  | VNone => false
  | VBool b => b
  | VInt n => negb (n =? 0)
  | VFloat (S754_zero _) => false
  | VFloat _ => true
  | VStr s => negb (String.eqb s "")
  | VList l => negb (Nat.eqb (List.length l) 0)
  | VDict m => negb (Nat.eqb (size m) 0)
  end.

(** [v in (None, "")]. *)
Definition in_None_or_empty (v : pyval) : bool :=
  match v with
  | VNone => true
  | VStr s => String.eqb s ""
  | _ => false
  end.

(** A dict display [{k1: v1, ..., kn: vn}]: the items are stored from
    left to right. *)
Definition dict_display (items : list (string * pyval)) : record :=
  fold_left (fun d kv => <[kv.1 := kv.2]> d) items ∅.

(** [d[k]]. *)
Definition getitem (d : record) (k : string) : result pyval :=
  match d !! k with
  | Some v => Ret v
  | None => Raise KeyError
  end.

(** [d.get(k, default)]. *)
Definition dict_get (d : record) (k : string) (default : pyval) : pyval :=
  match d !! k with
  | Some v => v
  | None => default
  end.

(** ** Calendar conversion *)

Definition to_roc (date_obj : date) (use_roc : bool) : string :=
  let yr := if use_roc then year date_obj - 1911 else year date_obj in
  PyStr.format_0d 3 yr ++ "." ++ PyStr.format_0d 2 (month date_obj)
    ++ "." ++ PyStr.format_0d 2 (day date_obj).

(** The body of the [try] block of [roc_to_western].  Only a [str] has a
    [split] method. *)
Definition roc_to_western_try (date_str : pyval) : result pyval :=
  parts ← match date_str with
          | VStr s => Ret (PyStr.split "."%char s)
          | _ => Raise AttributeError
          end;
  match parts with
  | [p0; p1; p2] =>
    roc_year ← PyStr.int p0;
    let western_year := roc_year + 1911 in
    m ← PyStr.int p1;
    d ← PyStr.int p2;
    Ret (VStr (PyStr.format_0d 4 western_year ++ "." ++ PyStr.format_0d 2 m
               ++ "." ++ PyStr.format_0d 2 d))
  | _ => Ret date_str
  end.

Definition roc_to_western (date_str : pyval) : pyval :=
  if negb (truthy date_str) then VStr ""
  else
    match roc_to_western_try date_str with
    | Ret v => v
    | Raise _ => date_str
    end.

(** ** The record normalizer *)

Definition OUTPUT_FIELDS : list string :=
  [ "交易日期"; "種類代碼"; "作物代號"; "作物名稱";
    "市場代號"; "市場名稱"; "上價"; "中價"; "下價";
    "平均價"; "交易量" ].

(** The local function [pick] of [normalize_record]; [rec] is the record
    it closes over. *)
Fixpoint pick (rec : record) (candidates : list string) : pyval :=
  match candidates with
  | [] => VStr ""
  | c :: rest =>
    match rec !! c with
    | Some v => if negb (in_None_or_empty v) then v else pick rec rest
    | None => pick rec rest
    end
  end.

Definition normalize_record (rec : record) : result record :=
  let pick := pick rec in
  let d := dict_display
    [ ("交易日期", pick ["TransDate"; "交易日期"]);
      ("種類代碼", pick ["CategoryCode"; "種類代碼"]);
      ("作物代號", pick ["CropCode"; "作物代號"]);
      ("作物名稱", pick ["CropName"; "作物名稱"]);
      ("市場代號", pick ["MarketCode"; "市場代號"]);
      ("市場名稱", pick ["MarketName"; "市場名稱"]);
      ("上價", pick ["UpperPrice"; "上價"]);
      ("中價", pick ["MiddlePrice"; "中價"]);
      ("下價", pick ["LowerPrice"; "下價"]);
      ("平均價", pick ["AveragePrice"; "平均價"]);
      ("交易量", pick ["TransVolume"; "交易量"]) ] in
  v ← getitem d "交易日期";
  Ret (<["交易日期" := roc_to_western v]> d).

(** The normalizer of [example/Steven_Crawler全範圍.py]: the same [pick]
    and the same date conversion over another field table. *)
Module Steven_Crawler.

Definition OUTPUT_FIELDS : list string :=
  [ "TransDate"; "MarketCode"; "MarketName"; "CropCode"; "CropName";
    "CategoryCode"; "UpperPrice"; "MiddlePrice"; "LowerPrice";
    "AveragePrice"; "TransVolume"; "TransAmount"; "Unit";
    "County"; "Township"; "UpdateTime" ].

Definition normalize_record (rec : record) : result record :=
  let pick := pick rec in
  let d := dict_display
    [ ("TransDate", pick ["TransDate"; "交易日期"]);
      ("MarketCode", pick ["MarketCode"; "市場代號"]);
      ("MarketName", pick ["MarketName"; "市場名稱"]);
      ("CropCode", pick ["CropCode"; "作物代號"]);
      ("CropName", pick ["CropName"; "作物名稱"]);
      ("CategoryCode", pick ["CategoryCode"; "種類代碼"; "TypeCode"]);
      ("UpperPrice", pick ["UpperPrice"; "上價"]);
      ("MiddlePrice", pick ["MiddlePrice"; "中價"; "平均價"]);
      ("LowerPrice", pick ["LowerPrice"; "下價"]);
      ("AveragePrice", pick ["AveragePrice"; "平均價"; "中價"]);
      ("TransVolume", pick ["TransVolume"; "交易量"]);
      ("TransAmount", pick ["TransAmount"; "交易金額"]);
      ("Unit", pick ["Unit"; "單位"]);
      ("County", pick ["County"; "縣市"]);
      ("Township", pick ["Township"; "鄉鎮"]);
      ("UpdateTime", pick ["UpdateTime"; "更新時間"]) ] in
  v ← getitem d "TransDate";
  Ret (<["TransDate" := roc_to_western v]> d).

End Steven_Crawler.

(** ** The upstream service and the clock

    [session.get(...)], [raise_for_status()] and [json()] are one step
    against the upstream: it fails with an exception or gives the decoded
    body.  The upstream is any function of the number of requests made so
    far and of the request.  The world records the requests sent and the
    delays slept, in order. *)

Record request : Type := mkrequest {
  req_url : string;
  req_params : record;
  req_timeout : Z
}.

Inductive response : Type :=
  | Failed (e : exn)
  | Body (v : pyval).

Record world : Type := mkworld {
  upstream : nat -> request -> response;
  sent : list request;
  slept : list Z
}.

Definition session_get_json (rq : request) (w : world) : response * world :=
  (upstream w (List.length (sent w)) rq,
   mkworld (upstream w) (sent w ++ [rq]) (slept w)).

Definition time_sleep (secs : Z) (w : world) : world :=
  mkworld (upstream w) (sent w) (slept w ++ [secs]).

(** [range(n)]. *)
Definition range (n : Z) : list Z := map Z.of_nat (seq 0 (Z.to_nat n)).

(** The [for i in ...] loop of [get_json] over the remaining values of
    [i], and the [return []] after it. *)
Fixpoint get_json_for (rq : request) (indices : list Z) (w : world)
  : pyval * world :=
  match indices with
  | [] => (VList [], w)
  | i :: rest =>
    match session_get_json rq w with
    | (Body v, w1) => (v, w1)
    | (Failed _, w1) =>
      get_json_for rq rest (time_sleep (RETRY_DELAY_BASE * (i + 1)) w1)
    end
  end.

Definition get_json (url : string) (params : record)
  (max_retry : Z) (timeout : Z) (w : world) : pyval * world :=
  get_json_for (mkrequest url params timeout) (range max_retry) w.

(** The defaults of [get_json]. *)
Definition get_json_max_retry : Z := 5.
Definition get_json_timeout : Z := 40.

(** ** The paged fetcher *)

(** [str(v).strip() == "N05"].  [str] of a [str] is the string itself.
    [str] of any other JSON value is [None], [True], [False], a numeral
    (digits, a sign, [nan], [inf]) or a text in brackets or braces; none
    of these is [N05] after [strip()]. *)
Definition str_strip_is_N05 (v : pyval) : bool :=
  match v with
  | VStr s => String.eqb (PyStr.strip s) "N05"
  | _ => false
  end.

(** [rec.get("CategoryCode", rec.get("種類代碼", ""))] on a [dict]. *)
Definition category_field (rec : record) : pyval :=
  dict_get rec "CategoryCode" (dict_get rec "種類代碼" (VStr "")).

(** The loop [for rec in data] of [fetch_period_block], from the rows
    gathered so far to the rows after the page.  Only a [dict] has a
    [get] method. *)
Fixpoint scan_page (data : list pyval) (all_rows : list record)
  : result (list record) :=
  match data with
  | [] => Ret all_rows
  | VDict rec :: rest =>
    if str_strip_is_N05 (category_field rec) then
      row ← normalize_record rec;
      scan_page rest (all_rows ++ [row])
    else scan_page rest all_rows
  | _ :: _ => Raise AttributeError
  end.

Definition page_params (period_start period_end : date) (page_top skip : Z)
  : record :=
  dict_display
    [ ("StartDate", VStr (to_roc period_start USE_ROC));
      ("EndDate", VStr (to_roc period_end USE_ROC));
      ("$top", VInt page_top);
      ("$skip", VInt skip);
      ("TcType", VStr "N05") ].

(** The [while True] loop of [fetch_period_block], from the state
    [(all_rows, skip)]. *)
Fixpoint fetch_pages (fuel : nat) (period_start period_end : date)
  (page_top : Z) (all_rows : list record) (skip : Z) (w : world)
  : outcome (list record) * world :=
  match fuel with
  | O => (OutOfFuel, w)
  | S fuel' =>
    let params := page_params period_start period_end page_top skip in
    let '(data, w1) :=
      get_json FARM_TRANS_URL params get_json_max_retry get_json_timeout w in
    match data with
    | VList ((_ :: _) as page) =>
      match scan_page page all_rows with
      | Raise e => (Raises e, w1)
      | Ret all_rows' =>
        if Z.of_nat (List.length page) <? page_top then (Returns all_rows', w1)
        else fetch_pages fuel' period_start period_end page_top all_rows'
               (skip + page_top) w1
      end
    | _ => (Returns all_rows, w1)
    end
  end.

Definition fetch_period_block (fuel : nat) (period_start period_end : date)
  (page_top : Z) (w : world) : outcome (list record) * world :=
  fetch_pages fuel period_start period_end page_top [] 0 w.

(** The default page size. *)
Definition fetch_period_block_page_top : Z := 2000.

(** * Specifications

    The notions in which the properties below are stated. *)

(** ** Windows *)

Definition window_length (w : window) : Z :=
  toordinal w.2 - toordinal w.1 + 1.

Definition contains_day (w : window) (o : Z) : Prop :=
  toordinal w.1 <= o <= toordinal w.2.

(** The windows [ws] split the days from [start_d] to [end_d] into
    consecutive runs of [days] days, the last one possibly shorter. *)
Record partition_of (days : Z) (start_d end_d : date) (ws : list window)
  : Prop := {
  part_first : exists e, head ws = Some (start_d, e);
  part_last : exists s, last ws = Some (s, end_d);
  part_window : forall i w, ws !! i = Some w ->
    valid_date w.1 = true /\ valid_date w.2 = true
    /\ 1 <= window_length w <= days;
  part_full : forall i w, ws !! i = Some w ->
    (S i < List.length ws)%nat -> window_length w = days;
  part_contiguous : forall i w w', ws !! i = Some w -> ws !! S i = Some w' ->
    toordinal w'.1 = toordinal w.2 + 1;
  part_disjoint : forall i j w w', ws !! i = Some w -> ws !! j = Some w' ->
    (i < j)%nat -> toordinal w.2 < toordinal w'.1;
  part_covers : forall o, toordinal start_d <= o <= toordinal end_d ->
    exists i w, ws !! i = Some w /\ contains_day w o;
  part_within : forall i w o, ws !! i = Some w -> contains_day w o ->
    toordinal start_d <= o <= toordinal end_d
}.

(** The same, as the loop builds it: the windows [ws] start at [cursor],
    follow one another day after day, have [days] days each but possibly
    the last one, and end on [end_d]. *)
Fixpoint tiles (days : Z) (cursor end_d : date) (ws : list window) : Prop :=
  match ws with
  | [] => toordinal cursor = toordinal end_d + 1
  | (s, e) :: rest =>
    s = cursor /\ valid_date e = true
    /\ toordinal s <= toordinal e <= toordinal end_d
    /\ toordinal e - toordinal s + 1 <= days
    /\ (rest = [] -> e = end_d)
    /\ (rest <> [] -> toordinal e - toordinal s + 1 = days)
    /\ exists cursor', valid_date cursor' = true
         /\ toordinal cursor' = toordinal e + 1
         /\ tiles days cursor' end_d rest
  end.

(** The ordinal of the day on which the last window starts. *)
Definition last_start (start_d end_d : date) (days : Z) : Z :=
  toordinal start_d + days * ((toordinal end_d - toordinal start_d) / days).

(** The date arithmetic of [period_windows] stays within
    [date.min .. date.max]: the last window's start plus [days - 1] days,
    and [end_d] plus one day. *)
Definition in_date_range (start_d end_d : date) (days : Z) : Prop :=
  last_start start_d end_d days + (days - 1) <= MAXORDINAL
  /\ toordinal end_d + 1 <= MAXORDINAL.

(** ** Calendar *)

Definition leap_day (y : Z) : Z := if is_leap y then 1 else 0.

(** The month and the day of the year, the last part of [ord2ymd]. *)
Definition month_day (n : Z) (leapyear : bool) : Z * Z :=
  let mo := Z.shiftr (n + 50) 5 in
  let preceding :=
    table DAYS_BEFORE_MONTH mo + (if (2 <? mo) && leapyear then 1 else 0) in
  if n <? preceding then
    let mo := mo - 1 in
    let preceding :=
      preceding
      - (table DAYS_IN_MONTH mo + (if (mo =? 2) && leapyear then 1 else 0)) in
    (mo, n - preceding + 1)
  else (mo, n - preceding + 1).

Definition month_day_ok (leapyear : bool) (n : Z) : bool :=
  let '(mo, dd) := month_day n leapyear in
  (1 <=? mo) && (mo <=? 12) && (1 <=? dd)
  && (dd <=? (if (mo =? 2) && leapyear then 29 else table DAYS_IN_MONTH mo))
  && (table DAYS_BEFORE_MONTH mo + (if (2 <? mo) && leapyear then 1 else 0)
      + dd =? n + 1).

(** The date [d] written [YYYY.MM.DD]. *)
Definition western_text (d : date) : string :=
  PyStr.format_0d 4 (year d) ++ "." ++ PyStr.format_0d 2 (month d)
    ++ "." ++ PyStr.format_0d 2 (day d).

(** ** Strings *)

Definition is_digit (c : ascii) : bool :=
  (48 <=? PyStr.code c) && (PyStr.code c <=? 57).

Definition is_ascii (c : ascii) : bool := PyStr.code c <? 128.

(** The number that a run of digits denotes, read from the left. *)
Fixpoint digits_value (acc : Z) (s : string) : Z :=
  match s with
  | EmptyString => acc
  | String c rest => digits_value (10 * acc + (PyStr.code c - 48)) rest
  end.

(** [s] does not contain the character [sep]. *)
Definition free_of (sep : ascii) (s : string) : bool :=
  PyStr.all_chars (fun c => negb (Ascii.eqb c sep)) s.

(** ** The normalizer *)

(** The output fields of [normalize_record] with the source names probed
    for each, in order, as its dict display has them. *)
Definition FIELD_SOURCES : list (string * list string) :=
  [ ("交易日期", ["TransDate"; "交易日期"]);
    ("種類代碼", ["CategoryCode"; "種類代碼"]);
    ("作物代號", ["CropCode"; "作物代號"]);
    ("作物名稱", ["CropName"; "作物名稱"]);
    ("市場代號", ["MarketCode"; "市場代號"]);
    ("市場名稱", ["MarketName"; "市場名稱"]);
    ("上價", ["UpperPrice"; "上價"]);
    ("中價", ["MiddlePrice"; "中價"]);
    ("下價", ["LowerPrice"; "下價"]);
    ("平均價", ["AveragePrice"; "平均價"]);
    ("交易量", ["TransVolume"; "交易量"]) ].

Definition DATE_FIELD : string := "交易日期".

Definition Steven_FIELD_SOURCES : list (string * list string) :=
  [ ("TransDate", ["TransDate"; "交易日期"]);
    ("MarketCode", ["MarketCode"; "市場代號"]);
    ("MarketName", ["MarketName"; "市場名稱"]);
    ("CropCode", ["CropCode"; "作物代號"]);
    ("CropName", ["CropName"; "作物名稱"]);
    ("CategoryCode", ["CategoryCode"; "種類代碼"; "TypeCode"]);
    ("UpperPrice", ["UpperPrice"; "上價"]);
    ("MiddlePrice", ["MiddlePrice"; "中價"; "平均價"]);
    ("LowerPrice", ["LowerPrice"; "下價"]);
    ("AveragePrice", ["AveragePrice"; "平均價"; "中價"]);
    ("TransVolume", ["TransVolume"; "交易量"]);
    ("TransAmount", ["TransAmount"; "交易金額"]);
    ("Unit", ["Unit"; "單位"]);
    ("County", ["County"; "縣市"]);
    ("Township", ["Township"; "鄉鎮"]);
    ("UpdateTime", ["UpdateTime"; "更新時間"]) ].

Definition Steven_DATE_FIELD : string := "TransDate".

(** [rec] has the non-empty value [v] under the name [c]. *)
Definition present_nonempty (rec : record) (c : string) (v : pyval) : Prop :=
  rec !! c = Some v /\ v <> VNone /\ v <> VStr "".

Definition absent_or_empty (rec : record) (c : string) : Prop :=
  forall v, ~ present_nonempty rec c v.

(** [v] is the first present non-empty value of [rec] among the names
    [candidates], or the empty string when there is none. *)
Definition first_nonempty (rec : record) (candidates : list string)
  (v : pyval) : Prop :=
  (exists i c, candidates !! i = Some c /\ present_nonempty rec c v
     /\ forall j c', (j < i)%nat -> candidates !! j = Some c' ->
          absent_or_empty rec c')
  \/ (v = VStr "" /\ forall c, c ∈ candidates -> absent_or_empty rec c).

(** The shape shared by the two normalizers: a table of fields with their
    source names, and the field that holds the date. *)
Definition picked (sources : list (string * list string)) (rec : record)
  : list (string * pyval) :=
  map (fun fc => (fc.1, pick rec fc.2)) sources.

Definition normalize_with (sources : list (string * list string))
  (date_field : string) (rec : record) : result record :=
  let d := dict_display (picked sources rec) in
  v ← getitem d date_field;
  Ret (<[date_field := roc_to_western v]> d).

(** The value of an output field: what [pick] chose, converted when the
    field is the date. *)
Definition output_value (date_field : string) (rec : record)
  (field : string) (candidates : list string) : pyval :=
  if bool_decide (field = date_field)
  then roc_to_western (pick rec candidates)
  else pick rec candidates.

(** A table is well formed when its fields are distinct, each field is
    among its own source names, and no other source name is a field. *)
Definition sources_ok (sources : list (string * list string)) : bool :=
  bool_decide (NoDup sources.*1)
  && forallb (fun fc =>
       bool_decide (fc.1 ∈ fc.2)
       && forallb (fun c => bool_decide (c = fc.1)
                            || bool_decide (c ∉ sources.*1)) fc.2)
     sources.

(** The row that [normalize_record] returns (it never raises, see
    [normalize_record_normalized]). *)
Definition normalized (rec : record) : record :=
  match normalize_record rec with
  | Ret d => d
  | Raise _ => ∅
  end.

(** ** The fetcher *)

(** The world after [rqs] more requests and [delays] more sleeps. *)
Definition world_after (w : world) (rqs : list request) (delays : list Z)
  : world :=
  mkworld (upstream w) (sent w ++ rqs) (slept w ++ delays).

(** The [k]-th request from now on, if it is [rq], fails. *)
Definition fails_at (w : world) (rq : request) (k : nat) : Prop :=
  exists e, upstream w (List.length (sent w) + k) rq = Failed e.

(** The delay slept after the failed attempt of index [i], counted from
    0: attempt number times base delay. *)
Definition retry_delay (i : Z) : Z := RETRY_DELAY_BASE * (i + 1).

Definition is_dict (v : pyval) : bool :=
  match v with
  | VDict _ => true
  | _ => false
  end.

(** The rows that a page of records adds: its records of category [N05],
    normalized, in the order of the page. *)
Definition accepted_rows (data : list pyval) : list record :=
  flat_map (fun v =>
    match v with
    | VDict rec =>
      if str_strip_is_N05 (category_field rec) then [normalized rec] else []
    | _ => []
    end) data.

Definition page_rows (body : pyval) : list record :=
  match body with
  | VList data => accepted_rows data
  | _ => []
  end.

(** The request for the page of index [k]: [skip = k * page_top]. *)
Definition page_request (period_start period_end : date) (page_top : Z)
  (k : nat) : request :=
  mkrequest FARM_TRANS_URL
    (page_params period_start period_end page_top (Z.of_nat k * page_top))
    get_json_timeout.

(** A page after which the fetcher goes on: a list of records, not empty,
    with at least [page_top] records. *)
Definition full_page (page_top : Z) (body : pyval) : Prop :=
  exists data, body = VList data /\ data <> []
    /\ Forall (fun v => is_dict v = true) data
    /\ page_top <= Z.of_nat (List.length data).

(** A page after which the fetcher stops: fewer records than [page_top],
    or an empty list, or something that is not a list. *)
Definition last_page (page_top : Z) (body : pyval) : Prop :=
  (exists data, body = VList data /\ data <> []
     /\ Forall (fun v => is_dict v = true) data
     /\ Z.of_nat (List.length data) < page_top)
  \/ (forall data, body = VList data -> data = []).

(** ** Sample inputs *)

Definition sample_record : record := {[ "TransDate" := VStr "109.01.01" ]}.

Definition sample_row (price : Z) (category : string) : pyval :=
  VDict (dict_display [ ("TransDate", VStr "109.01.01");
                        ("CategoryCode", VStr category);
                        ("上價", VInt price) ]).

(** An upstream that fails four times and then answers [v]. *)
Definition flaky_upstream (v : pyval) (n : nat) (rq : request) : response :=
  if (n <? 4)%nat then Failed ConnectionError else Body v.

(** An upstream that answers at the third attempt and is down before
    and afterwards. *)
Definition stutter_then_down (n : nat) (rq : request) : response :=
  match n with
  | 2%nat => Body (VList [sample_row 1 "N05"; sample_row 2 "N04"])
  | _ => Failed ConnectionError
  end.

(** An upstream that is down. *)
Definition down_upstream (n : nat) (rq : request) : response :=
  Failed ConnectionError.

(** An upstream with five records, served by [$skip]. *)
Definition three_pages (n : nat) (rq : request) : response :=
  match req_params rq !! "$skip" with
  | Some (VInt 0) => Body (VList [sample_row 1 "N05"; sample_row 2 "N04"])
  | Some (VInt 2) => Body (VList [sample_row 3 "N05"; sample_row 4 "N05"])
  | Some (VInt 4) => Body (VList [sample_row 5 " N05 "])
  | _ => Failed ConnectionError
  end.

Definition three_pages_page (k : nat) : pyval :=
  match k with
  | 0%nat => VList [sample_row 1 "N05"; sample_row 2 "N04"]
  | 1%nat => VList [sample_row 3 "N05"; sample_row 4 "N05"]
  | _ => VList [sample_row 5 " N05 "]
  end.

(** ** Notions for the further properties *)

(** The sum of the delays slept. *)
Definition total_delay (delays : list Z) : Z := fold_right Z.add 0 delays.

(** What every row returned by the fetcher satisfies: it has exactly the
    output fields, its category reads [N05] once stripped, and none of
    its values is [None]. *)
Definition accepted_row (d : record) : Prop :=
  dom d = list_to_set OUTPUT_FIELDS
  /\ (exists s, d !! "種類代碼" = Some (VStr s) /\ PyStr.strip s = "N05")
  /\ forall field v, d !! field = Some v -> v <> VNone.

(** ** The period task

    [process_period] run on its own.  The upstream, the output file and
    the progress counter are the state it works on.  The file is its
    data lines in order, each the field values that [csv.DictWriter]
    hands to the underlying writer.  The values are those of a decoded
    JSON document: making their text is taken to raise nothing (the
    decoder admits no number beyond the interpreter's limit on digits),
    and of that text only whether the file's codec can encode it is
    modelled.  What [print] shows is not modelled. *)

(** The exceptions of the task: those of the fetch, and three of its
    own, from [open], from the encoding of a line and from the division
    of the progress line. *)
Inductive task_exn : Type :=
  | Exn (e : exn)
  | OSError
  | UnicodeEncodeError
  | ZeroDivisionError.

Inductive task_outcome : Type :=
  | TaskReturns (n : Z)
  | TaskRaises (e : task_exn)
  | TaskOutOfFuel.

Record env : Type := mkenv {
  net : world;
  (** whether [OUTPUT_CSV] can be opened for appending; once it is
      open, the device is taken to accept what is written *)
  can_append : bool;
  csv_file : list (list pyval);
  completed_tasks : Z
}.

(** [csv.DictWriter._dict_to_list] with the defaults
    [extrasaction="raise"] and [restval=""]: a key outside [fieldnames]
    raises [ValueError], a missing field is written as the empty
    string. *)
Definition dict_to_list (fieldnames : list string) (rowdict : record)
  : result (list pyval) :=
  if bool_decide (dom rowdict ⊆ (list_to_set fieldnames : gset string))
  then Ret (map (fun key => dict_get rowdict key (VStr "")) fieldnames)
  else Raise ValueError.

(** Whether the codec of the file, [utf-8-sig], can encode the text of
    a field.  A [str] is written as it is, and a surrogate in it cannot
    be encoded.  The text of [None], of a [bool] and of a number is
    ASCII, and that of a [list] or a [dict] is a [repr], which writes a
    surrogate as an escape. *)
Definition encodable (v : pyval) : bool :=
  match v with
  | VStr s => negb (PyStr.has_surrogate s)
  | _ => true
  end.

(** The loop [for r in rows: writer.writerow(r)].  A row is written as
    one line or not at all; the lines written before a row raises stay
    in the file. *)
Fixpoint write_rows (rows : list record) (file : list (list pyval))
  : list (list pyval) * option task_exn :=
  match rows with
  | [] => (file, None)
  | r :: rest =>
    match dict_to_list OUTPUT_FIELDS r with
    | Ret line =>
      if forallb encodable line then write_rows rest (file ++ [line])
      else (file, Some UnicodeEncodeError)
    | Raise e => (file, Some (Exn e))
    end
  end.

(** The float of largest magnitude is just below [2^1024 - 2^970]: a
    quotient of two [int]s from there on rounds out of the floats. *)
Definition DBL_OVERFLOW : Z := 2 ^ 1024 - 2 ^ 970.

(** Whether [a / b] raises, for two [int]s.  The quotient itself is only
    printed. *)
Definition int_truediv_raises (a b : Z) : option task_exn :=
  if b =? 0 then Some ZeroDivisionError
  else if DBL_OVERFLOW * Z.abs b <=? Z.abs a then Some (Exn OverflowError)
  else None.

(** The part of [process_period] after the fetch: the append, and the
    progress update. *)
Definition record_period (rows : list record) (total_tasks : Z) (s : env)
  : task_outcome * env :=
  let '(s1, raised) :=
    match rows with
    | [] => (s, None)
    | _ :: _ =>
      if can_append s then
        let '(file, e) := write_rows rows (csv_file s) in
        (mkenv (net s) (can_append s) file (completed_tasks s), e)
      else (s, Some OSError)
    end in
  match raised with
  | Some e => (TaskRaises e, s1)
  | None =>
    let s2 :=
      mkenv (net s1) (can_append s1) (csv_file s1) (completed_tasks s1 + 1) in
    match int_truediv_raises (completed_tasks s2) total_tasks with
    | Some e => (TaskRaises e, s2)
    | None => (TaskReturns (Z.of_nat (List.length rows)), s2)
    end
  end.

Definition process_period (fuel : nat) (p_start p_end : date)
  (total_tasks : Z) (s : env) : task_outcome * env :=
  let '(fetched, w1) :=
    fetch_period_block fuel p_start p_end fetch_period_block_page_top (net s)
  in
  let s1 := mkenv w1 (can_append s) (csv_file s) (completed_tasks s) in
  match fetched with
  | Returns rows => record_period rows total_tasks s1
  | Raises e => (TaskRaises (Exn e), s1)
  | OutOfFuel => (TaskOutOfFuel, s1)
  end.

(** The line of a row: one value for each output field, in their order,
    each the row's own. *)
Definition line_of (r : record) (line : list pyval) : Prop :=
  List.length line = List.length OUTPUT_FIELDS
  /\ forall i key, OUTPUT_FIELDS !! i = Some key -> line !! i = r !! key.

(** The state after a task that fetched, appended [lines] and updated
    the progress. *)
Definition env_after (s : env) (w' : world) (lines : list (list pyval))
  : env :=
  mkenv w' (can_append s) (csv_file s ++ lines) (completed_tasks s + 1).

(** The state after a task that only fetched. *)
Definition env_fetched (s : env) (w' : world) : env :=
  mkenv w' (can_append s) (csv_file s) (completed_tasks s).

(** The state after a task that fetched and appended [lines], and was
    stopped before it updated the progress. *)
Definition env_stopped (s : env) (w' : world) (lines : list (list pyval))
  : env :=
  mkenv w' (can_append s) (csv_file s ++ lines) (completed_tasks s).

(** Every value of the row can be encoded. *)
Definition encodable_row (r : record) : Prop :=
  forall field v, r !! field = Some v -> encodable v = true.

(** A surrogate on its own, U+D800. *)
Definition lone_surrogate : string :=
  String (ascii_of_nat 237) (String (ascii_of_nat 160)
    (String (ascii_of_nat 128) "")).

(** An upstream whose second record names its market with a surrogate. *)
Definition surrogate_upstream (n : nat) (rq : request) : response :=
  Body (VList [ sample_row 1 "N05";
                VDict (dict_display [ ("CategoryCode", VStr "N05");
                                      ("MarketName", VStr lone_surrogate) ]);
                sample_row 3 "N05" ]).

(** An upstream that answers anything with one record that is not a
    [dict]. *)
Definition garbled_upstream (n : nat) (rq : request) : response :=
  Body (VList [VStr "error"]).

(** ** The crop table of [Steven_Crawler全範圍.py]

    The table built from the crop dictionary when the script starts.
    What [str()] makes of a JSON value is left open: the definitions
    take it as [py_str]. *)

(** [kw in text], for two strings. *)
Fixpoint str_contains (kw text : string) : bool :=
  String.prefix kw text
  || match text with
     | String _ rest => str_contains kw rest
     | EmptyString => false
     end.

Section CropTable.

Variable py_str : pyval -> string.

Definition is_vege_or_fruit (rec : record) : bool :=
  let text :=
    (py_str (dict_get rec "PLV1_NAME" (VStr ""))
     ++ py_str (dict_get rec "PLV2_NAME" (VStr ""))
     ++ py_str (dict_get rec "PLV3_NAME" (VStr "")))%string in
  existsb (fun kw => str_contains kw text) ["蔬菜"; "果菜"; "水果"].

Definition get_crop_code (rec : record) : string :=
  PyStr.strip (py_str (dict_get rec "CROP_UID" (VStr ""))).

Definition get_crop_name (rec : record) : string :=
  PyStr.strip (py_str (dict_get rec "CNAME" (VStr ""))).

(** The loop [for row in crop_dict] over a list, from the state
    [(vege_fruit_codes, code_to_name)].  Only a [dict] has a [get]
    method. *)
Fixpoint crop_rows (crop_dict : list pyval) (vege_fruit_codes : gset string)
  (code_to_name : gmap string string)
  : result (gset string * gmap string string) :=
  match crop_dict with
  | [] => Ret (vege_fruit_codes, code_to_name)
  | VDict row :: rest =>
    if is_vege_or_fruit row then
      let code := get_crop_code row in
      let name := get_crop_name row in
      if negb (String.eqb code "") then
        let vege_fruit_codes := vege_fruit_codes ∪ {[ code ]} in
        if negb (String.eqb name "") then
          crop_rows rest vege_fruit_codes (<[code := name]> code_to_name)
        else crop_rows rest vege_fruit_codes code_to_name
      else crop_rows rest vege_fruit_codes code_to_name
    else crop_rows rest vege_fruit_codes code_to_name
  | _ :: _ => Raise AttributeError
  end.

Definition crop_table (crop_dict : list pyval)
  : result (gset string * gmap string string) :=
  crop_rows crop_dict ∅ ∅.

(** The row [row] of the dictionary is a vegetable or a fruit with the
    code [code]. *)
Definition crop_row (crop_dict : list pyval) (code : string) (row : record)
  : Prop :=
  VDict row ∈ crop_dict /\ is_vege_or_fruit row = true
  /\ get_crop_code row = code.

(** The row gives the code [code] a name. *)
Definition names_code (code : string) (v : pyval) : Prop :=
  exists row, v = VDict row /\ is_vege_or_fruit row = true
    /\ get_crop_code row = code /\ get_crop_name row <> "".

End CropTable.

(** A [str()] for the samples: a string is its own text. *)
Definition sample_str (v : pyval) : string :=
  match v with
  | VStr s => s
  | _ => "?"
  end.

Definition sample_crop (kind code name : string) : pyval :=
  VDict (dict_display [ ("PLV2_NAME", VStr kind);
                        ("CROP_UID", VStr code);
                        ("CNAME", VStr name) ]).

Definition sample_crops : list pyval :=
  [ sample_crop "水果類" " A1 " "香蕉";
    sample_crop "花卉" "F1" "玫瑰";
    sample_crop "蔬菜類" "B2" "";
    sample_crop "水果類" "A1" "芭蕉" ].

(** ** The count of the main block *)

(** The loop over [as_completed(futures)]: the futures' results in the
    order of their completion, added up; a future that raised adds
    nothing.  A task that does not end leaves the loop waiting. *)
Fixpoint add_results (completed : list task_outcome) (total_cnt : Z)
  : option Z :=
  match completed with
  | [] => Some total_cnt
  | TaskReturns n :: rest => add_results rest (total_cnt + n)
  | TaskRaises _ :: rest => add_results rest total_cnt
  | TaskOutOfFuel :: _ => None
  end.

(** The count that a task adds. *)
Definition task_count (o : task_outcome) : Z :=
  match o with
  | TaskReturns n => n
  | _ => 0
  end.

Definition task_ended (o : task_outcome) : bool :=
  match o with
  | TaskOutOfFuel => false
  | _ => true
  end.

(** ** Pages served after retries *)

(** The world after the page request [rq] was answered at its attempt
    of index [failures]: one more request than failures, and a sleep
    after each failure. *)
Definition world_answered (w : world) (rq : request) (failures : nat)
  : world :=
  world_after w (repeat rq (S failures))
    (map retry_delay (range (Z.of_nat failures))).

(** The upstream serves the pages of [script] one after the other from
    the page of index [k] on: each entry gives the number of failed
    attempts before the answer, at most four, and the answer. *)
Fixpoint serves (period_start period_end : date) (page_top : Z) (w : world)
  (k : nat) (script : list (nat * pyval)) : Prop :=
  match script with
  | [] => True
  | (failures, body) :: rest =>
    let rq := page_request period_start period_end page_top k in
    (failures <= 4)%nat
    /\ (forall i, (i < failures)%nat -> fails_at w rq i)
    /\ upstream w (List.length (sent w) + failures) rq = Body body
    /\ serves period_start period_end page_top
         (world_answered w rq failures) (S k) rest
  end.

(** The world after the pages of [script] were served. *)
Fixpoint world_served (period_start period_end : date) (page_top : Z)
  (w : world) (k : nat) (script : list (nat * pyval)) : world :=
  match script with
  | [] => w
  | (failures, _) :: rest =>
    world_served period_start period_end page_top
      (world_answered w (page_request period_start period_end page_top k)
         failures)
      (S k) rest
  end.

(** An upstream that fails twice before each of its two pages. *)
Definition stuttering_upstream (n : nat) (rq : request) : response :=
  match n with
  | 2%nat => Body (VList [sample_row 1 "N05"; sample_row 2 "N04"])
  | 5%nat => Body (VList [sample_row 3 "N05"])
  | _ => Failed ConnectionError
  end.

(** * Properties *)

#[local] Set Warnings "-clear-no-such-hyp".

(** ** The calendar

    [fromordinal] is the inverse of [toordinal] on [1 .. MAXORDINAL], and
    dates are ordered as their ordinals. *)

Module CalendarFacts.

Lemma is_leap_cases y :
  is_leap y = true /\ (y mod 4 = 0 /\ (y mod 100 <> 0 \/ y mod 400 = 0))
  \/ is_leap y = false /\ (y mod 4 <> 0 \/ (y mod 100 = 0 /\ y mod 400 <> 0)).
Proof.
  unfold is_leap.
  destruct (Z.eqb_spec (y mod 4) 0), (Z.eqb_spec (y mod 100) 0),
    (Z.eqb_spec (y mod 400) 0); simpl; intuition lia.
Qed.

Lemma days_before_year_succ y :
  days_before_year (y + 1) = days_before_year y + 365 + leap_day y.
Proof.
  unfold leap_day, days_before_year.
  destruct (is_leap_cases y) as [[-> H] | [-> H]];
    Z.div_mod_to_equations; lia.
Qed.

Lemma days_before_year_mono y1 y2 :
  y1 <= y2 -> days_before_year y1 + 365 * (y2 - y1) <= days_before_year y2.
Proof.
  unfold days_before_year. intros H. Z.div_mod_to_equations. lia.
Qed.

Lemma month_cases m :
  1 <= m <= 12 ->
  m = 1 \/ m = 2 \/ m = 3 \/ m = 4 \/ m = 5 \/ m = 6 \/ m = 7 \/ m = 8
  \/ m = 9 \/ m = 10 \/ m = 11 \/ m = 12.
Proof. lia. Qed.

Ltac eval_tables :=
  repeat match goal with
  | |- context [table ?t ?k] =>
    let v := eval vm_compute in (table t k) in change (table t k) with v
  | H : context [table ?t ?k] |- _ =>
    let v := eval vm_compute in (table t k) in change (table t k) with v in H
  end.

Ltac each_month H :=
  apply month_cases in H;
  repeat (destruct H as [H | H]; [subst | ]); [.. | subst].

Lemma valid_date_fields d :
  valid_date d = true ->
  1 <= year d <= 9999 /\ 1 <= month d <= 12
  /\ 1 <= day d <= days_in_month (year d) (month d).
Proof.
  unfold valid_date, MINYEAR, MAXYEAR. rewrite !andb_true_iff, !Z.leb_le. lia.
Qed.

Lemma day_of_year_range y m dd :
  1 <= m <= 12 -> 1 <= dd <= days_in_month y m ->
  1 <= days_before_month y m + dd <= 365 + leap_day y.
Proof.
  intros Hm. unfold days_in_month, days_before_month, leap_day.
  intros Hd; each_month Hm; destruct (is_leap y); eval_tables; cbn in *; lia.
Qed.

Lemma toordinal_range d :
  valid_date d = true -> 1 <= toordinal d <= MAXORDINAL.
Proof.
  intros Hv. destruct (valid_date_fields d Hv) as (Hy & Hm & Hd).
  pose proof (day_of_year_range _ _ _ Hm Hd) as Hdoy.
  unfold toordinal, ymd2ord.
  pose proof (days_before_year_mono 1 (year d) ltac:(lia)) as H1.
  pose proof (days_before_year_mono (year d + 1) 10000 ltac:(lia)) as H2.
  rewrite days_before_year_succ in H2.
  change (days_before_year 1) with 0 in H1.
  change (days_before_year 10000) with 3652059 in H2.
  unfold MAXORDINAL. lia.
Qed.

Lemma days_before_month_mono y m1 m2 :
  1 <= m1 <= 12 -> 1 <= m2 <= 12 -> m1 < m2 ->
  days_before_month y m1 + days_in_month y m1 <= days_before_month y m2.
Proof.
  intros H1 H2. unfold days_in_month, days_before_month.
  each_month H1; each_month H2; intros Hlt; try lia;
    destruct (is_leap y); eval_tables; cbn; lia.
Qed.

Lemma date_lt_sound a b :
  valid_date a = true -> valid_date b = true ->
  date_lt a b = true -> toordinal a < toordinal b.
Proof.
  intros Ha Hb.
  destruct (valid_date_fields a Ha) as (Hya & Hma & Hda).
  destruct (valid_date_fields b Hb) as (Hyb & Hmb & Hdb).
  pose proof (day_of_year_range _ _ _ Hma Hda) as Hdoya.
  pose proof (day_of_year_range _ _ _ Hmb Hdb) as Hdoyb.
  unfold date_lt, toordinal, ymd2ord.
  rewrite !orb_true_iff, !andb_true_iff, !orb_true_iff, !andb_true_iff,
    !Z.ltb_lt, !Z.eqb_eq.
  intros [Hy | [Hy [Hm | [Hm Hd]]]].
  - pose proof (days_before_year_mono (year a + 1) (year b) ltac:(lia)) as H.
    rewrite days_before_year_succ in H. lia.
  - rewrite Hy in *.
    pose proof (days_before_month_mono (year b) _ _ Hma Hmb Hm). lia.
  - rewrite Hy, Hm. lia.
Qed.

Lemma date_lt_total a b :
  date_lt a b = false -> date_lt b a = false -> a = b.
Proof.
  destruct a as [ya ma da], b as [yb mb db]. unfold date_lt; simpl.
  rewrite !orb_false_iff, !andb_false_iff, !orb_false_iff, !andb_false_iff,
    !Z.ltb_ge, !Z.eqb_neq.
  intros H1 H2. assert (ya = yb) by lia. subst yb.
  assert (ma = mb) by lia. subst mb.
  assert (da = db) by lia. now subst db.
Qed.

Lemma date_lt_toordinal a b :
  valid_date a = true -> valid_date b = true ->
  date_lt a b = true <-> toordinal a < toordinal b.
Proof.
  intros Ha Hb. split; [now apply date_lt_sound | ].
  intros Hlt. destruct (date_lt a b) eqn:Hab; [done | ].
  destruct (date_lt b a) eqn:Hba.
  - apply date_lt_sound in Hba; [lia | done | done].
  - rewrite (date_lt_total a b Hab Hba) in Hlt. lia.
Qed.

Lemma date_le_toordinal a b :
  valid_date a = true -> valid_date b = true ->
  date_le a b = true <-> toordinal a <= toordinal b.
Proof.
  intros Ha Hb. unfold date_le. rewrite negb_true_iff.
  pose proof (date_lt_toordinal b a Hb Ha) as H.
  destruct (date_lt b a).
  - split; [done | ]. intros Hle.
    assert (toordinal b < toordinal a) by (apply H; reflexivity). lia.
  - split; [ | done]. intros _.
    destruct (Z.lt_ge_cases (toordinal b) (toordinal a)) as [Hlt | ]; [ | lia].
    apply H in Hlt. done.
Qed.

Lemma month_day_all_ok leapyear :
  forallb (month_day_ok leapyear) (map Z.of_nat (seq 0 365)) = true.
Proof. destruct leapyear; vm_compute; reflexivity. Qed.

Lemma month_day_spec n leapyear :
  0 <= n <= 364 -> month_day_ok leapyear n = true.
Proof.
  intros Hn. pose proof (month_day_all_ok leapyear) as H.
  rewrite forallb_forall in H. apply H.
  apply in_map_iff. exists (Z.to_nat n). split; [lia | ].
  apply in_seq. lia.
Qed.

Lemma ord2ymd_unfold n :
  ord2ymd n =
  let n0 := n - 1 in
  let n400 := n0 / 146097 in
  let r400 := n0 mod 146097 in
  let n100 := r400 / 36524 in
  let r100 := r400 mod 36524 in
  let n4 := r100 / 1461 in
  let r4 := r100 mod 1461 in
  let n1 := r4 / 365 in
  let r1 := r4 mod 365 in
  let yr := n400 * 400 + 1 + n100 * 100 + n4 * 4 + n1 in
  if (n1 =? 4) || (n100 =? 4) then (yr - 1, 12, 31)
  else
    let leapyear := (n1 =? 3) && (negb (n4 =? 24) || (n100 =? 3)) in
    let '(mo, dd) := month_day r1 leapyear in (yr, mo, dd).
Proof.
  unfold ord2ymd, month_day, DI400Y, DI100Y, DI4Y. cbv zeta.
  destruct (_ || _); [reflexivity | ].
  destruct (_ <? _); reflexivity.
Qed.

Lemma valid_date_intro y m d :
  1 <= y <= 9999 -> 1 <= m <= 12 -> 1 <= d <= days_in_month y m ->
  valid_date (mkdate y m d) = true.
Proof.
  intros. unfold valid_date, MINYEAR, MAXYEAR. simpl.
  rewrite !andb_true_iff, !Z.leb_le. lia.
Qed.

Lemma ymd2ord_december_31 y : ymd2ord y 12 31 = days_before_year (y + 1).
Proof.
  rewrite days_before_year_succ.
  unfold ymd2ord, days_before_month, leap_day.
  destruct (is_leap y); eval_tables; cbn; lia.
Qed.

Lemma ord2ymd_spec n :
  1 <= n <= MAXORDINAL ->
  let '(y, m, d) := ord2ymd n in
  valid_date (mkdate y m d) = true /\ ymd2ord y m d = n.
Proof.
  unfold MAXORDINAL. intros Hn. rewrite ord2ymd_unfold. cbv zeta.
  pose proof (Z.div_mod (n - 1) 146097 ltac:(lia)) as E400.
  pose proof (Z.mod_pos_bound (n - 1) 146097 ltac:(lia)) as B400.
  set (n400 := (n - 1) / 146097) in *.
  set (r400 := (n - 1) mod 146097) in *.
  pose proof (Z.div_mod r400 36524 ltac:(lia)) as E100.
  pose proof (Z.mod_pos_bound r400 36524 ltac:(lia)) as B100.
  set (n100 := r400 / 36524) in *. set (r100 := r400 mod 36524) in *.
  pose proof (Z.div_mod r100 1461 ltac:(lia)) as E4.
  pose proof (Z.mod_pos_bound r100 1461 ltac:(lia)) as B4.
  set (n4 := r100 / 1461) in *. set (r4 := r100 mod 1461) in *.
  pose proof (Z.div_mod r4 365 ltac:(lia)) as E1.
  pose proof (Z.mod_pos_bound r4 365 ltac:(lia)) as B1.
  set (n1 := r4 / 365) in *. set (r1 := r4 mod 365) in *.
  clearbody n400 r400 n100 r100 n4 r4 n1 r1.
  assert (0 <= n400 <= 24) by lia.
  assert (0 <= n100 <= 4) by lia.
  assert (0 <= n4 <= 24) by lia.
  assert (0 <= n1 <= 4) by lia.
  destruct (Z.eqb_spec n1 4) as [Hn1 | Hn1];
    [ | destruct (Z.eqb_spec n100 4) as [Hn100 | Hn100] ]; simpl orb; cbv iota.
  - (* the last day of a four-year cycle *)
    split.
    + apply valid_date_intro; [lia | lia | ].
      unfold days_in_month. eval_tables. simpl. lia.
    + rewrite ymd2ord_december_31. unfold days_before_year.
      Z.div_mod_to_equations. lia.
  - (* the last day of a 400-year cycle *)
    split.
    + apply valid_date_intro; [lia | lia | ].
      unfold days_in_month. eval_tables. simpl. lia.
    + rewrite ymd2ord_december_31. unfold days_before_year.
      Z.div_mod_to_equations. lia.
  - set (yr := n400 * 400 + 1 + n100 * 100 + n4 * 4 + n1).
    set (leapyear := (n1 =? 3) && (negb (n4 =? 24) || (n100 =? 3))).
    assert (Hleap : is_leap yr = leapyear).
    { subst yr leapyear.
      destruct (is_leap_cases (n400 * 400 + 1 + n100 * 100 + n4 * 4 + n1))
        as [[-> HL] | [-> HL]];
        destruct (Z.eqb_spec n1 3), (Z.eqb_spec n4 24), (Z.eqb_spec n100 3);
        simpl; try reflexivity; exfalso;
        Z.div_mod_to_equations; lia. }
    assert (Hdby : days_before_year yr = n - 1 - r1).
    { subst yr. unfold days_before_year. Z.div_mod_to_equations. lia. }
    pose proof (month_day_spec r1 leapyear ltac:(lia)) as Hmd.
    unfold month_day_ok in Hmd.
    destruct (month_day r1 leapyear) as [mo dd].
    rewrite !andb_true_iff, !Z.leb_le, Z.eqb_eq in Hmd.
    destruct Hmd as ((((Hm1 & Hm2) & Hd1) & Hd2) & Hsum).
    split.
    + apply valid_date_intro; [subst yr; lia | lia | ].
      unfold days_in_month. rewrite Hleap. lia.
    + unfold ymd2ord, days_before_month. rewrite Hleap, Hdby. lia.
Qed.

Lemma toordinal_fromordinal n :
  1 <= n <= MAXORDINAL -> toordinal (fromordinal n) = n.
Proof.
  intros Hn. pose proof (ord2ymd_spec n Hn) as H.
  unfold fromordinal, toordinal. destruct (ord2ymd n) as [[y m] d].
  simpl. tauto.
Qed.

Lemma valid_fromordinal n :
  1 <= n <= MAXORDINAL -> valid_date (fromordinal n) = true.
Proof.
  intros Hn. pose proof (ord2ymd_spec n Hn) as H.
  unfold fromordinal. destruct (ord2ymd n) as [[y m] d]. tauto.
Qed.

End CalendarFacts.
Import CalendarFacts.

(** ** The window planner *)

Module WindowFacts.

#[local] Opaque toordinal.

Lemma shift_date d k :
  valid_date d = true -> Z.abs k <= 999999999 ->
  1 <= toordinal d + k <= MAXORDINAL ->
  (t ← timedelta_days k; date_add d t) = Ret (fromordinal (toordinal d + k)).
Proof.
  intros Hv Hk Ho. unfold timedelta_days.
  destruct (Z.leb_spec (Z.abs k) 999999999); [ | lia]. simpl.
  unfold date_add. simpl.
  destruct (Z.ltb_spec 0 (toordinal d + k)); [ | lia].
  destruct (Z.leb_spec (toordinal d + k) MAXORDINAL); [ | lia].
  reflexivity.
Qed.

Lemma shift_date_overflow d k :
  MAXORDINAL < toordinal d + k ->
  (t ← timedelta_days k; date_add d t) = Raise OverflowError.
Proof.
  intros Ho. unfold timedelta_days.
  destruct (Z.leb_spec (Z.abs k) 999999999); [ | reflexivity]. simpl.
  unfold date_add. simpl.
  destruct (Z.leb_spec (toordinal d + k) MAXORDINAL); [lia | ].
  now rewrite andb_false_r.
Qed.

(** Date arithmetic raises nothing but [OverflowError]. *)
Lemma shift_date_raises d k e :
  (t ← timedelta_days k; date_add d t) = Raise e -> e = OverflowError.
Proof.
  unfold timedelta_days. destruct (Z.abs k <=? 999999999); simpl.
  - unfold date_add. destruct (_ && _); congruence.
  - congruence.
Qed.

Lemma date_min_spec a b :
  valid_date a = true -> valid_date b = true ->
  date_min a b = if toordinal b <? toordinal a then b else a.
Proof.
  intros Ha Hb. unfold date_min.
  pose proof (date_lt_toordinal b a Hb Ha) as H.
  destruct (date_lt b a), (Z.ltb_spec (toordinal b) (toordinal a));
    try reflexivity.
  - assert (toordinal b < toordinal a) by now apply H. lia.
  - apply H in H0. discriminate.
Qed.

Lemma period_windows_from_S fuel cursor end_d days :
  period_windows_from (S fuel) cursor end_d days =
  if date_le cursor end_d then
    match (t ← timedelta_days (days - 1); date_add cursor t) with
    | Raise e => ([], Raises e)
    | Ret stop =>
      let period_end := date_min end_d stop in
      match (t ← timedelta_days 1; date_add period_end t) with
      | Raise e => ([(cursor, period_end)], Raises e)
      | Ret cursor' =>
        let '(rest, ending) := period_windows_from fuel cursor' end_d days in
        ((cursor, period_end) :: rest, ending)
      end
    end
  else ([], Returns tt).
Proof. reflexivity. Qed.

Lemma period_windows_from_beyond fuel cursor end_d days :
  date_le cursor end_d = false ->
  period_windows_from (S fuel) cursor end_d days = ([], Returns tt).
Proof. intros H. rewrite period_windows_from_S, H. reflexivity. Qed.

Lemma period_windows_from_raises fuel : forall cursor end_d days ws e,
  period_windows_from fuel cursor end_d days = (ws, Raises e) ->
  e = OverflowError.
Proof.
  induction fuel as [ | fuel IH]; intros cursor end_d days ws e; [done | ].
  rewrite period_windows_from_S.
  destruct (date_le cursor end_d); [ | done].
  destruct (t ← timedelta_days (days - 1); date_add cursor t)
    as [stop | e1] eqn:E1.
  - cbv zeta.
    destruct (t ← timedelta_days 1; date_add (date_min end_d stop) t)
      as [cursor' | e2] eqn:E2.
    + destruct (period_windows_from fuel cursor' end_d days) as [rest ending]
        eqn:Erest.
      intros H. inversion H; subst. by eapply IH.
    + intros H. inversion H; subst. by eapply shift_date_raises.
  - intros H. inversion H; subst. by eapply shift_date_raises.
Qed.

(** The loop, from a cursor that is valid and at most one day after
    [end_d], as long as every window start it will visit leaves room for
    [days - 1] more days. *)
Lemma period_windows_from_tiles days end_d :
  valid_date end_d = true -> 1 <= days ->
  toordinal end_d + 1 <= MAXORDINAL ->
  forall (m : nat) (cursor : date),
    valid_date cursor = true ->
    toordinal cursor <= toordinal end_d + 1 ->
    (forall i, 0 <= i -> toordinal cursor + i * days <= toordinal end_d ->
               toordinal cursor + i * days + (days - 1) <= MAXORDINAL) ->
    (Z.to_nat (toordinal end_d + 1 - toordinal cursor) <= m)%nat ->
    exists ws, tiles days cursor end_d ws
      /\ forall fuel,
           (Z.to_nat (toordinal end_d + 1 - toordinal cursor) < fuel)%nat ->
           period_windows_from fuel cursor end_d days = (ws, Returns tt).
Proof.
  intros Hend Hdays Hmax. pose proof (toordinal_range end_d Hend) as Rend.
  assert (HM : MAXORDINAL = 3652059) by reflexivity.
  induction m as [ | m IH]; intros cursor Hcur Hle Hvisit Hm;
    pose proof (toordinal_range cursor Hcur) as Rcur.
  - exists []. split; [simpl; lia | ].
    intros [ | fuel] Hf; [lia | ]. apply period_windows_from_beyond.
    destruct (date_le cursor end_d) eqn:E; [ | reflexivity].
    apply date_le_toordinal in E; [lia | done | done].
  - destruct (Z.le_gt_cases (toordinal cursor) (toordinal end_d)) as [Hin | Hout].
    2:{ exists []. split; [simpl; lia | ].
        intros [ | fuel] Hf; [lia | ]. apply period_windows_from_beyond.
        destruct (date_le cursor end_d) eqn:E; [ | reflexivity].
        apply date_le_toordinal in E; [lia | done | done]. }
    pose proof (Hvisit 0 ltac:(lia) ltac:(lia)) as Hroom.
    set (stop := fromordinal (toordinal cursor + (days - 1))).
    assert (Hstop : valid_date stop = true) by (apply valid_fromordinal; lia).
    assert (Ostop : toordinal stop = toordinal cursor + (days - 1))
      by (apply toordinal_fromordinal; lia).
    set (period_end := date_min end_d stop).
    assert (Epe : period_end = if toordinal stop <? toordinal end_d
                               then stop else end_d)
      by (apply date_min_spec; done).
    assert (Hpe : valid_date period_end = true)
      by (rewrite Epe; destruct (_ <? _); done).
    assert (Ope : toordinal period_end
                  = Z.min (toordinal end_d) (toordinal stop)).
    { rewrite Epe. destruct (Z.ltb_spec (toordinal stop) (toordinal end_d)); lia. }
    set (cursor' := fromordinal (toordinal period_end + 1)).
    assert (Hcur' : valid_date cursor' = true) by (apply valid_fromordinal; lia).
    assert (Ocur' : toordinal cursor' = toordinal period_end + 1)
      by (apply toordinal_fromordinal; lia).
    assert (Hle' : toordinal cursor' <= toordinal end_d + 1) by lia.
    assert (Hm' : (Z.to_nat (toordinal end_d + 1 - toordinal cursor') <= m)%nat)
      by lia.
    assert (Hvisit' : forall i, 0 <= i ->
              toordinal cursor' + i * days <= toordinal end_d ->
              toordinal cursor' + i * days + (days - 1) <= MAXORDINAL).
    { intros i Hi Hin'.
      assert (0 <= i * days) by (apply Z.mul_nonneg_nonneg; lia).
      destruct (Z.ltb_spec (toordinal stop) (toordinal end_d)) as [Hlt | Hge];
        [ | lia].
      pose proof (Hvisit (i + 1) ltac:(lia)) as Hnext.
      replace ((i + 1) * days) with (i * days + days) in Hnext by ring.
      lia. }
    destruct (IH cursor' Hcur' Hle' Hvisit' Hm') as (rest & Hrest & Hrun).
    exists ((cursor, period_end) :: rest). split.
    + simpl. repeat split; try done; try lia.
      * intros ->. simpl in Hrest. rewrite Epe.
        destruct (Z.ltb_spec (toordinal stop) (toordinal end_d)); [lia | done].
      * intros Hne. destruct rest as [ | [s e] rest]; [done | ].
        simpl in Hrest. destruct Hrest as (-> & _ & Hr & _). lia.
      * exists cursor'. done.
    + intros [ | fuel] Hf; [lia | ]. rewrite period_windows_from_S.
      assert (E : date_le cursor end_d = true)
        by (apply date_le_toordinal; done).
      rewrite E.
      rewrite (shift_date cursor (days - 1)) by (done || lia).
      fold stop. cbv zeta. fold period_end.
      rewrite (shift_date period_end 1) by (done || lia).
      fold cursor'. rewrite Hrun by lia. reflexivity.
Qed.

Lemma tiles_window days end_d ws : forall cursor i w,
  valid_date cursor = true -> tiles days cursor end_d ws ->
  ws !! i = Some w ->
  valid_date w.1 = true /\ valid_date w.2 = true
  /\ toordinal cursor <= toordinal w.1
  /\ toordinal w.1 <= toordinal w.2 <= toordinal end_d
  /\ window_length w <= days
  /\ ((S i < List.length ws)%nat -> window_length w = days).
Proof.
  induction ws as [ | [s e] rest IH]; intros cursor i w Hc Ht Hi; [done | ].
  simpl in Ht.
  destruct Ht as (-> & He & Hse & Hlen & Hlast & Hfull & c' & Hc' & Oc' & Ht).
  destruct i as [ | i]; simpl in Hi.
  - injection Hi as <-. unfold window_length. simpl.
    repeat split; try done; try lia.
    intros Hlt. apply Hfull. destruct rest; [simpl in Hlt; lia | done].
  - destruct (IH c' i w Hc' Ht Hi) as (H1 & H2 & H3 & H4 & H5 & H6).
    repeat split; try done; try lia.
    intros Hlt. apply H6. simpl in Hlt. lia.
Qed.

Lemma tiles_contiguous days end_d ws : forall cursor i w w',
  tiles days cursor end_d ws ->
  ws !! i = Some w -> ws !! S i = Some w' ->
  toordinal w'.1 = toordinal w.2 + 1.
Proof.
  induction ws as [ | [s e] rest IH]; intros cursor i w w' Ht Hi Hi'; [done | ].
  simpl in Ht. destruct Ht as (-> & _ & _ & _ & _ & _ & c' & _ & Oc' & Ht).
  destruct i as [ | i]; simpl in Hi, Hi'.
  - injection Hi as <-. destruct rest as [ | [s' e'] rest]; [done | ].
    simpl in Hi'. injection Hi' as <-. simpl in Ht.
    destruct Ht as (-> & _). done.
  - eapply IH; eauto.
Qed.

Lemma tiles_disjoint days end_d ws : forall cursor i j w w',
  valid_date cursor = true -> tiles days cursor end_d ws ->
  ws !! i = Some w -> ws !! j = Some w' -> (i < j)%nat ->
  toordinal w.2 < toordinal w'.1.
Proof.
  induction ws as [ | [s e] rest IH]; intros cursor i j w w' Hc Ht Hi Hj Hij;
    [done | ].
  simpl in Ht. destruct Ht as (-> & _ & _ & _ & _ & _ & c' & Hc' & Oc' & Ht).
  destruct j as [ | j]; [lia | ]. simpl in Hj.
  destruct i as [ | i]; simpl in Hi.
  - injection Hi as <-. simpl.
    pose proof (tiles_window _ _ _ _ _ _ Hc' Ht Hj) as (_ & _ & H & _). lia.
  - eapply (IH c' i j); eauto. lia.
Qed.

Lemma tiles_covers days end_d ws : forall cursor o,
  tiles days cursor end_d ws ->
  toordinal cursor <= o <= toordinal end_d ->
  exists i w, ws !! i = Some w /\ contains_day w o.
Proof.
  induction ws as [ | [s e] rest IH]; intros cursor o Ht Ho; simpl in Ht;
    [lia | ].
  destruct Ht as (-> & _ & Hse & _ & _ & _ & c' & _ & Oc' & Ht).
  destruct (Z.le_gt_cases o (toordinal e)) as [Hin | Hout].
  - exists 0%nat, (cursor, e). split; [done | ]. unfold contains_day. simpl. lia.
  - destruct (IH c' o Ht ltac:(lia)) as (i & w & Hi & Hw).
    exists (S i), w. done.
Qed.

Lemma tiles_last days end_d ws : forall cursor,
  tiles days cursor end_d ws -> ws <> [] ->
  exists s, last ws = Some (s, end_d).
Proof.
  induction ws as [ | [s e] rest IH]; intros cursor Ht Hne; [done | ].
  simpl in Ht. destruct Ht as (-> & _ & _ & _ & Hlast & _ & c' & _ & _ & Ht).
  destruct rest as [ | w rest].
  - exists cursor. rewrite (Hlast eq_refl). done.
  - destruct (IH c' Ht ltac:(done)) as (s' & Hs'). exists s'.
    rewrite <- Hs'. done.
Qed.

Lemma tiles_partition days start_d end_d ws :
  valid_date start_d = true -> toordinal start_d <= toordinal end_d ->
  tiles days start_d end_d ws -> partition_of days start_d end_d ws.
Proof.
  intros Hs Hle Ht.
  assert (Hne : ws <> []) by (intros ->; simpl in Ht; lia).
  split.
  - destruct ws as [ | [s e] rest]; [done | ]. simpl in Ht.
    destruct Ht as (-> & _). exists e. done.
  - eapply tiles_last; eauto.
  - intros i w Hi.
    destruct (tiles_window _ _ _ _ _ _ Hs Ht Hi) as (H1 & H2 & H3 & H4 & H5 & _).
    unfold window_length in *. repeat split; try done; lia.
  - intros i w Hi Hlt.
    destruct (tiles_window _ _ _ _ _ _ Hs Ht Hi) as (_ & _ & _ & _ & _ & H).
    auto.
  - intros. eapply tiles_contiguous; eauto.
  - intros. eapply tiles_disjoint; eauto.
  - intros. eapply tiles_covers; eauto.
  - intros i w o Hi Ho.
    destruct (tiles_window _ _ _ _ _ _ Hs Ht Hi) as (_ & _ & H3 & H4 & _).
    unfold contains_day in Ho. lia.
Qed.

(** A day of the range lies in one window only. *)
Lemma partition_unique days start_d end_d ws i j w w' o :
  partition_of days start_d end_d ws ->
  ws !! i = Some w -> ws !! j = Some w' ->
  contains_day w o -> contains_day w' o -> i = j.
Proof.
  intros P Hi Hj Ho Ho'. unfold contains_day in *.
  destruct (Nat.lt_trichotomy i j) as [Hlt | [-> | Hgt]]; [ | done | ].
  - pose proof (part_disjoint _ _ _ _ P i j w w' Hi Hj Hlt). lia.
  - pose proof (part_disjoint _ _ _ _ P j i w' w Hj Hi Hgt). lia.
Qed.

(** Every window start that the loop visits is at most [last_start]. *)
Lemma in_date_range_visits start_d end_d days i :
  1 <= days -> toordinal start_d <= toordinal end_d ->
  in_date_range start_d end_d days ->
  0 <= i -> toordinal start_d + i * days <= toordinal end_d ->
  toordinal start_d + i * days + (days - 1) <= MAXORDINAL.
Proof.
  intros Hdays Hle [Hlast _] Hi Hin. unfold last_start in Hlast.
  assert (Hq : i <= (toordinal end_d - toordinal start_d) / days).
  { apply Z.div_le_lower_bound; [lia | ]. rewrite Z.mul_comm. lia. }
  assert (i * days
          <= days * ((toordinal end_d - toordinal start_d) / days)).
  { rewrite (Z.mul_comm i). apply Z.mul_le_mono_nonneg_l; lia. }
  lia.
Qed.

Lemma period_windows_tiles start_d end_d days :
  valid_date start_d = true -> valid_date end_d = true ->
  date_le start_d end_d = true -> 1 <= days ->
  in_date_range start_d end_d days ->
  exists ws,
    partition_of days start_d end_d ws
    /\ forall fuel,
         (Z.to_nat (toordinal end_d - toordinal start_d) + 1 < fuel)%nat ->
         period_windows fuel start_d end_d days = (ws, Returns tt).
Proof.
  intros Hs He Hle Hdays Hrange.
  apply date_le_toordinal in Hle; [ | done | done].
  assert (Hle' : toordinal start_d <= toordinal end_d + 1) by lia.
  assert (Hm : (Z.to_nat (toordinal end_d + 1 - toordinal start_d)
                <= Z.to_nat (toordinal end_d + 1 - toordinal start_d))%nat)
    by lia.
  destruct (period_windows_from_tiles days end_d He Hdays (proj2 Hrange)
              _ start_d Hs Hle'
              (fun i => in_date_range_visits start_d end_d days i
                          Hdays Hle Hrange) Hm)
    as (ws & Ht & Hrun).
  exists ws. split; [now apply tiles_partition | ].
  intros fuel Hf. apply Hrun. lia.
Qed.

End WindowFacts.
Import WindowFacts.

(** C1 (as amended): for valid dates with [start_d <= end_d], a segment
    of [days >= 1] days, and date arithmetic that stays within
    [datetime.date]'s range (the start of the last window plus
    [days - 1] days, and [end_d] plus one day, are not after 9999-12-31),
    [period_windows] ends normally, and the windows it yields are
    contiguous, do not overlap, cover exactly the days from [start_d] to
    [end_d], and have [days] days each, the last one possibly fewer. *)
Theorem period_windows_partition start_d end_d days :
  valid_date start_d = true -> valid_date end_d = true ->
  date_le start_d end_d = true -> 1 <= days ->
  in_date_range start_d end_d days ->
  exists ws,
    partition_of days start_d end_d ws
    /\ forall fuel,
         (Z.to_nat (toordinal end_d - toordinal start_d) + 1 < fuel)%nat ->
         period_windows fuel start_d end_d days = (ws, Returns tt).
Proof. apply period_windows_tiles. Qed.

Lemma period_windows_partition_witness :
  exists ws,
    partition_of SEGMENT_DAYS (mkdate 2020 1 1) (mkdate 2025 12 31) ws
    /\ forall fuel,
         (Z.to_nat (toordinal (mkdate 2025 12 31)
                    - toordinal (mkdate 2020 1 1)) + 1 < fuel)%nat ->
         period_windows fuel (mkdate 2020 1 1) (mkdate 2025 12 31) SEGMENT_DAYS
         = (ws, Returns tt).
Proof.
  apply (period_windows_partition (mkdate 2020 1 1) (mkdate 2025 12 31)
           SEGMENT_DAYS).
  - reflexivity.
  - reflexivity.
  - reflexivity.
  - unfold SEGMENT_DAYS. lia.
  - split; vm_compute; discriminate.
Defined.

(** C1 as stated fails where date arithmetic overflows: a segment longer
    than the days left before 9999-12-31 raises [OverflowError] before
    any window is yielded. *)
Lemma period_windows_overflow :
  valid_date (mkdate 2020 1 1) = true /\ valid_date (mkdate 2020 1 3) = true
  /\ date_le (mkdate 2020 1 1) (mkdate 2020 1 3) = true /\ 1 <= 4000000
  /\ period_windows 1 (mkdate 2020 1 1) (mkdate 2020 1 3) 4000000
     = ([], Raises OverflowError)
  /\ ~ (exists fuel ws,
          period_windows fuel (mkdate 2020 1 1) (mkdate 2020 1 3) 4000000
          = (ws, Returns tt)).
Proof.
  repeat split; try reflexivity; try lia.
  intros ([ | fuel] & ws & H); [discriminate H | ].
  unfold period_windows in H. rewrite period_windows_from_S in H.
  vm_compute in H. discriminate H.
Qed.

(** The scenario of the specification: a range of three days with
    segments of ten days is one window. *)
Example period_windows_three_days :
  period_windows 2 (mkdate 2020 1 1) (mkdate 2020 1 3) 10
  = ([(mkdate 2020 1 1, mkdate 2020 1 3)], Returns tt).
Proof. reflexivity. Qed.

Example period_windows_five_weeks :
  period_windows 5 (mkdate 2020 1 1) (mkdate 2020 2 3) SEGMENT_DAYS
  = ([ (mkdate 2020 1 1, mkdate 2020 1 10);
       (mkdate 2020 1 11, mkdate 2020 1 20);
       (mkdate 2020 1 21, mkdate 2020 1 30);
       (mkdate 2020 1 31, mkdate 2020 2 3) ], Returns tt).
Proof. reflexivity. Qed.

(** On the last day of the calendar the generator yields its window and
    then fails, when it is resumed. *)
Example period_windows_last_day :
  period_windows 2 (mkdate 9999 12 31) (mkdate 9999 12 31) 1
  = ([(mkdate 9999 12 31, mkdate 9999 12 31)], Raises OverflowError).
Proof. reflexivity. Qed.

(** C2 (as amended): [period_windows] validates nothing.  When
    [start_d > end_d] it yields no window and ends normally, whatever
    [days] is; and the only exception it can raise is the
    [OverflowError] of date arithmetic. *)
Theorem period_windows_no_validation :
  (forall fuel start_d end_d days,
     date_lt end_d start_d = true ->
     period_windows (S fuel) start_d end_d days = ([], Returns tt))
  /\ (forall fuel start_d end_d days ws e,
        period_windows fuel start_d end_d days = (ws, Raises e) ->
        e = OverflowError).
Proof.
  split.
  - intros fuel start_d end_d days Hlt.
    apply period_windows_from_beyond. unfold date_le. by rewrite Hlt.
  - intros fuel start_d end_d days ws e. apply period_windows_from_raises.
Qed.

Lemma period_windows_no_validation_witness :
  period_windows 1 (mkdate 2020 1 2) (mkdate 2020 1 1) 0 = ([], Returns tt).
Proof.
  apply (proj1 period_windows_no_validation 0%nat
           (mkdate 2020 1 2) (mkdate 2020 1 1) 0).
  reflexivity.
Defined.

(** C2 as stated fails: an inverted range is not an error. *)
Lemma period_windows_inverted_range :
  date_lt (mkdate 2020 1 1) (mkdate 2020 1 2) = true
  /\ period_windows 1 (mkdate 2020 1 2) (mkdate 2020 1 1) SEGMENT_DAYS
     = ([], Returns tt).
Proof. split; reflexivity. Qed.

(** With [days = 0] the cursor does not move: three rounds yield the
    same empty window three times and are not the end. *)
Example period_windows_zero_days :
  period_windows 3 (mkdate 2020 1 2) (mkdate 2020 1 3) 0
  = ([ (mkdate 2020 1 2, mkdate 2020 1 1);
       (mkdate 2020 1 2, mkdate 2020 1 1);
       (mkdate 2020 1 2, mkdate 2020 1 1) ], OutOfFuel).
Proof. reflexivity. Qed.

(** ** Strings and the calendar conversion *)

Module PyStrFacts.
Import PyStr.

Lemma digit_val_digit c : is_digit c = true -> digit_val c = Some (code c - 48).
Proof. unfold is_digit, digit_val. now intros ->. Qed.

Lemma code_digit_char d : 0 <= d <= 9 -> code (digit_char d) = 48 + d.
Proof.
  intros H. unfold code, digit_char. rewrite nat_ascii_embedding; lia.
Qed.

Lemma is_digit_digit_char d : 0 <= d <= 9 -> is_digit (digit_char d) = true.
Proof.
  intros H. unfold is_digit. rewrite code_digit_char by done.
  apply andb_true_iff. split; apply Z.leb_le; lia.
Qed.

Lemma all_chars_app p s t :
  all_chars p (s ++ t) = all_chars p s && all_chars p t.
Proof.
  induction s as [ | c s IH]; simpl; [done | ].
  rewrite IH. apply andb_assoc.
Qed.

Lemma int_digits_digits s : forall acc,
  all_chars is_digit s = true ->
  int_digits acc false s = Some (digits_value acc s).
Proof.
  induction s as [ | c s IH]; intros acc H; simpl in *; [done | ].
  apply andb_true_iff in H as [Hc Hs].
  rewrite (digit_val_digit c Hc). now apply IH.
Qed.

Lemma digits_value_app s t : forall acc,
  digits_value acc (s ++ t) = digits_value (digits_value acc s) t.
Proof. induction s as [ | c s IH]; intros acc; simpl; [done | apply IH]. Qed.

Lemma digits_value_zeros k : digits_value 0 (zeros k) = 0.
Proof. induction k as [ | k IH]; simpl; [done | apply IH]. Qed.

Lemma all_digits_zeros k : all_chars is_digit (zeros k) = true.
Proof. induction k as [ | k IH]; simpl; [done | apply IH]. Qed.

Lemma decimal_from_digits fuel : forall n acc,
  0 <= n -> all_chars is_digit acc = true ->
  all_chars is_digit (decimal_from fuel n acc) = true.
Proof.
  induction fuel as [ | fuel IH]; intros n acc Hn Hacc; simpl; [done | ].
  destruct (Z.ltb_spec n 10).
  - simpl. rewrite is_digit_digit_char by lia. done.
  - apply IH; [apply Z.div_pos; lia | ]. simpl.
    rewrite is_digit_digit_char; [done | ].
    pose proof (Z.mod_pos_bound n 10). lia.
Qed.

Lemma decimal_from_value fuel : forall n acc,
  0 <= n < 2 ^ Z.of_nat fuel ->
  digits_value 0 (decimal_from fuel n acc) = digits_value n acc.
Proof.
  induction fuel as [ | fuel IH]; intros n acc Hn.
  - simpl in *. replace n with 0 by lia. done.
  - cbn [decimal_from]. destruct (Z.ltb_spec n 10).
    + simpl. rewrite code_digit_char by lia. f_equal. lia.
    + rewrite IH.
      * simpl. pose proof (Z.mod_pos_bound n 10 ltac:(lia)).
        rewrite code_digit_char by lia. f_equal.
        pose proof (Z.div_mod n 10 ltac:(lia)). lia.
      * rewrite Nat2Z.inj_succ, Z.pow_succ_r in Hn by lia.
        split; [apply Z.div_pos; lia | ].
        apply Z.div_lt_upper_bound; lia.
Qed.

Lemma decimal_fuel n : 0 <= n -> n < 2 ^ Z.of_nat (S (Z.to_nat (Z.log2 n))).
Proof.
  intros Hn. rewrite Nat2Z.inj_succ, Z2Nat.id by apply Z.log2_nonneg.
  destruct (Z.eq_dec n 0) as [-> | Hne]; [done | ].
  apply Z.log2_spec. lia.
Qed.

Lemma decimal_value n : 0 <= n -> digits_value 0 (decimal n) = n.
Proof.
  intros Hn. unfold decimal. rewrite decimal_from_value; [done | ].
  split; [done | now apply decimal_fuel].
Qed.

Lemma decimal_digits n : 0 <= n -> all_chars is_digit (decimal n) = true.
Proof. intros Hn. unfold decimal. now apply decimal_from_digits. Qed.

Lemma decimal_from_nonempty fuel : forall n acc,
  acc <> "" -> decimal_from fuel n acc <> "".
Proof.
  induction fuel as [ | fuel IH]; intros n acc Hacc; simpl; [done | ].
  destruct (n <? 10); [done | now apply IH].
Qed.

Lemma decimal_nonempty n : decimal n <> "".
Proof.
  unfold decimal. cbn [decimal_from].
  destruct (n <? 10); [done | now apply decimal_from_nonempty].
Qed.

Lemma zfill_digits w n :
  0 <= n -> all_chars is_digit (zfill w (decimal n)) = true.
Proof.
  intros Hn. unfold zfill.
  now rewrite all_chars_app, all_digits_zeros, decimal_digits.
Qed.

Lemma zfill_value w n : 0 <= n -> digits_value 0 (zfill w (decimal n)) = n.
Proof.
  intros Hn. unfold zfill.
  now rewrite digits_value_app, digits_value_zeros, decimal_value.
Qed.

Lemma zfill_nonempty w n : zfill w (decimal n) <> "".
Proof.
  unfold zfill. pose proof (decimal_nonempty n).
  destruct (zeros _); [done | done].
Qed.

Lemma format_0d_nonneg w n : 0 <= n -> format_0d w n = zfill w (decimal n).
Proof. intros Hn. unfold format_0d. destruct (Z.ltb_spec n 0); [lia | done]. Qed.

Lemma is_digit_not_space c : is_digit c = true -> is_space c = false.
Proof.
  unfold is_digit, is_space. rewrite andb_true_iff, !Z.leb_le. intros [H1 H2].
  apply orb_false_iff. split; [apply Z.eqb_neq; lia | ].
  apply andb_false_iff. right. apply Z.leb_gt. lia.
Qed.

Lemma all_chars_impl (p q : ascii -> bool) s :
  (forall c, p c = true -> q c = true) ->
  all_chars p s = true -> all_chars q s = true.
Proof.
  intros Hpq. induction s as [ | c s IH]; simpl; [done | ].
  intros H. apply andb_true_iff in H as [Hc Hs].
  rewrite (Hpq c Hc). now apply IH.
Qed.

(** An ASCII text is read as it is. *)
Lemma head_char_ascii c s :
  is_ascii c = true -> head_char (String c s) = (code c, 1%nat).
Proof. unfold is_ascii, head_char. by intros ->. Qed.

Lemma to_ascii_code c : is_ascii c = true -> to_ascii (code c) = c.
Proof.
  unfold is_ascii, to_ascii. intros H.
  assert ((0 <=? code c) = true) as -> by (apply Z.leb_le; unfold code; lia).
  rewrite H. simpl. unfold code. by rewrite Nat2Z.id, ascii_nat_embedding.
Qed.

Lemma ascii_text_ascii s : all_chars is_ascii s = true -> ascii_text s = s.
Proof.
  unfold ascii_text, decode. induction s as [ | c s IH]; [done | ].
  simpl all_chars. intros H. apply andb_true_iff in H as [Hc Hs].
  cbn [decode_from]. rewrite (head_char_ascii c s Hc).
  cbn [snd fst map string_of_list_ascii Nat.sub].
  by rewrite (to_ascii_code c Hc), (IH Hs).
Qed.

Lemma int_ascii_only s : all_chars is_ascii s = true -> int s = int_ascii s.
Proof. intros H. unfold int. by rewrite ascii_text_ascii. Qed.

Lemma is_digit_ascii c : is_digit c = true -> is_ascii c = true.
Proof.
  unfold is_digit, is_ascii. rewrite andb_true_iff, !Z.leb_le, Z.ltb_lt. lia.
Qed.

Lemma digits_ascii s : all_chars is_digit s = true -> all_chars is_ascii s = true.
Proof. apply all_chars_impl, is_digit_ascii. Qed.

(** [int()] reads back a run of digits. *)
Lemma int_of_digits s :
  s <> "" -> all_chars is_digit s = true -> int s = Ret (digits_value 0 s).
Proof.
  intros Hne Hs. rewrite int_ascii_only by (by apply digits_ascii).
  destruct s as [ | c s]; [done | ]. simpl in Hs.
  apply andb_true_iff in Hs as [Hc Hs].
  unfold int_ascii. cbn [lstrip]. rewrite (is_digit_not_space c Hc).
  assert (Hu : int_unsigned (String c s) = Some (digits_value 0 (String c s))).
  { cbn [int_unsigned]. rewrite (digit_val_digit c Hc).
    rewrite int_digits_digits by done. done. }
  destruct (Ascii.eqb_spec c "+"%char) as [-> | Hplus]; [done | ].
  destruct (Ascii.eqb_spec c "-"%char) as [-> | Hminus]; [done | ].
  assert (Hm : match String c s with
               | String "+"%char rest => int_unsigned rest
               | String "-"%char rest => Z.opp <$> int_unsigned rest
               | body => int_unsigned body
               end = int_unsigned (String c s)).
  { destruct c as [[] [] [] [] [] [] [] []]; try reflexivity;
      exfalso; (apply Hplus; reflexivity) || (apply Hminus; reflexivity). }
  rewrite Hm, Hu. done.
Qed.

Lemma int_format_0d w n : 0 <= n -> int (format_0d w n) = Ret n.
Proof.
  intros Hn. rewrite format_0d_nonneg by done.
  rewrite int_of_digits; [ | apply zfill_nonempty | now apply zfill_digits].
  now rewrite zfill_value.
Qed.

Lemma split_free sep s : free_of sep s = true -> split sep s = [s].
Proof.
  induction s as [ | c s IH]; simpl; [done | ].
  intros H. apply andb_true_iff in H as [Hc Hs].
  apply negb_true_iff in Hc. rewrite Hc, (IH Hs). done.
Qed.

Lemma split_app sep s t :
  free_of sep s = true ->
  split sep (s ++ String sep t) = s :: split sep t.
Proof.
  induction s as [ | c s IH]; simpl.
  - intros _. now rewrite Ascii.eqb_refl.
  - intros H. apply andb_true_iff in H as [Hc Hs].
    apply negb_true_iff in Hc. rewrite Hc, (IH Hs). done.
Qed.

Lemma digits_free_of_dot s :
  all_chars is_digit s = true -> free_of "."%char s = true.
Proof.
  apply all_chars_impl. intros c Hc.
  apply negb_true_iff. apply Ascii.eqb_neq. intros ->. done.
Qed.

End PyStrFacts.
Import PyStrFacts.

Module ConversionFacts.

Lemma format_0d_free w n : 0 <= n -> free_of "."%char (PyStr.format_0d w n) = true.
Proof.
  intros Hn. rewrite format_0d_nonneg by done.
  apply digits_free_of_dot. now apply zfill_digits.
Qed.

Lemma split_three a b c :
  free_of "."%char a = true -> free_of "."%char b = true ->
  free_of "."%char c = true ->
  PyStr.split "."%char (a ++ "." ++ b ++ "." ++ c) = [a; b; c].
Proof.
  intros Ha Hb Hc. change ("." ++ b ++ "." ++ c)%string
    with (String "."%char (b ++ String "."%char c)%string).
  rewrite split_app by done. rewrite split_app by done.
  now rewrite split_free.
Qed.

Lemma dotted_nonempty a b : String.eqb (a ++ "." ++ b) "" = false.
Proof. destruct a; reflexivity. Qed.

Lemma roc_to_western_dotted y m d :
  0 <= y -> 0 <= m -> 0 <= d ->
  roc_to_western (VStr (PyStr.format_0d 3 y ++ "." ++ PyStr.format_0d 2 m
                        ++ "." ++ PyStr.format_0d 2 d))
  = VStr (PyStr.format_0d 4 (y + 1911) ++ "." ++ PyStr.format_0d 2 m
          ++ "." ++ PyStr.format_0d 2 d).
Proof.
  intros Hy Hm Hd. unfold roc_to_western.
  cbn [truthy]. rewrite dotted_nonempty. cbn [negb].
  unfold roc_to_western_try. cbn [mbind result_bind].
  rewrite split_three by now apply format_0d_free.
  rewrite !int_format_0d by done. reflexivity.
Qed.

End ConversionFacts.
Import ConversionFacts.

(** C8: for every date of year 1912 or later, [to_roc] with the offset
    calendar followed by [roc_to_western] gives the date written
    [YYYY.MM.DD]. *)
Theorem roc_round_trip (d : date) :
  valid_date d = true -> 1912 <= year d ->
  roc_to_western (VStr (to_roc d true)) = VStr (western_text d).
Proof.
  intros Hv Hy. destruct (valid_date_fields d Hv) as (_ & Hm & Hd).
  unfold to_roc, western_text.
  rewrite roc_to_western_dotted by lia.
  replace (year d - 1911 + 1911) with (year d) by lia. reflexivity.
Qed.

Lemma roc_round_trip_witness :
  roc_to_western (VStr (to_roc (mkdate 2020 1 1) true))
  = VStr (western_text (mkdate 2020 1 1)).
Proof.
  apply (roc_round_trip (mkdate 2020 1 1)).
  - reflexivity.
  - simpl. lia.
Defined.

Example to_roc_2020 : to_roc (mkdate 2020 1 1) USE_ROC = "109.01.01".
Proof. reflexivity. Qed.

Example roc_to_western_109 :
  roc_to_western (VStr "109.01.01") = VStr "2020.01.01".
Proof. reflexivity. Qed.

Example roc_to_western_short_fields :
  roc_to_western (VStr "109.1.2") = VStr "2020.01.02".
Proof. reflexivity. Qed.

(** C9: a date string that has not three segments between dots, or has a
    segment that [int()] refuses, comes back unchanged. *)
Theorem roc_to_western_malformed (s : string) :
  List.length (PyStr.split "."%char s) <> 3%nat
  \/ (exists p, In p (PyStr.split "."%char s)
                /\ PyStr.int p = Raise ValueError) ->
  roc_to_western (VStr s) = VStr s.
Proof.
  intros H. unfold roc_to_western. cbn [truthy].
  destruct (String.eqb_spec s "") as [-> | Hne]; [reflexivity | ].
  cbn [negb]. unfold roc_to_western_try. cbn [mbind result_bind].
  destruct (PyStr.split "."%char s) as [ | p0 [ | p1 [ | p2 [ | p3 ps]]]];
    try reflexivity.
  destruct H as [H | (p & Hp & Hint)]; [done | ].
  destruct (PyStr.int p0) as [n0 | e0] eqn:E0; [ | reflexivity].
  destruct (PyStr.int p1) as [n1 | e1] eqn:E1; [ | reflexivity].
  destruct (PyStr.int p2) as [n2 | e2] eqn:E2; [ | reflexivity].
  simpl in Hp. destruct Hp as [<- | [<- | [<- | []]]]; congruence.
Qed.

Lemma roc_to_western_malformed_witness :
  roc_to_western (VStr "109/01/02") = VStr "109/01/02"
  /\ roc_to_western (VStr "109.xx.02") = VStr "109.xx.02".
Proof.
  split.
  - apply roc_to_western_malformed. left. vm_compute. lia.
  - apply roc_to_western_malformed. right. exists "xx".
    split; [vm_compute; tauto | reflexivity].
Defined.

(** C9 as stated fails: a segment that is not numeric does not keep the
    string from being converted.  [int()] reads a number through single
    underscores, surrounding spaces and the digits of other scripts. *)
Lemma roc_to_western_not_numeric :
  (PyStr.split "."%char "1_09.01.01" = ["1_09"; "01"; "01"]
   /\ PyStr.all_chars is_digit "1_09" = false
   /\ roc_to_western (VStr "1_09.01.01") = VStr "2020.01.01")
  /\ (PyStr.split "."%char " 109 .01.01" = [" 109 "; "01"; "01"]
      /\ PyStr.all_chars is_digit " 109 " = false
      /\ roc_to_western (VStr " 109 .01.01") = VStr "2020.01.01")
  /\ (PyStr.split "."%char "１０９.01.01" = ["１０９"; "01"; "01"]
      /\ PyStr.all_chars is_digit "１０９" = false
      /\ roc_to_western (VStr "１０９.01.01") = VStr "2020.01.01").
Proof. repeat split; reflexivity. Qed.

(** Values that are not strings: the falsy ones become the empty string,
    the others come back as they are. *)
Lemma roc_to_western_not_str v :
  (forall s, v <> VStr s) ->
  roc_to_western v = if truthy v then v else VStr "".
Proof.
  intros H. unfold roc_to_western.
  destruct (truthy v); [ | reflexivity]. simpl.
  destruct v; try reflexivity. by destruct (H s).
Qed.

(** ** The record normalizer *)

Module NormalizerFacts.

Lemma in_None_or_empty_spec v :
  in_None_or_empty v = false <-> v <> VNone /\ v <> VStr "".
Proof.
  destruct v as [ | b | n | f | s | l | m]; simpl;
    try (split; [intros _; split; discriminate | reflexivity]).
  - split; [discriminate | intros [H _]; by destruct H].
  - destruct (String.eqb_spec s "") as [-> | Hne]; split; try done.
    + intros [_ H]. by destruct H.
    + intros _. split; [done | congruence].
Qed.

Lemma pick_first_nonempty rec candidates :
  first_nonempty rec candidates (pick rec candidates).
Proof.
  induction candidates as [ | c cs IH]; simpl.
  - right. split; [done | ]. intros c Hc. by apply elem_of_nil in Hc.
  - assert (Hskip : absent_or_empty rec c ->
                    first_nonempty rec (c :: cs) (pick rec cs)).
    { intros Hc. destruct IH as [(i & c0 & Hi & Hv & Hbefore) | [Hv Hall]].
      - left. exists (S i), c0. split; [done | ]. split; [done | ].
        intros [ | j] c' Hj Hc'; simpl in Hc'.
        + injection Hc' as <-. done.
        + apply (Hbefore j); [lia | done].
      - right. split; [done | ]. intros c' Hc'.
        apply elem_of_cons in Hc' as [-> | Hc']; [done | by apply Hall]. }
    destruct (rec !! c) as [v | ] eqn:E.
    + destruct (in_None_or_empty v) eqn:B; simpl.
      * apply Hskip. intros v' (Hv' & Hn). rewrite E in Hv'.
        injection Hv' as <-. apply in_None_or_empty_spec in Hn. congruence.
      * left. exists 0%nat, c. split; [done | ]. split.
        -- split; [done | by apply in_None_or_empty_spec].
        -- intros j c' Hj. lia.
    + apply Hskip. intros v' (Hv' & _). congruence.
Qed.

Lemma first_nonempty_unique rec candidates v v' :
  first_nonempty rec candidates v -> first_nonempty rec candidates v' -> v = v'.
Proof.
  intros [(i & c & Hi & Hv & Hb) | [-> Hall]]
         [(i' & c' & Hi' & Hv' & Hb') | [-> Hall']]; try done.
  - destruct (Nat.lt_trichotomy i i') as [Hlt | [-> | Hgt]].
    + exfalso. by apply (Hb' i c Hlt Hi v).
    + rewrite Hi in Hi'. injection Hi' as <-.
      destruct Hv as [Hv _], Hv' as [Hv' _]. congruence.
    + exfalso. by apply (Hb i' c' Hgt Hi' v').
  - exfalso. eapply (Hall' c); [ | exact Hv].
    eapply list_elem_of_lookup_2; eauto.
  - exfalso. eapply (Hall c'); [ | exact Hv'].
    eapply list_elem_of_lookup_2; eauto.
Qed.

(** A value chosen by [pick] is never [None]; it is empty only as the
    default. *)
Lemma pick_blank rec candidates :
  in_None_or_empty (pick rec candidates) = true -> pick rec candidates = VStr "".
Proof.
  induction candidates as [ | c cs IH]; simpl; [done | ].
  destruct (rec !! c) as [v | ]; [ | done].
  destruct (in_None_or_empty v) eqn:B; simpl; [done | congruence].
Qed.

Lemma roc_to_western_blank v :
  in_None_or_empty (roc_to_western v) = true -> roc_to_western v = VStr "".
Proof.
  unfold roc_to_western. destruct (truthy v) eqn:T; simpl; [ | done].
  unfold roc_to_western_try.
  destruct v as [ | b | n | f | s | l | m]; simpl.
  - done.
  - done.
  - done.
  - done.
  - cbn [mbind result_bind]. simpl in T.
    destruct (PyStr.split "."%char s) as [ | p0 [ | p1 [ | p2 [ | p3 ps]]]];
      simpl; try (intros H; apply String.eqb_eq in H; by subst).
    destruct (PyStr.int p0); cbn [mbind result_bind];
      [ | simpl; intros H; apply String.eqb_eq in H; by subst].
    destruct (PyStr.int p1); cbn [mbind result_bind];
      [ | simpl; intros H; apply String.eqb_eq in H; by subst].
    destruct (PyStr.int p2); cbn [mbind result_bind];
      [ | simpl; intros H; apply String.eqb_eq in H; by subst].
    simpl. intros H; apply String.eqb_eq in H. by rewrite H.
  - done.
  - done.
Qed.

(** *** Dict displays *)

Lemma fold_insert_lookup_other (items : list (string * pyval)) :
  forall (m : record) k, k ∉ items.*1 ->
  fold_left (fun d kv => <[kv.1 := kv.2]> d) items m !! k = m !! k.
Proof.
  induction items as [ | [k0 v0] items IH]; intros m k Hk; simpl; [done | ].
  rewrite fmap_cons in Hk. apply not_elem_of_cons in Hk as [Hne Hk].
  rewrite IH by done. simpl in Hne. by rewrite lookup_insert_ne.
Qed.

Lemma fold_insert_lookup (items : list (string * pyval)) :
  forall (m : record) k v, NoDup items.*1 -> (k, v) ∈ items ->
  fold_left (fun d kv => <[kv.1 := kv.2]> d) items m !! k = Some v.
Proof.
  induction items as [ | [k0 v0] items IH]; intros m k v Hnd Hin; simpl.
  - by apply elem_of_nil in Hin.
  - rewrite fmap_cons in Hnd. apply NoDup_cons in Hnd as [Hk0 Hnd].
    apply elem_of_cons in Hin as [Heq | Hin].
    + injection Heq as -> ->. rewrite fold_insert_lookup_other by done.
      simpl. by rewrite lookup_insert_eq.
    + by apply IH.
Qed.

Lemma fold_insert_dom (items : list (string * pyval)) : forall (m : record),
  dom (fold_left (fun d kv => <[kv.1 := kv.2]> d) items m)
  = list_to_set items.*1 ∪ dom m.
Proof.
  induction items as [ | [k0 v0] items IH]; intros m; simpl.
  - set_solver.
  - rewrite IH, dom_insert_L. simpl. set_solver.
Qed.

Lemma dict_display_lookup items k v :
  NoDup items.*1 -> (k, v) ∈ items -> dict_display items !! k = Some v.
Proof. apply fold_insert_lookup. Qed.

Lemma dict_display_lookup_None items k :
  k ∉ items.*1 -> dict_display items !! k = None.
Proof. intros H. unfold dict_display. by rewrite fold_insert_lookup_other. Qed.

Lemma dict_display_dom items : dom (dict_display items) = list_to_set items.*1.
Proof. unfold dict_display. rewrite fold_insert_dom. set_solver. Qed.

(** *** The common normalizer *)

Lemma pick_all_blank (d : record) candidates :
  (forall c v, c ∈ candidates -> d !! c = Some v -> in_None_or_empty v = true) ->
  pick d candidates = VStr "".
Proof.
  induction candidates as [ | c cs IH]; intros H; simpl; [done | ].
  assert (Hcs : pick d cs = VStr "").
  { apply IH. intros c' v' Hc'. apply H. by right. }
  destruct (d !! c) as [v | ] eqn:E; [ | done].
  rewrite (H c v ltac:(left) E). done.
Qed.

Lemma pick_on_output (d : record) field v candidates :
  d !! field = Some v ->
  (in_None_or_empty v = true -> v = VStr "") ->
  field ∈ candidates ->
  (forall c, c ∈ candidates -> c = field \/ d !! c = None) ->
  pick d candidates = v.
Proof.
  intros Hv Hblank. destruct (in_None_or_empty v) eqn:B.
  - intros _ Hothers. rewrite (Hblank eq_refl). apply pick_all_blank.
    intros c v' Hc Hv'. destruct (Hothers c Hc) as [-> | Hnone]; congruence.
  - clear Hblank. induction candidates as [ | c cs IH]; intros Hin Hothers.
    + by apply elem_of_nil in Hin.
    + simpl. destruct (Hothers c ltac:(left)) as [-> | Hc].
      * by rewrite Hv, B.
      * rewrite Hc. apply elem_of_cons in Hin as [-> | Hin]; [congruence | ].
        apply IH; [done | ]. intros c' Hc'. apply Hothers. by right.
Qed.

Lemma map_pick_fields rec (l : list (string * list string)) :
  (map (fun fc => (fc.1, pick rec fc.2)) l).*1 = l.*1.
Proof.
  induction l as [ | fc l IH]; [done | ].
  cbn [map]. rewrite !fmap_cons. by rewrite IH.
Qed.

Lemma nodup_fst_functional {B} (l : list (string * B)) k y1 y2 :
  NoDup l.*1 -> (k, y1) ∈ l -> (k, y2) ∈ l -> y1 = y2.
Proof.
  intros Hnd H1 H2.
  pose proof (elem_of_list_to_map_1 (M := gmap string) l k y1 Hnd H1) as E1.
  pose proof (elem_of_list_to_map_1 (M := gmap string) l k y2 Hnd H2) as E2.
  congruence.
Qed.

Section Normalizer.

Variable sources : list (string * list string).
Variable date_field : string.
Hypothesis Hok : sources_ok sources = true.
Hypothesis Hdate : date_field ∈ sources.*1.

Lemma sources_nodup : NoDup sources.*1.
Proof.
  unfold sources_ok in Hok. apply andb_true_iff in Hok as [H _].
  by apply bool_decide_eq_true in H.
Qed.

Lemma sources_candidates field candidates :
  (field, candidates) ∈ sources ->
  field ∈ candidates
  /\ forall c, c ∈ candidates -> c = field \/ c ∉ sources.*1.
Proof.
  intros Hin. unfold sources_ok in Hok. apply andb_true_iff in Hok as [_ H].
  rewrite forallb_forall in H. apply list_elem_of_In in Hin.
  specialize (H _ Hin). simpl in H. apply andb_true_iff in H as [H1 H2].
  apply bool_decide_eq_true in H1. split; [done | ].
  intros c Hc. rewrite forallb_forall in H2. apply list_elem_of_In in Hc.
  specialize (H2 _ Hc). apply orb_true_iff in H2 as [H2 | H2];
    apply bool_decide_eq_true in H2; auto.
Qed.

Lemma picked_fields rec : (picked sources rec).*1 = sources.*1.
Proof. apply map_pick_fields. Qed.

Lemma picked_elem rec field candidates :
  (field, candidates) ∈ sources ->
  (field, pick rec candidates) ∈ picked sources rec.
Proof.
  intros Hin. unfold picked.
  apply (list_elem_of_fmap_2 (fun fc => (fc.1, pick rec fc.2))) in Hin.
  exact Hin.
Qed.

Lemma normalize_with_spec rec :
  exists d, normalize_with sources date_field rec = Ret d
    /\ dom d = list_to_set sources.*1
    /\ forall field candidates, (field, candidates) ∈ sources ->
         d !! field = Some (output_value date_field rec field candidates).
Proof.
  pose proof sources_nodup as Hnd. pose proof Hdate as Hdate'.
  apply list_elem_of_fmap in Hdate' as ([f0 dc] & Hf0 & Hdc). simpl in Hf0.
  subst f0. unfold normalize_with. cbv zeta.
  unfold getitem.
  rewrite (dict_display_lookup _ date_field (pick rec dc));
    [ | by rewrite picked_fields | by apply picked_elem].
  cbn [mbind result_bind]. eexists. split; [reflexivity | ]. split.
  - rewrite dom_insert_L, dict_display_dom, picked_fields.
    apply list_elem_of_fmap_2 with (f := fst) in Hdc. simpl in Hdc.
    apply (elem_of_list_to_set (C := gset string)) in Hdc.
    apply set_eq. intros x. rewrite elem_of_union, elem_of_singleton.
    split; [intros [-> | H]; done | by right].
  - intros field candidates Hin. unfold output_value. case_bool_decide.
    + subst field. rewrite lookup_insert_eq.
      assert (candidates = dc) as ->; [ | done].
      eapply nodup_fst_functional; eauto.
    + rewrite lookup_insert_ne by done.
      apply dict_display_lookup; [by rewrite picked_fields | ].
      by apply picked_elem.
Qed.

Lemma output_value_blank rec field candidates :
  in_None_or_empty (output_value date_field rec field candidates) = true ->
  output_value date_field rec field candidates = VStr "".
Proof.
  unfold output_value. case_bool_decide;
    [apply roc_to_western_blank | apply pick_blank].
Qed.

(** Probing a normalized record finds, under every field, the value it
    already holds. *)
Lemma pick_normalized rec d field candidates :
  normalize_with sources date_field rec = Ret d ->
  (field, candidates) ∈ sources ->
  pick d candidates = output_value date_field rec field candidates.
Proof.
  intros Hd Hin.
  destruct (normalize_with_spec rec) as (d' & Hd' & Hdom & Hlook).
  rewrite Hd in Hd'. injection Hd' as <-.
  destruct (sources_candidates _ _ Hin) as (Hself & Hothers).
  apply (pick_on_output d field).
  - by apply Hlook.
  - apply output_value_blank.
  - done.
  - intros c Hc. destruct (Hothers c Hc) as [-> | Hout]; [by left | right].
    apply not_elem_of_dom. rewrite Hdom. by rewrite elem_of_list_to_set.
Qed.

Lemma normalize_with_twice rec d1 :
  normalize_with sources date_field rec = Ret d1 ->
  exists d2, normalize_with sources date_field d1 = Ret d2
    /\ (forall field, field <> date_field -> d2 !! field = d1 !! field)
    /\ (exists v, d1 !! date_field = Some v
          /\ d2 !! date_field = Some (roc_to_western v)).
Proof.
  intros Hd1.
  destruct (normalize_with_spec rec) as (d & Hd & Hdom1 & Hlook1).
  rewrite Hd1 in Hd. injection Hd as <-.
  destruct (normalize_with_spec d1) as (d2 & Hd2 & Hdom2 & Hlook2).
  exists d2. split; [done | ]. split.
  - intros field Hne.
    destruct (decide (field ∈ sources.*1)) as [Hin | Hout].
    + apply list_elem_of_fmap in Hin as ([f c] & -> & Hin). simpl in *.
      rewrite (Hlook2 _ _ Hin), (Hlook1 _ _ Hin).
      unfold output_value at 1. rewrite bool_decide_eq_false_2 by done.
      f_equal. by eapply pick_normalized.
    + assert (d2 !! field = None) as ->
        by (apply not_elem_of_dom; by rewrite Hdom2, elem_of_list_to_set).
      symmetry. apply not_elem_of_dom. by rewrite Hdom1, elem_of_list_to_set.
  - pose proof Hdate as Hdate'.
    apply list_elem_of_fmap in Hdate' as ([f0 dc] & Hf0 & Hdc). simpl in Hf0.
    subst f0. exists (output_value date_field rec date_field dc).
    split; [by apply Hlook1 | ].
    rewrite (Hlook2 _ _ Hdc). unfold output_value at 1.
    rewrite bool_decide_eq_true_2 by done.
    f_equal. f_equal. by eapply pick_normalized.
Qed.

End Normalizer.

End NormalizerFacts.

Import NormalizerFacts.

Module FruitDayFacts.

Lemma normalize_record_with rec :
  normalize_record rec = normalize_with FIELD_SOURCES DATE_FIELD rec.
Proof. reflexivity. Qed.

Lemma field_sources_ok : sources_ok FIELD_SOURCES = true.
Proof. vm_compute. reflexivity. Qed.

Lemma date_field_source : DATE_FIELD ∈ FIELD_SOURCES.*1.
Proof. apply list_elem_of_In. vm_compute. tauto. Qed.

Lemma field_sources_fields : FIELD_SOURCES.*1 = OUTPUT_FIELDS.
Proof. reflexivity. Qed.

Lemma date_sources : (DATE_FIELD, ["TransDate"; "交易日期"]) ∈ FIELD_SOURCES.
Proof. apply list_elem_of_In. vm_compute. tauto. Qed.

Lemma normalize_record_spec rec :
  exists d, normalize_record rec = Ret d
    /\ dom d = list_to_set OUTPUT_FIELDS
    /\ forall field candidates, (field, candidates) ∈ FIELD_SOURCES ->
         d !! field = Some (output_value DATE_FIELD rec field candidates).
Proof.
  rewrite normalize_record_with, <- field_sources_fields.
  apply normalize_with_spec; [apply field_sources_ok | apply date_field_source].
Qed.

Lemma normalize_record_normalized rec :
  normalize_record rec = Ret (normalized rec).
Proof.
  unfold normalized.
  destruct (normalize_record_spec rec) as (d & -> & _). done.
Qed.


Lemma sample_record_date d :
  normalize_record sample_record = Ret d ->
  d !! DATE_FIELD = Some (VStr "2020.01.01").
Proof.
  intros Hd. destruct (normalize_record_spec sample_record)
    as (d' & Hd' & _ & Hlook).
  rewrite Hd in Hd'. injection Hd' as <-.
  rewrite (Hlook _ _ date_sources). reflexivity.
Qed.

End FruitDayFacts.
Import FruitDayFacts.

(** The normalizer of the sibling script has the same properties over its
    own table. *)
Module StevenCrawlerFacts.

Lemma steven_normalize_record_with rec :
  Steven_Crawler.normalize_record rec
  = normalize_with Steven_FIELD_SOURCES Steven_DATE_FIELD rec.
Proof. reflexivity. Qed.

Lemma steven_sources_ok : sources_ok Steven_FIELD_SOURCES = true.
Proof. vm_compute. reflexivity. Qed.

Lemma steven_date_field_source : Steven_DATE_FIELD ∈ Steven_FIELD_SOURCES.*1.
Proof. apply list_elem_of_In. vm_compute. tauto. Qed.

Lemma steven_normalize_record_total rec :
  exists d, Steven_Crawler.normalize_record rec = Ret d
    /\ dom d = list_to_set Steven_Crawler.OUTPUT_FIELDS
    /\ forall field candidates,
         (field, candidates) ∈ Steven_FIELD_SOURCES ->
         exists v, first_nonempty rec candidates v
           /\ d !! field
              = Some (if bool_decide (field = Steven_DATE_FIELD)
                      then roc_to_western v else v).
Proof.
  rewrite steven_normalize_record_with.
  destruct (normalize_with_spec _ _ steven_sources_ok
              steven_date_field_source rec) as (d & Hd & Hdom & Hlook).
  exists d. split; [done | ]. split; [done | ].
  intros field candidates Hin. exists (pick rec candidates).
  split; [apply pick_first_nonempty | ]. by rewrite (Hlook _ _ Hin).
Qed.

Lemma steven_normalize_record_again rec d1 :
  Steven_Crawler.normalize_record rec = Ret d1 ->
  exists d2, Steven_Crawler.normalize_record d1 = Ret d2
    /\ (forall field, field <> Steven_DATE_FIELD -> d2 !! field = d1 !! field)
    /\ (exists v, d1 !! Steven_DATE_FIELD = Some v
          /\ d2 !! Steven_DATE_FIELD = Some (roc_to_western v)).
Proof.
  rewrite !steven_normalize_record_with.
  apply normalize_with_twice;
    [apply steven_sources_ok | apply steven_date_field_source].
Qed.

End StevenCrawlerFacts.

(** C3 (as amended): [normalize_record] never raises; for every mapping
    it returns a record with exactly the output fields, where every field
    but the transaction date holds the first present non-empty value among
    the field's source names, or the empty string, and the transaction
    date holds [roc_to_western] of that value. *)
Theorem normalize_record_total (rec : record) :
  exists d, normalize_record rec = Ret d
    /\ dom d = list_to_set OUTPUT_FIELDS
    /\ forall field candidates, (field, candidates) ∈ FIELD_SOURCES ->
         exists v, first_nonempty rec candidates v
           /\ d !! field
              = Some (if bool_decide (field = DATE_FIELD)
                      then roc_to_western v else v).
Proof.
  destruct (normalize_record_spec rec) as (d & Hd & Hdom & Hlook).
  exists d. split; [done | ]. split; [done | ].
  intros field candidates Hin. exists (pick rec candidates).
  split; [apply pick_first_nonempty | ]. by rewrite (Hlook _ _ Hin).
Qed.

(** C3 as stated fails on the transaction date: it does not hold the
    value found in the record but its conversion. *)
Lemma normalize_record_date_not_verbatim :
  exists d, normalize_record sample_record = Ret d
    /\ ~ (exists v, first_nonempty sample_record ["TransDate"; "交易日期"] v
            /\ d !! DATE_FIELD = Some v).
Proof.
  destruct (normalize_record_spec sample_record) as (d & Hd & _ & _).
  exists d. split; [done | ]. intros (v & Hv & Hdv).
  rewrite (sample_record_date d Hd) in Hdv. injection Hdv as <-.
  pose proof (pick_first_nonempty sample_record ["TransDate"; "交易日期"]) as Hp.
  pose proof (first_nonempty_unique _ _ _ _ Hv Hp) as Heq.
  vm_compute in Heq. discriminate Heq.
Qed.

Example normalize_record_empty :
  normalize_record ∅
  = Ret (dict_display (map (fun f => (f, VStr "")) OUTPUT_FIELDS)).
Proof. reflexivity. Qed.

(** C10: every output field other than the transaction date holds, as
    it is, the first present non-empty value among the field's source
    names, or the empty string. *)
Theorem normalize_record_frame (rec d : record) field candidates :
  normalize_record rec = Ret d ->
  (field, candidates) ∈ FIELD_SOURCES -> field <> DATE_FIELD ->
  exists v, d !! field = Some v /\ first_nonempty rec candidates v.
Proof.
  intros Hd Hin Hne.
  destruct (normalize_record_spec rec) as (d' & Hd' & _ & Hlook).
  rewrite Hd in Hd'. injection Hd' as <-.
  exists (pick rec candidates). split; [ | apply pick_first_nonempty].
  rewrite (Hlook _ _ Hin). unfold output_value.
  by rewrite bool_decide_eq_false_2.
Qed.

Lemma normalize_record_frame_witness :
  exists v, normalized (<["上價" := VInt 5]> sample_record) !! "上價" = Some v
    /\ first_nonempty (<["上價" := VInt 5]> sample_record)
         ["UpperPrice"; "上價"] v.
Proof.
  apply (normalize_record_frame (<["上價" := VInt 5]> sample_record)
           (normalized (<["上價" := VInt 5]> sample_record))
           "上價" ["UpperPrice"; "上價"]).
  - apply normalize_record_normalized.
  - apply list_elem_of_In. vm_compute. tauto.
  - discriminate.
Defined.



Example normalize_record_twice_date :
  (d ← normalize_record sample_record; d' ← normalize_record d;
   Ret (d !! DATE_FIELD, d' !! DATE_FIELD))
  = Ret (Some (VStr "2020.01.01"), Some (VStr "3931.01.01")).
Proof. reflexivity. Qed.

(** ** The page fetch and the paged fetcher *)

Module GetJsonFacts.

Lemma world_after_nil w : world_after w [] [] = w.
Proof. destruct w. unfold world_after. simpl. by rewrite !app_nil_r. Qed.

Lemma world_after_after w r1 d1 r2 d2 :
  world_after (world_after w r1 d1) r2 d2 = world_after w (r1 ++ r2) (d1 ++ d2).
Proof. unfold world_after. simpl. by rewrite !app_assoc. Qed.

Lemma get_json_for_body rq i rest w v :
  upstream w (List.length (sent w)) rq = Body v ->
  get_json_for rq (i :: rest) w = (v, world_after w [rq] []).
Proof.
  intros H. simpl. unfold session_get_json. rewrite H.
  unfold world_after. by rewrite app_nil_r.
Qed.

Lemma get_json_for_failed rq i rest w e :
  upstream w (List.length (sent w)) rq = Failed e ->
  get_json_for rq (i :: rest) w
  = get_json_for rq rest (world_after w [rq] [retry_delay i]).
Proof. intros H. simpl. unfold session_get_json. by rewrite H. Qed.

Lemma fails_at_shift w rq d k :
  fails_at w rq (S k) -> fails_at (world_after w [rq] d) rq k.
Proof.
  unfold fails_at. simpl. rewrite length_app. simpl.
  by replace (List.length (sent w) + 1 + k)%nat
    with (List.length (sent w) + S k)%nat by lia.
Qed.

(** Failures use up a prefix of the attempts. *)
Lemma get_json_for_failures rq (failed : list Z) : forall rest w,
  (forall k, (k < List.length failed)%nat -> fails_at w rq k) ->
  get_json_for rq (failed ++ rest)%list w
  = get_json_for rq rest
      (world_after w (repeat rq (List.length failed)) (map retry_delay failed)).
Proof.
  induction failed as [ | i failed IH]; intros rest w Hfail.
  - simpl. by rewrite world_after_nil.
  - destruct (Hfail 0%nat ltac:(simpl; lia)) as [e He].
    rewrite Nat.add_0_r in He.
    rewrite <- app_comm_cons, (get_json_for_failed _ _ _ _ e He).
    rewrite IH.
    + by rewrite world_after_after.
    + intros k Hk. apply fails_at_shift. apply Hfail. simpl. lia.
Qed.

Lemma get_json_for_exhausted rq (indices : list Z) w :
  (forall k, (k < List.length indices)%nat -> fails_at w rq k) ->
  get_json_for rq indices w
  = (VList [], world_after w (repeat rq (List.length indices))
                 (map retry_delay indices)).
Proof.
  intros H. rewrite <- (app_nil_r indices) at 1.
  by rewrite get_json_for_failures.
Qed.

Lemma get_json_for_success rq (failed : list Z) i rest w v :
  (forall k, (k < List.length failed)%nat -> fails_at w rq k) ->
  upstream w (List.length (sent w) + List.length failed) rq = Body v ->
  get_json_for rq (failed ++ i :: rest)%list w
  = (v, world_after w (repeat rq (S (List.length failed)))
          (map retry_delay failed)).
Proof.
  intros Hfail Hok. rewrite get_json_for_failures by done.
  rewrite (get_json_for_body _ _ _ _ v).
  - rewrite world_after_after, app_nil_r.
    by rewrite <- repeat_cons.
  - simpl. by rewrite length_app, repeat_length.
Qed.

(** Every run of the loop is one of the two above. *)
Lemma get_json_for_cases rq indices : forall w,
  (exists (failed : list Z) i rest v, indices = (failed ++ i :: rest)%list
     /\ (forall k, (k < List.length failed)%nat -> fails_at w rq k)
     /\ upstream w (List.length (sent w) + List.length failed) rq = Body v
     /\ get_json_for rq indices w
        = (v, world_after w (repeat rq (S (List.length failed)))
                (map retry_delay failed)))
  \/ ((forall k, (k < List.length indices)%nat -> fails_at w rq k)
      /\ get_json_for rq indices w
         = (VList [], world_after w (repeat rq (List.length indices))
                        (map retry_delay indices))).
Proof.
  induction indices as [ | i indices IH]; intros w.
  - right. split; [intros k Hk; simpl in Hk; lia | ].
    simpl. by rewrite world_after_nil.
  - destruct (upstream w (List.length (sent w)) rq) as [e | v] eqn:E.
    + destruct (IH (world_after w [rq] [retry_delay i]))
        as [(failed & i' & rest & v & -> & Hfail & Hok & Hrun) | [Hfail Hrun]].
      * assert (Hfail' : forall k, (k < List.length (i :: failed))%nat ->
                                   fails_at w rq k).
        { intros [ | k] Hk.
          - exists e. by rewrite Nat.add_0_r.
          - specialize (Hfail k ltac:(simpl in Hk; lia)).
            unfold fails_at in *. simpl in Hfail.
            rewrite length_app in Hfail. simpl in Hfail.
            by replace (List.length (sent w) + S k)%nat
              with (List.length (sent w) + 1 + k)%nat by lia. }
        assert (Hok' : upstream w (List.length (sent w)
                                   + List.length (i :: failed)) rq = Body v).
        { simpl in Hok. rewrite length_app in Hok. simpl in Hok. simpl.
          by replace (List.length (sent w) + S (List.length failed))%nat
            with (List.length (sent w) + 1 + List.length failed)%nat by lia. }
        left. exists (i :: failed), i', rest, v. split; [done | ].
        split; [done | ]. split; [done | ].
        by apply (get_json_for_success rq (i :: failed)).
      * assert (Hfail' : forall k, (k < List.length (i :: indices))%nat ->
                                   fails_at w rq k).
        { intros [ | k] Hk.
          - exists e. by rewrite Nat.add_0_r.
          - specialize (Hfail k ltac:(simpl in Hk; lia)).
            unfold fails_at in *. simpl in Hfail.
            rewrite length_app in Hfail. simpl in Hfail.
            by replace (List.length (sent w) + S k)%nat
              with (List.length (sent w) + 1 + k)%nat by lia. }
        right. split; [done | ]. by apply get_json_for_exhausted.
    + left. exists [], i, indices, v. split; [done | ].
      split; [intros k Hk; simpl in Hk; lia | ].
      split; [by rewrite Nat.add_0_r | ].
      by apply (get_json_for_body rq i indices).
Qed.

Lemma range_5 : range 5 = [0; 1; 2; 3; 4].
Proof. reflexivity. Qed.

End GetJsonFacts.
Import GetJsonFacts.

(** C6: a page fetch makes at most five attempts and sleeps the attempt
    number times the base delay after each failed one; when the first
    four attempts fail and the fifth succeeds it returns the fifth
    response after five requests, having slept 1, 2, 3 and 4 seconds. *)
Theorem get_json_retry (url : string) (params : record) (w : world) :
  let rq := mkrequest url params get_json_timeout in
  let run := get_json url params get_json_max_retry get_json_timeout w in
  (exists k : nat, (k <= 5)%nat
     /\ (forall j, (j < k)%nat -> fails_at w rq j)
     /\ run.2 = world_after w (repeat rq (Nat.min (S k) 5))
                  (map retry_delay (range (Z.of_nat k)))
     /\ ((k < 5)%nat -> upstream w (List.length (sent w) + k) rq = Body run.1)
     /\ (k = 5%nat -> run.1 = VList []))
  /\ (forall v,
        (forall j, (j < 4)%nat -> fails_at w rq j) ->
        upstream w (List.length (sent w) + 4) rq = Body v ->
        run = (v, world_after w (repeat rq 5) [1; 2; 3; 4])).
Proof.
  intros rq run. subst run. unfold get_json, get_json_max_retry.
  fold rq. rewrite range_5. split.
  - destruct (get_json_for_cases rq [0; 1; 2; 3; 4] w)
      as [(failed & i & rest & v & Heq & Hfail & Hok & Hrun) | [Hfail Hrun]].
    + exists (List.length failed). rewrite Hrun. simpl fst. simpl snd.
      assert (Hlen : (List.length failed <= 4)%nat).
      { apply (f_equal (@List.length Z)) in Heq.
        rewrite length_app in Heq. simpl in Heq. lia. }
      assert (Hpre : failed = range (Z.of_nat (List.length failed))).
      { destruct failed as [ | a [ | b [ | c [ | d [ | e failed]]]]];
          simpl in Heq, Hlen; try lia; by simplify_eq. }
      split; [lia | ]. split; [done | ]. split.
      * rewrite <- Hpre. rewrite Nat.min_l by lia. done.
      * split; [done | lia].
    + exists 5%nat. rewrite Hrun. simpl fst. simpl snd.
      split; [lia | ]. split; [done | ]. split; [done | ]. split; [lia | done].
  - intros v Hfail Hok.
    apply (get_json_for_success rq [0; 1; 2; 3] 4 [] w v Hfail Hok).
Qed.

Lemma get_json_retry_witness :
  get_json FARM_TRANS_URL ∅ get_json_max_retry get_json_timeout
    (mkworld (flaky_upstream (VList [VInt 7])) [] [])
  = (VList [VInt 7],
     mkworld (flaky_upstream (VList [VInt 7]))
       (repeat (mkrequest FARM_TRANS_URL ∅ get_json_timeout) 5) [1; 2; 3; 4]).
Proof.
  apply (proj2 (get_json_retry FARM_TRANS_URL ∅
                  (mkworld (flaky_upstream (VList [VInt 7])) [] []))).
  - intros j Hj. exists ConnectionError. simpl. unfold flaky_upstream.
    destruct (Nat.ltb_spec j 4); [done | lia].
  - reflexivity.
Defined.

Module FetchFacts.

Lemma scan_page_accepted data : forall all_rows,
  Forall (fun v => is_dict v = true) data ->
  scan_page data all_rows = Ret (all_rows ++ accepted_rows data).
Proof.
  induction data as [ | v data IH]; intros all_rows Hd.
  - simpl. by rewrite app_nil_r.
  - apply Forall_cons in Hd as [Hv Hd].
    destruct v as [ | | | | | | rec]; try discriminate Hv.
    cbn [scan_page accepted_rows flat_map].
    destruct (str_strip_is_N05 (category_field rec)).
    + rewrite normalize_record_normalized. cbn [mbind result_bind].
      rewrite IH by done. by rewrite <- app_assoc.
    + by rewrite IH.
Qed.

Lemma fetch_pages_S fuel ps pe page_top all_rows skip w :
  fetch_pages (S fuel) ps pe page_top all_rows skip w =
  let params := page_params ps pe page_top skip in
  let '(data, w1) :=
    get_json FARM_TRANS_URL params get_json_max_retry get_json_timeout w in
  match data with
  | VList ((_ :: _) as page) =>
    match scan_page page all_rows with
    | Raise e => (Raises e, w1)
    | Ret all_rows' =>
      if Z.of_nat (List.length page) <? page_top then (Returns all_rows', w1)
      else fetch_pages fuel ps pe page_top all_rows' (skip + page_top) w1
    end
  | _ => (Returns all_rows, w1)
  end.
Proof. reflexivity. Qed.

Lemma get_json_first_try url params w v :
  upstream w (List.length (sent w)) (mkrequest url params get_json_timeout)
  = Body v ->
  get_json url params get_json_max_retry get_json_timeout w
  = (v, world_after w [mkrequest url params get_json_timeout] []).
Proof.
  intros H. unfold get_json, get_json_max_retry. rewrite range_5.
  by apply get_json_for_body.
Qed.

Lemma get_json_gives_up url params w :
  (forall j, (j < 5)%nat ->
     fails_at w (mkrequest url params get_json_timeout) j) ->
  get_json url params get_json_max_retry get_json_timeout w
  = (VList [],
     world_after w (repeat (mkrequest url params get_json_timeout) 5)
       [1; 2; 3; 4; 5]).
Proof.
  intros H. unfold get_json, get_json_max_retry. rewrite range_5.
  by rewrite get_json_for_exhausted.
Qed.

Section Pages.

Variables (ps pe : date) (page_top : Z).

Local Abbreviation rq := (page_request ps pe page_top).

Lemma fetch_pages_full fuel all_rows (k : nat) w body :
  upstream w (List.length (sent w)) (rq k) = Body body ->
  full_page page_top body ->
  fetch_pages (S fuel) ps pe page_top all_rows (Z.of_nat k * page_top) w
  = fetch_pages fuel ps pe page_top (all_rows ++ page_rows body)
      (Z.of_nat (S k) * page_top) (world_after w [rq k] []).
Proof.
  intros Hup (data & -> & Hne & Hd & Hlen).
  rewrite fetch_pages_S. cbv zeta.
  rewrite (get_json_first_try _ _ _ _ Hup).
  destruct data as [ | v data]; [done | ].
  rewrite scan_page_accepted by done.
  destruct (Z.ltb_spec (Z.of_nat (List.length (v :: data))) page_top); [lia | ].
  f_equal. lia.
Qed.

Lemma fetch_pages_last fuel all_rows (k : nat) w body :
  upstream w (List.length (sent w)) (rq k) = Body body ->
  last_page page_top body ->
  fetch_pages (S fuel) ps pe page_top all_rows (Z.of_nat k * page_top) w
  = (Returns (all_rows ++ page_rows body), world_after w [rq k] []).
Proof.
  intros Hup Hlast. rewrite fetch_pages_S. cbv zeta.
  rewrite (get_json_first_try _ _ _ _ Hup).
  destruct Hlast as [(data & -> & Hne & Hd & Hlen) | Hnone].
  - destruct data as [ | v data]; [done | ].
    rewrite scan_page_accepted by done.
    destruct (Z.ltb_spec (Z.of_nat (List.length (v :: data))) page_top);
      [done | lia].
  - destruct body as [ | | | | | [ | v data] | ]; simpl;
      rewrite ?app_nil_r; try done.
    by specialize (Hnone _ eq_refl).
Qed.

Lemma fetch_pages_gives_up fuel all_rows (k : nat) w :
  (forall j, (j < 5)%nat -> fails_at w (rq k) j) ->
  fetch_pages (S fuel) ps pe page_top all_rows (Z.of_nat k * page_top) w
  = (Returns all_rows,
     world_after w (repeat (rq k) 5) [1; 2; 3; 4; 5]).
Proof.
  intros Hfail. rewrite fetch_pages_S. cbv zeta.
  by rewrite (get_json_gives_up _ _ _ Hfail).
Qed.

(** [n] full pages in a row, each answered at the first attempt. *)
Lemma fetch_pages_run (page : nat -> pyval) (n : nat) :
  forall fuel all_rows (k : nat) w,
  (forall j, (j < n)%nat ->
     upstream w (List.length (sent w) + j) (rq (k + j)%nat)
     = Body (page (k + j)%nat)
     /\ full_page page_top (page (k + j)%nat)) ->
  fetch_pages (n + fuel) ps pe page_top all_rows (Z.of_nat k * page_top) w
  = fetch_pages fuel ps pe page_top
      (all_rows ++ flat_map page_rows (map page (seq k n)))
      (Z.of_nat (k + n)%nat * page_top)
      (world_after w (map rq (seq k n)) []).
Proof.
  induction n as [ | n IH]; intros fuel all_rows k w Hpages.
  - simpl. by rewrite app_nil_r, world_after_nil, Nat.add_0_r.
  - destruct (Hpages 0%nat ltac:(lia)) as [Hup Hfull].
    replace (k + 0)%nat with k in Hup, Hfull by lia.
    rewrite Nat.add_0_r in Hup.
    change (S n + fuel)%nat with (S (n + fuel)).
    rewrite (fetch_pages_full _ _ _ _ _ Hup Hfull).
    rewrite IH.
    + simpl. rewrite world_after_after, <- app_assoc.
      by replace (k + S n)%nat with (S (k + n)) by lia.
    + intros j Hj. destruct (Hpages (S j) ltac:(lia)) as [Hup' Hfull'].
      replace (S k + j)%nat with (k + S j)%nat by lia.
      split; [ | done]. simpl. rewrite length_app. simpl.
      by replace (List.length (sent w) + 1 + j)%nat
        with (List.length (sent w) + S j)%nat by lia.
Qed.

End Pages.

End FetchFacts.
Import FetchFacts.

(** Pages that are answered after some failed attempts. *)

Module RetryFacts.

Lemma range_length n : List.length (range n) = Z.to_nat n.
Proof. unfold range. by rewrite length_map, length_seq. Qed.

Lemma range_split (a : nat) :
  (a <= 4)%nat ->
  exists rest, range get_json_max_retry
               = range (Z.of_nat a) ++ Z.of_nat a :: rest.
Proof.
  intros Ha.
  do 5 (destruct a as [ | a]; [by eexists | ]). lia.
Qed.

Lemma get_json_answered url params (a : nat) w v :
  (a <= 4)%nat ->
  (forall i, (i < a)%nat ->
     fails_at w (mkrequest url params get_json_timeout) i) ->
  upstream w (List.length (sent w) + a)
    (mkrequest url params get_json_timeout) = Body v ->
  get_json url params get_json_max_retry get_json_timeout w
  = (v, world_answered w (mkrequest url params get_json_timeout) a).
Proof.
  intros Ha Hfail Hok. unfold get_json, world_answered.
  destruct (range_split a Ha) as [rest ->].
  assert (List.length (range (Z.of_nat a)) = a) as Hlen
    by (by rewrite range_length, Nat2Z.id).
  rewrite (get_json_for_success _ _ _ _ _ v); rewrite Hlen; done.
Qed.

Section Served.

Variables (ps pe : date) (page_top : Z).

Lemma fetch_pages_served (script : list (nat * pyval)) :
  forall fuel all_rows (k : nat) w,
  serves ps pe page_top w k script ->
  Forall (fun entry => full_page page_top entry.2) script ->
  fetch_pages (List.length script + fuel) ps pe page_top all_rows
    (Z.of_nat k * page_top) w
  = fetch_pages fuel ps pe page_top
      (all_rows ++ flat_map page_rows (map snd script))
      (Z.of_nat (k + List.length script)%nat * page_top)
      (world_served ps pe page_top w k script).
Proof.
  induction script as [ | [a body] script IH];
    intros fuel all_rows k w Hserves Hfull.
  - simpl. by rewrite app_nil_r, Nat.add_0_r.
  - destruct Hserves as (Ha & Hfail & Hok & Hrest).
    apply Forall_cons in Hfull as [(data & Hbody & Hne & Hd & Hlen) Hfull].
    simpl in Hbody. subst body.
    change (List.length ((a, VList data) :: script) + fuel)%nat
      with (S (List.length script + fuel)).
    rewrite fetch_pages_S. cbv zeta.
    rewrite (get_json_answered _ _ a _ (VList data)) by done.
    destruct data as [ | v data]; [done | ].
    rewrite scan_page_accepted by done.
    destruct (Z.ltb_spec (Z.of_nat (List.length (v :: data))) page_top);
      [lia | ].
    replace (Z.of_nat k * page_top + page_top)
      with (Z.of_nat (S k) * page_top) by lia.
    rewrite IH by done.
    cbn [map flat_map snd world_served List.length].
    rewrite <- app_assoc.
    by replace (S k + List.length script)%nat
      with (k + S (List.length script))%nat by lia.
Qed.

Lemma fetch_pages_served_last fuel all_rows (k a : nat) w body :
  serves ps pe page_top w k [(a, body)] ->
  last_page page_top body ->
  fetch_pages (S fuel) ps pe page_top all_rows (Z.of_nat k * page_top) w
  = (Returns (all_rows ++ page_rows body),
     world_served ps pe page_top w k [(a, body)]).
Proof.
  intros (Ha & Hfail & Hok & _) Hlast. rewrite fetch_pages_S. cbv zeta.
  rewrite (get_json_answered _ _ a _ body) by done.
  destruct Hlast as [(data & -> & Hne & Hd & Hlen) | Hnone].
  - destruct data as [ | v data]; [done | ].
    rewrite scan_page_accepted by done.
    destruct (Z.ltb_spec (Z.of_nat (List.length (v :: data))) page_top);
      [done | lia].
  - destruct body as [ | | | | | [ | v data] | ]; simpl;
      rewrite ?app_nil_r; try done.
    by specialize (Hnone _ eq_refl).
Qed.

Lemma serves_app (s1 : list (nat * pyval)) : forall s2 w k,
  serves ps pe page_top w k (s1 ++ s2)
  <-> serves ps pe page_top w k s1
      /\ serves ps pe page_top (world_served ps pe page_top w k s1)
           (k + List.length s1) s2.
Proof.
  induction s1 as [ | [a body] s1 IH]; intros s2 w k.
  - simpl. rewrite Nat.add_0_r. tauto.
  - cbn [app serves world_served List.length]. rewrite IH.
    replace (S k + List.length s1)%nat
      with (k + S (List.length s1))%nat by lia.
    tauto.
Qed.

Lemma world_served_app (s1 : list (nat * pyval)) : forall s2 w k,
  world_served ps pe page_top w k (s1 ++ s2)
  = world_served ps pe page_top (world_served ps pe page_top w k s1)
      (k + List.length s1) s2.
Proof.
  induction s1 as [ | [a body] s1 IH]; intros s2 w k.
  - simpl. by rewrite Nat.add_0_r.
  - cbn [app world_served List.length]. rewrite IH.
    by replace (S k + List.length s1)%nat
      with (k + S (List.length s1))%nat by lia.
Qed.

End Served.

End RetryFacts.
Import RetryFacts.

Module PagingFacts.

Lemma page_params_skip ps pe page_top skip :
  page_params ps pe page_top skip !! "$skip" = Some (VInt skip)
  /\ page_params ps pe page_top skip !! "$top" = Some (VInt page_top).
Proof.
  unfold page_params.
  split; (apply dict_display_lookup;
          [apply (bool_decide_unpack _); by vm_compute
          | apply list_elem_of_In; simpl; tauto]).
Qed.

Lemma accepted_rows_all (recs : list record) :
  Forall (fun rec => str_strip_is_N05 (category_field rec) = true) recs ->
  accepted_rows (VDict <$> recs) = map normalized recs.
Proof.
  induction recs as [ | rec recs IH]; intros H; [done | ].
  apply Forall_cons in H as [Hrec H].
  rewrite fmap_cons. cbn [accepted_rows flat_map map]. rewrite Hrec.
  simpl. f_equal. by apply IH.
Qed.

Lemma dicts_are_dicts (recs : list record) :
  Forall (fun v => is_dict v = true) (VDict <$> recs).
Proof. induction recs as [ | rec recs IH]; by constructor. Qed.

Lemma full_page_dicts page_top (recs : list record) :
  recs <> [] -> page_top <= Z.of_nat (List.length recs) ->
  full_page page_top (VList (VDict <$> recs)).
Proof.
  intros Hne Hlen. exists (VDict <$> recs). split; [done | ]. split.
  - by destruct recs.
  - split; [apply dicts_are_dicts | by rewrite length_fmap].
Qed.

Lemma last_page_dicts page_top (recs : list record) :
  recs <> [] -> Z.of_nat (List.length recs) < page_top ->
  last_page page_top (VList (VDict <$> recs)).
Proof.
  intros Hne Hlen. left. exists (VDict <$> recs). split; [done | ]. split.
  - by destruct recs.
  - split; [apply dicts_are_dicts | by rewrite length_fmap].
Qed.

Lemma fetch_period_block_pages ps pe page_top (page : nat -> pyval)
  (n : nat) w :
  (forall j, (j <= n)%nat ->
     upstream w (List.length (sent w) + j) (page_request ps pe page_top j)
     = Body (page j)) ->
  (forall j, (j < n)%nat -> full_page page_top (page j)) ->
  last_page page_top (page n) ->
  forall fuel, (n < fuel)%nat ->
  fetch_period_block fuel ps pe page_top w
  = (Returns (flat_map page_rows (map page (seq 0 (S n)))),
     world_after w (map (page_request ps pe page_top) (seq 0 (S n))) []).
Proof.
  intros Hup Hfull Hlast fuel Hfuel. unfold fetch_period_block.
  replace fuel with (n + S (fuel - S n))%nat by lia.
  change 0 with (Z.of_nat 0 * page_top).
  rewrite (fetch_pages_run ps pe page_top page n).
  - rewrite (fetch_pages_last ps pe page_top _ _ _ _ (page n)).
    + rewrite world_after_after. simpl app.
      rewrite seq_S, !map_app, flat_map_app. simpl. by rewrite app_nil_r.
    + simpl. rewrite length_app, length_map, length_seq. by apply Hup.
    + done.
  - intros j Hj. simpl. split; [apply Hup; lia | by apply Hfull].
Qed.

End PagingFacts.
Import PagingFacts.

(** C5: the request for the page of index [k] has [$skip = k * page_top];
    the fetcher asks for the pages one after the other as long as they
    are full, stops at the first page that is short, empty or not a
    list, and returns the accepted rows of all the pages in order; with
    pages of 2000, 2000 and 500 records that all pass the category
    filter it returns their 4500 rows after three requests. *)
Theorem fetch_period_block_paging :
  (forall ps pe page_top (k : nat),
     req_params (page_request ps pe page_top k) !! "$skip"
     = Some (VInt (Z.of_nat k * page_top)))
  /\ (forall ps pe page_top (page : nat -> pyval) (n : nat) w,
        (forall j, (j <= n)%nat ->
           upstream w (List.length (sent w) + j)
             (page_request ps pe page_top j) = Body (page j)) ->
        (forall j, (j < n)%nat -> full_page page_top (page j)) ->
        last_page page_top (page n) ->
        forall fuel, (n < fuel)%nat ->
        fetch_period_block fuel ps pe page_top w
        = (Returns (flat_map page_rows (map page (seq 0 (S n)))),
           world_after w
             (map (page_request ps pe page_top) (seq 0 (S n))) []))
  /\ (forall ps pe (p0 p1 p2 : list record) w,
        List.length p0 = 2000%nat -> List.length p1 = 2000%nat ->
        List.length p2 = 500%nat ->
        Forall (fun rec => str_strip_is_N05 (category_field rec) = true)
          (p0 ++ p1 ++ p2) ->
        upstream w (List.length (sent w)) (page_request ps pe 2000 0)
        = Body (VList (VDict <$> p0)) ->
        upstream w (List.length (sent w) + 1) (page_request ps pe 2000 1)
        = Body (VList (VDict <$> p1)) ->
        upstream w (List.length (sent w) + 2) (page_request ps pe 2000 2)
        = Body (VList (VDict <$> p2)) ->
        forall fuel, (3 <= fuel)%nat ->
        fetch_period_block fuel ps pe fetch_period_block_page_top w
        = (Returns (map normalized (p0 ++ p1 ++ p2)),
           world_after w
             [page_request ps pe 2000 0; page_request ps pe 2000 1;
              page_request ps pe 2000 2] [])
        /\ List.length (map normalized (p0 ++ p1 ++ p2)) = 4500%nat).
Proof.
  split; [ | split].
  - intros ps pe page_top k. apply page_params_skip.
  - apply fetch_period_block_pages.
  - intros ps pe p0 p1 p2 w L0 L1 L2 Hcat U0 U1 U2 fuel Hfuel.
    apply Forall_app in Hcat as [C0 Hcat]. apply Forall_app in Hcat as [C1 C2].
    split.
    + set (page := fun j : nat =>
                     match j with
                     | O => VList (VDict <$> p0)
                     | S O => VList (VDict <$> p1)
                     | _ => VList (VDict <$> p2)
                     end).
      unfold fetch_period_block_page_top.
      rewrite (fetch_period_block_pages ps pe 2000 page 2 w).
      * simpl. rewrite !accepted_rows_all by done.
        by rewrite app_nil_r, !map_app.
      * intros [ | [ | [ | j]]] Hj; simpl; try lia;
          rewrite ?Nat.add_0_r; done.
      * intros [ | [ | j]] Hj; simpl; try lia;
          apply full_page_dicts; try lia; intros ->; simpl in *; lia.
      * apply last_page_dicts; [intros ->; simpl in *; lia | lia].
      * lia.
    + rewrite length_map, !length_app. lia.
Qed.

(** C7: when the five attempts for a page fail, after any number of
    full pages, each of them answered after at most four failed
    attempts, the fetcher returns the rows accepted from these pages
    (none when the first page fails) and does not raise. *)
Theorem fetch_period_block_gives_up ps pe page_top (w : world)
  (script : list (nat * pyval)) :
  serves ps pe page_top w 0 script ->
  Forall (fun entry => full_page page_top entry.2) script ->
  (forall j, (j < 5)%nat ->
     fails_at (world_served ps pe page_top w 0 script)
       (page_request ps pe page_top (List.length script)) j) ->
  forall fuel, (List.length script < fuel)%nat ->
  fetch_period_block fuel ps pe page_top w
  = (Returns (flat_map page_rows (map snd script)),
     world_after (world_served ps pe page_top w 0 script)
       (repeat (page_request ps pe page_top (List.length script)) 5)
       [1; 2; 3; 4; 5]).
Proof.
  intros Hserves Hfull Hfail fuel Hfuel. unfold fetch_period_block.
  replace fuel with (List.length script + S (fuel - S (List.length script)))%nat
    by lia.
  change 0 with (Z.of_nat 0 * page_top).
  rewrite (fetch_pages_served ps pe page_top script) by done.
  by rewrite fetch_pages_gives_up.
Qed.

Lemma fetch_period_block_gives_up_witness :
  fetch_period_block 2 (mkdate 2020 1 1) (mkdate 2020 1 10) 2
    (mkworld stutter_then_down [] [])
  = (Returns (page_rows (VList [sample_row 1 "N05"; sample_row 2 "N04"])),
     world_after (mkworld stutter_then_down [] [])
       (repeat (page_request (mkdate 2020 1 1) (mkdate 2020 1 10) 2 0) 3
        ++ repeat (page_request (mkdate 2020 1 1) (mkdate 2020 1 10) 2 1) 5)
       [1; 2; 1; 2; 3; 4; 5]).
Proof.
  rewrite (fetch_period_block_gives_up (mkdate 2020 1 1) (mkdate 2020 1 10) 2
             (mkworld stutter_then_down [] [])
             [(2%nat, VList [sample_row 1 "N05"; sample_row 2 "N04"])]).
  - reflexivity.
  - simpl. repeat split; try lia; try reflexivity.
    intros i Hi. exists ConnectionError.
    destruct i as [ | [ | i]]; [reflexivity | reflexivity | lia].
  - repeat constructor. eexists. split; [reflexivity | ].
    split; [done | ]. split; [by repeat constructor | simpl; lia].
  - intros j Hj. exists ConnectionError.
    do 5 (destruct j as [ | j]; [reflexivity | ]). lia.
  - simpl. lia.
Defined.

Lemma fetch_period_block_paging_witness :
  fetch_period_block 3 (mkdate 2020 1 1) (mkdate 2020 1 10) 2
    (mkworld three_pages [] [])
  = (Returns (flat_map page_rows (map three_pages_page (seq 0 3))),
     world_after (mkworld three_pages [] [])
       (map (page_request (mkdate 2020 1 1) (mkdate 2020 1 10) 2) (seq 0 3))
       []).
Proof.
  apply (proj1 (proj2 fetch_period_block_paging)
           (mkdate 2020 1 1) (mkdate 2020 1 10) 2 three_pages_page 2%nat).
  - intros [ | [ | [ | j]]] Hj; try lia; vm_compute; reflexivity.
  - intros [ | [ | j]] Hj; try lia; eexists; (split; [reflexivity | ]);
      (split; [done | ]); (split; [by repeat constructor | simpl; lia]).
  - left. eexists. split; [reflexivity | ]. split; [done | ].
    split; [by repeat constructor | simpl; lia].
  - lia.
Defined.

(** The scenario of the specification: an upstream that fails on all five
    attempts gives an empty list of records for the window, after delays
    of 1 to 5 seconds. *)
Example fetch_period_block_upstream_down :
  let run := fetch_period_block 1 (mkdate 2020 1 1) (mkdate 2020 1 10)
               fetch_period_block_page_top (mkworld down_upstream [] []) in
  run.1 = Returns [] /\ slept run.2 = [1; 2; 3; 4; 5]
  /\ List.length (sent run.2) = 5%nat.
Proof. vm_compute. repeat split. Qed.

Example fetch_period_block_three_pages :
  let run := fetch_period_block 3 (mkdate 2020 1 1) (mkdate 2020 1 10) 2
               (mkworld three_pages [] []) in
  (match run.1 with
   | Returns rows => map (fun d => d !! "上價") rows
   | _ => []
   end) = [Some (VInt 1); Some (VInt 3); Some (VInt 4); Some (VInt 5)]
  /\ map (fun rq => req_params rq !! "$skip") (sent run.2)
     = [Some (VInt 0); Some (VInt 2); Some (VInt 4)]
  /\ slept run.2 = [].
Proof. vm_compute. repeat split. Qed.

(** A page with an element that is not a record makes the fetcher
    raise. *)
Example fetch_period_block_bad_element :
  (fetch_period_block 1 (mkdate 2020 1 1) (mkdate 2020 1 10) 2
     (mkworld (fun _ _ => Body (VList [VInt 1])) [] [])).1
  = Raises AttributeError.
Proof. reflexivity. Qed.

(** * Further properties *)

(** ** The window planner: counts, termination and zero-day windows *)

Module WindowRuns.

#[local] Opaque toordinal.

(** Valid dates with the same ordinal are the same date. *)
Lemma toordinal_inj a b :
  valid_date a = true -> valid_date b = true ->
  toordinal a = toordinal b -> a = b.
Proof.
  intros Ha Hb Heq. apply date_lt_total.
  - destruct (date_lt a b) eqn:E; [ | done].
    apply date_lt_sound in E; [lia | done | done].
  - destruct (date_lt b a) eqn:E; [ | done].
    apply date_lt_sound in E; [lia | done | done].
Qed.

Lemma fromordinal_toordinal d :
  valid_date d = true -> fromordinal (toordinal d) = d.
Proof.
  intros Hd. pose proof (toordinal_range d Hd) as R.
  apply toordinal_inj; [by apply valid_fromordinal | done | ].
  by apply toordinal_fromordinal.
Qed.

(** What a successful date shift says. *)
Lemma shift_date_inv d k d' :
  (t ← timedelta_days k; date_add d t) = Ret d' ->
  1 <= toordinal d + k <= MAXORDINAL /\ d' = fromordinal (toordinal d + k).
Proof.
  unfold timedelta_days. destruct (Z.abs k <=? 999999999); [ | done].
  simpl. unfold date_add. simpl.
  destruct (Z.ltb_spec 0 (toordinal d + k)); [ | done].
  destruct (Z.leb_spec (toordinal d + k) MAXORDINAL); [ | done].
  simpl. intros [= <-]. split; [lia | done].
Qed.

(** More fuel does not change a run that has ended. *)
Lemma period_windows_from_more fuel : forall cursor end_d days ws o fuel',
  o <> OutOfFuel ->
  period_windows_from fuel cursor end_d days = (ws, o) ->
  (fuel <= fuel')%nat ->
  period_windows_from fuel' cursor end_d days = (ws, o).
Proof.
  induction fuel as [ | fuel IH]; intros cursor end_d days ws o fuel' Ho Hrun Hle.
  - simpl in Hrun. injection Hrun as <- <-. done.
  - destruct fuel' as [ | fuel']; [lia | ].
    rewrite period_windows_from_S in *.
    destruct (date_le cursor end_d); [ | done].
    destruct (t ← timedelta_days (days - 1); date_add cursor t)
      as [stop | e1]; [ | done].
    cbv zeta in *.
    destruct (t ← timedelta_days 1; date_add (date_min end_d stop) t)
      as [cursor' | e2]; [ | done].
    destruct (period_windows_from fuel cursor' end_d days) as [rest ending]
      eqn:Erest.
    inversion Hrun; subst.
    rewrite (IH cursor' end_d days rest o fuel' Ho Erest ltac:(lia)). done.
Qed.

(** A run that ends normally has found room for every window, and
    tiles the range. *)
Lemma period_windows_from_returns days end_d :
  valid_date end_d = true -> 1 <= days ->
  forall fuel cursor ws,
    valid_date cursor = true ->
    toordinal cursor <= toordinal end_d + 1 ->
    period_windows_from fuel cursor end_d days = (ws, Returns tt) ->
    tiles days cursor end_d ws
    /\ (toordinal cursor <= toordinal end_d ->
        toordinal end_d + 1 <= MAXORDINAL)
    /\ (forall i, 0 <= i -> toordinal cursor + i * days <= toordinal end_d ->
                  toordinal cursor + i * days + (days - 1) <= MAXORDINAL).
Proof.
  intros Hend Hdays. pose proof (toordinal_range end_d Hend) as Rend.
  induction fuel as [ | fuel IH]; intros cursor ws Hcur Hle Hrun; [done | ].
  pose proof (toordinal_range cursor Hcur) as Rcur.
  rewrite period_windows_from_S in Hrun.
  destruct (date_le cursor end_d) eqn:E.
  2:{ injection Hrun as <-.
      assert (toordinal end_d < toordinal cursor).
      { destruct (Z.lt_ge_cases (toordinal end_d) (toordinal cursor));
          [done | ].
        assert (date_le cursor end_d = true)
          by (apply date_le_toordinal; [done | done | lia]).
        congruence. }
      split; [simpl; lia | ]. split; [lia | ].
      intros i Hi Hin. assert (0 <= i * days) by (apply Z.mul_nonneg_nonneg; lia).
      lia. }
  apply date_le_toordinal in E; [ | done | done].
  destruct (t ← timedelta_days (days - 1); date_add cursor t)
    as [stop | e1] eqn:E1; [ | done].
  apply shift_date_inv in E1 as [R1 ->].
  set (stop := fromordinal (toordinal cursor + (days - 1))) in *.
  assert (Hstop : valid_date stop = true) by (by apply valid_fromordinal).
  assert (Ostop : toordinal stop = toordinal cursor + (days - 1))
    by (by apply toordinal_fromordinal).
  cbv zeta in Hrun.
  set (period_end := date_min end_d stop) in *.
  assert (Epe : period_end = if toordinal stop <? toordinal end_d
                             then stop else end_d)
    by (apply date_min_spec; done).
  assert (Hpe : valid_date period_end = true)
    by (rewrite Epe; destruct (_ <? _); done).
  assert (Ope : toordinal period_end
                = Z.min (toordinal end_d) (toordinal stop)).
  { rewrite Epe. destruct (Z.ltb_spec (toordinal stop) (toordinal end_d)); lia. }
  destruct (t ← timedelta_days 1; date_add period_end t)
    as [cursor' | e2] eqn:E2; [ | done].
  apply shift_date_inv in E2 as [R2 ->].
  set (cursor' := fromordinal (toordinal period_end + 1)) in *.
  assert (Hcur' : valid_date cursor' = true) by (by apply valid_fromordinal).
  assert (Ocur' : toordinal cursor' = toordinal period_end + 1)
    by (by apply toordinal_fromordinal).
  destruct (period_windows_from fuel cursor' end_d days) as [rest ending]
    eqn:Erest.
  inversion Hrun; subst ws ending. clear Hrun.
  destruct (IH cursor' rest Hcur' ltac:(lia) Erest) as (Ht & Hroom1 & Hroom).
  split; [ | split].
  - simpl. repeat split; try done; try lia.
    + intros ->. simpl in Ht. rewrite Epe.
      destruct (Z.ltb_spec (toordinal stop) (toordinal end_d)); [lia | done].
    + intros Hne. destruct rest as [ | [s e] rest]; [done | ].
      simpl in Ht. destruct Ht as (-> & _ & Hr & _). lia.
    + exists cursor'. done.
  - lia.
  - intros i Hi Hin.
    destruct (Z.eq_dec i 0) as [-> | Hi0]; [lia | ].
    assert (0 <= (i - 1) * days) by (apply Z.mul_nonneg_nonneg; lia).
    replace (i * days) with ((i - 1) * days + days) in * by ring.
    destruct (Z.ltb_spec (toordinal stop) (toordinal end_d)) as [Hlt | Hge];
      [ | lia].
    pose proof (Hroom (i - 1) ltac:(lia) ltac:(lia)). lia.
Qed.

(** The start of each window and the number of windows, in a list that
    splits the range. *)
Lemma partition_starts days start_d end_d ws :
  partition_of days start_d end_d ws ->
  forall i w, ws !! i = Some w ->
    toordinal w.1 = toordinal start_d + Z.of_nat i * days.
Proof.
  intros P. induction i as [ | i IH]; intros w Hi.
  - destruct (part_first _ _ _ _ P) as [e He].
    destruct ws as [ | w0 ws]; [done | ]. simpl in He, Hi.
    injection He as ->. injection Hi as <-. simpl. lia.
  - assert (Hlt : (i < List.length ws)%nat).
    { apply lookup_lt_Some in Hi. exact (Nat.lt_succ_l _ _ Hi). }
    destruct (lookup_lt_is_Some_2 ws i Hlt) as [w0 Hw0].
    pose proof (IH w0 Hw0) as Hs0.
    pose proof (part_contiguous _ _ _ _ P i w0 w Hw0 Hi) as Hc.
    pose proof (part_full _ _ _ _ P i w0 Hw0) as Hf.
    apply lookup_lt_Some in Hi. specialize (Hf Hi).
    unfold window_length in Hf. lia.
Qed.

Lemma partition_length days start_d end_d ws :
  1 <= days -> partition_of days start_d end_d ws ->
  Z.of_nat (List.length ws)
  = (toordinal end_d - toordinal start_d) / days + 1.
Proof.
  intros Hdays P. destruct (part_last _ _ _ _ P) as [s Hs].
  assert (Hne : ws <> []) by (by intros ->).
  pose proof Hs as Hl. rewrite last_lookup in Hl.
  pose proof (partition_starts _ _ _ _ P _ _ Hl) as Hstart.
  destruct (part_window _ _ _ _ P _ _ Hl) as (_ & _ & Hlen).
  unfold window_length in Hlen. simpl in *.
  assert (Hpos : (0 < List.length ws)%nat) by (destruct ws; simpl; [done | lia]).
  set (l := Z.of_nat (Nat.pred (List.length ws))) in *.
  assert (Z.of_nat (List.length ws) = l + 1) by (unfold l; lia).
  assert (Hq : (toordinal end_d - toordinal start_d) / days = l).
  { symmetry. apply (Z.div_unique _ _ _
      (toordinal end_d - toordinal start_d - l * days)); lia. }
  lia.
Qed.

Lemma in_date_range_of_room start_d end_d days :
  1 <= days -> toordinal start_d <= toordinal end_d ->
  toordinal end_d + 1 <= MAXORDINAL ->
  (forall i, 0 <= i -> toordinal start_d + i * days <= toordinal end_d ->
             toordinal start_d + i * days + (days - 1) <= MAXORDINAL) ->
  in_date_range start_d end_d days.
Proof.
  intros Hdays Hle Hend Hroom. split; [ | done]. unfold last_start.
  set (q := (toordinal end_d - toordinal start_d) / days).
  assert (Hq : 0 <= q) by (apply Z.div_pos; lia).
  assert (Hm : days * q <= toordinal end_d - toordinal start_d)
    by (apply Z.mul_div_le; lia).
  specialize (Hroom q Hq). rewrite (Z.mul_comm q) in Hroom. lia.
Qed.

End WindowRuns.
Import WindowRuns.

(** X1: whenever [period_windows] ends normally on valid dates with
    [start_d <= end_d] and [days >= 1], the windows it has yielded split
    the range; the window of index [i] starts [i * days] days after
    [start_d], and there are [(end_d - start_d) / days + 1] windows. *)
Theorem period_windows_count fuel start_d end_d days ws :
  valid_date start_d = true -> valid_date end_d = true ->
  date_le start_d end_d = true -> 1 <= days ->
  period_windows fuel start_d end_d days = (ws, Returns tt) ->
  partition_of days start_d end_d ws
  /\ Z.of_nat (List.length ws)
     = (toordinal end_d - toordinal start_d) / days + 1
  /\ forall i w, ws !! i = Some w ->
       toordinal w.1 = toordinal start_d + Z.of_nat i * days.
Proof.
  intros Hs He Hle Hdays Hrun.
  apply date_le_toordinal in Hle; [ | done | done].
  destruct (period_windows_from_returns days end_d He Hdays fuel start_d ws
              Hs ltac:(lia) Hrun) as (Ht & _ & _).
  pose proof (tiles_partition _ _ _ _ Hs Hle Ht) as P.
  split; [done | ]. split.
  - by apply (partition_length days start_d end_d).
  - exact (partition_starts _ _ _ _ P).
Qed.

Lemma period_windows_count_witness :
  partition_of SEGMENT_DAYS (mkdate 2020 1 1) (mkdate 2020 2 3)
    (period_windows 5 (mkdate 2020 1 1) (mkdate 2020 2 3) SEGMENT_DAYS).1
  /\ Z.of_nat (List.length
       (period_windows 5 (mkdate 2020 1 1) (mkdate 2020 2 3) SEGMENT_DAYS).1)
     = (toordinal (mkdate 2020 2 3) - toordinal (mkdate 2020 1 1))
       / SEGMENT_DAYS + 1
  /\ forall i w,
       (period_windows 5 (mkdate 2020 1 1) (mkdate 2020 2 3)
          SEGMENT_DAYS).1 !! i = Some w ->
       toordinal w.1
       = toordinal (mkdate 2020 1 1) + Z.of_nat i * SEGMENT_DAYS.
Proof.
  apply (period_windows_count 5 (mkdate 2020 1 1) (mkdate 2020 2 3)
           SEGMENT_DAYS).
  - reflexivity.
  - reflexivity.
  - reflexivity.
  - unfold SEGMENT_DAYS. lia.
  - reflexivity.
Defined.

(** X2: on valid dates with [start_d <= end_d] and [days >= 1],
    [period_windows] ends normally if and only if its date arithmetic
    stays within the range of [datetime.date]; otherwise no amount of
    fuel makes it end normally. *)
Theorem period_windows_ends_iff start_d end_d days :
  valid_date start_d = true -> valid_date end_d = true ->
  date_le start_d end_d = true -> 1 <= days ->
  (exists fuel ws, period_windows fuel start_d end_d days = (ws, Returns tt))
  <-> in_date_range start_d end_d days.
Proof.
  intros Hs He Hle Hdays. split.
  - intros (fuel & ws & Hrun).
    apply date_le_toordinal in Hle; [ | done | done].
    destruct (period_windows_from_returns days end_d He Hdays fuel start_d ws
                Hs ltac:(lia) Hrun) as (_ & Hend & Hroom).
    apply in_date_range_of_room; auto.
  - intros Hrange.
    destruct (period_windows_tiles start_d end_d days Hs He Hle Hdays Hrange)
      as (ws & _ & Hrun).
    eexists _, ws. apply Hrun. apply Nat.lt_succ_diag_r.
Qed.

Lemma period_windows_ends_iff_witness :
  (exists fuel ws,
     period_windows fuel (mkdate 2020 1 1) (mkdate 2020 1 3) 4000000
     = (ws, Returns tt))
  <-> in_date_range (mkdate 2020 1 1) (mkdate 2020 1 3) 4000000.
Proof.
  apply (period_windows_ends_iff (mkdate 2020 1 1) (mkdate 2020 1 3) 4000000).
  - reflexivity.
  - reflexivity.
  - reflexivity.
  - lia.
Defined.

(** X3: with [days = 0] the generator never ends: from any start after
    0001-01-01 it yields the same empty window, from [start_d] to the day
    before, once per round, whatever the number of rounds. *)
Theorem period_windows_stalls fuel start_d end_d :
  valid_date start_d = true -> valid_date end_d = true ->
  date_le start_d end_d = true -> 2 <= toordinal start_d ->
  period_windows fuel start_d end_d 0
  = (repeat (start_d, fromordinal (toordinal start_d - 1)) fuel, OutOfFuel).
Proof.
  intros Hs He Hle H2. unfold period_windows.
  pose proof (toordinal_range start_d Hs) as Rs.
  pose proof (toordinal_range end_d He) as Re.
  assert (HM : MAXORDINAL = 3652059) by reflexivity.
  pose proof Hle as Hle'. apply date_le_toordinal in Hle'; [ | done | done].
  set (prev := fromordinal (toordinal start_d - 1)).
  assert (Hprev : valid_date prev = true) by (apply valid_fromordinal; lia).
  assert (Oprev : toordinal prev = toordinal start_d - 1)
    by (apply toordinal_fromordinal; lia).
  induction fuel as [ | fuel IH]; [done | ].
  rewrite period_windows_from_S, Hle.
  rewrite (shift_date start_d (0 - 1)) by (done || lia).
  replace (toordinal start_d + (0 - 1)) with (toordinal start_d - 1) by lia.
  fold prev. cbv zeta.
  rewrite (date_min_spec end_d prev) by done.
  destruct (Z.ltb_spec (toordinal prev) (toordinal end_d)); [ | lia].
  rewrite (shift_date prev 1) by (done || lia).
  replace (toordinal prev + 1) with (toordinal start_d) by lia.
  rewrite (fromordinal_toordinal start_d Hs), IH. reflexivity.
Qed.

Lemma period_windows_stalls_witness :
  period_windows 1000 (mkdate 2020 1 1) (mkdate 2025 12 31) 0
  = (repeat (mkdate 2020 1 1,
             fromordinal (toordinal (mkdate 2020 1 1) - 1)) 1000, OutOfFuel).
Proof.
  apply (period_windows_stalls 1000 (mkdate 2020 1 1) (mkdate 2025 12 31)).
  - reflexivity.
  - reflexivity.
  - reflexivity.
  - vm_compute. discriminate.
Defined.

(** ** The calendar conversion, on every date and every string *)

Module SignedFacts.
Import PyStr.

Lemma int_unsigned_digits s :
  s <> "" -> all_chars is_digit s = true ->
  int_unsigned s = Some (digits_value 0 s).
Proof.
  intros Hne Hs. destruct s as [ | c s]; [done | ]. simpl in Hs.
  apply andb_true_iff in Hs as [Hc Hs].
  cbn [int_unsigned]. rewrite (digit_val_digit c Hc).
  by rewrite int_digits_digits.
Qed.

Lemma format_0d_negative w n :
  n < 0 -> format_0d w n = String "-"%char (zfill (w - 1) (decimal (- n))).
Proof. intros Hn. unfold format_0d. by destruct (Z.ltb_spec n 0); [ | lia]. Qed.

(** [int()] reads back what the format [0<w>d] writes, sign included. *)
Lemma int_format_0d_signed w n : int (format_0d w n) = Ret n.
Proof.
  destruct (Z.lt_ge_cases n 0) as [Hneg | Hpos];
    [ | by apply int_format_0d; lia].
  rewrite format_0d_negative by done.
  rewrite int_ascii_only
    by (cbn [all_chars]; apply digits_ascii, zfill_digits; lia).
  unfold int_ascii. cbn [lstrip].
  change (is_space "-"%char) with false. cbv iota.
  rewrite int_unsigned_digits;
    [ | apply zfill_nonempty | apply zfill_digits; lia].
  rewrite zfill_value by lia. simpl. f_equal. lia.
Qed.

Lemma format_0d_free_signed w n : free_of "."%char (format_0d w n) = true.
Proof.
  destruct (Z.lt_ge_cases n 0) as [Hneg | Hpos].
  - rewrite format_0d_negative by done. unfold free_of. cbn [all_chars].
    apply andb_true_iff. split; [reflexivity | ].
    apply (digits_free_of_dot _). apply zfill_digits. lia.
  - apply ConversionFacts.format_0d_free. lia.
Qed.

Lemma format_0d_nonempty w n : format_0d w n <> "".
Proof.
  destruct (Z.lt_ge_cases n 0) as [Hneg | Hpos].
  - by rewrite format_0d_negative.
  - rewrite format_0d_nonneg by lia. apply zfill_nonempty.
Qed.

(** The text that [roc_to_western] writes for the numbers [y], [m], [d]
    it has read. *)
Lemma roc_to_western_parsed s a b c y m d :
  split "."%char s = [a; b; c] ->
  int a = Ret y -> int b = Ret m -> int c = Ret d ->
  roc_to_western (VStr s)
  = VStr (format_0d 4 (y + 1911) ++ "." ++ format_0d 2 m
          ++ "." ++ format_0d 2 d).
Proof.
  intros Hs Ha Hb Hc. unfold roc_to_western. cbn [truthy].
  destruct (String.eqb_spec s "") as [-> | Hne]; [done | ].
  cbn [negb]. unfold roc_to_western_try. cbn [mbind result_bind].
  rewrite Hs, Ha. cbn [mbind result_bind]. rewrite Hb.
  cbn [mbind result_bind]. rewrite Hc. reflexivity.
Qed.

Lemma roc_to_western_dotted_signed y m d :
  roc_to_western (VStr (format_0d 3 y ++ "." ++ format_0d 2 m
                        ++ "." ++ format_0d 2 d))
  = VStr (format_0d 4 (y + 1911) ++ "." ++ format_0d 2 m
          ++ "." ++ format_0d 2 d).
Proof.
  apply (roc_to_western_parsed _ (format_0d 3 y) (format_0d 2 m)
           (format_0d 2 d)).
  - apply split_three; apply format_0d_free_signed.
  - apply int_format_0d_signed.
  - apply int_format_0d_signed.
  - apply int_format_0d_signed.
Qed.

(** A string that is not well formed comes back as it is. *)
Lemma roc_to_western_passes s :
  List.length (split "."%char s) <> 3%nat
  \/ (exists p, In p (split "."%char s) /\ int p = Raise ValueError) ->
  roc_to_western (VStr s) = VStr s.
Proof.
  intros H. unfold roc_to_western. cbn [truthy].
  destruct (String.eqb_spec s "") as [-> | Hne]; [reflexivity | ].
  cbn [negb]. unfold roc_to_western_try. cbn [mbind result_bind].
  destruct (split "."%char s) as [ | p0 [ | p1 [ | p2 [ | p3 ps]]]];
    try reflexivity.
  destruct H as [H | (p & Hp & Hint)]; [done | ].
  destruct (int p0) as [n0 | e0] eqn:E0; [ | reflexivity].
  destruct (int p1) as [n1 | e1] eqn:E1; [ | reflexivity].
  destruct (int p2) as [n2 | e2] eqn:E2; [ | reflexivity].
  simpl in Hp. destruct Hp as [<- | [<- | [<- | []]]]; congruence.
Qed.

Lemma int_raises s e : int s = Raise e -> e = ValueError.
Proof.
  unfold int, int_ascii.
  match goal with
  | |- match ?o with Some _ => _ | None => _ end = _ -> _ => destruct o
  end; intros H; [discriminate H | by injection H].
Qed.

End SignedFacts.
Import SignedFacts.

(** X4: the round trip of C8 holds for every date, also before 1912,
    where the offset year is written with a sign or as [000]. *)
Theorem roc_round_trip_all (d : date) :
  roc_to_western (VStr (to_roc d true)) = VStr (western_text d).
Proof.
  unfold to_roc, western_text. rewrite roc_to_western_dotted_signed.
  replace (year d - 1911 + 1911) with (year d) by lia. reflexivity.
Qed.

Example to_roc_1900 : to_roc (mkdate 1900 2 3) true = "-11.02.03".
Proof. reflexivity. Qed.

Example to_roc_1911 : to_roc (mkdate 1911 12 31) true = "000.12.31".
Proof. reflexivity. Qed.

(** X5: [roc_to_western] returns a date string unchanged if and only if
    the string is empty or malformed: it has not three segments between
    dots, or [int()] refuses one of them.  Every well-formed string is
    rewritten, its year moved by 1911.  The string is taken to be at
    most 4300 bytes long, so that the interpreter's limit on the digits
    of an [int] does not come into play. *)
Theorem roc_to_western_unchanged_iff (s : string) :
  (String.length s <= 4300)%nat ->
  roc_to_western (VStr s) = VStr s
  <-> (List.length (PyStr.split "."%char s) <> 3%nat
       \/ exists p, In p (PyStr.split "."%char s)
                    /\ PyStr.int p = Raise ValueError).
Proof.
  intros _. split; [ | apply roc_to_western_passes].
  intros Hsame.
  destruct (PyStr.split "."%char s) as [ | a [ | b [ | c [ | x xs]]]] eqn:Hs;
    try (left; simpl; lia).
  right.
  destruct (PyStr.int a) as [y | ea] eqn:Ea;
    [ | exists a; split; [simpl; tauto | by rewrite (int_raises _ _ Ea) in Ea]].
  destruct (PyStr.int b) as [m | eb] eqn:Eb;
    [ | exists b; split; [simpl; tauto | by rewrite (int_raises _ _ Eb) in Eb]].
  destruct (PyStr.int c) as [d | ec] eqn:Ec;
    [ | exists c; split; [simpl; tauto | by rewrite (int_raises _ _ Ec) in Ec]].
  exfalso.
  rewrite (roc_to_western_parsed s a b c y m d Hs Ea Eb Ec) in Hsame.
  injection Hsame as Hsame. rewrite <- Hsame in Hs.
  rewrite split_three in Hs by apply format_0d_free_signed.
  injection Hs as <- _ _. rewrite int_format_0d_signed in Ea.
  injection Ea as Ea. lia.
Qed.

Lemma roc_to_western_unchanged_iff_witness :
  roc_to_western (VStr "109.1x.02") = VStr "109.1x.02"
  <-> (List.length (PyStr.split "."%char "109.1x.02") <> 3%nat
       \/ exists p, In p (PyStr.split "."%char "109.1x.02")
                    /\ PyStr.int p = Raise ValueError).
Proof.
  apply (roc_to_western_unchanged_iff "109.1x.02"). simpl. lia.
Defined.

Example roc_to_western_keeps_slashes :
  roc_to_western (VStr "109/01/02") = VStr "109/01/02".
Proof. reflexivity. Qed.

(** X6: a transaction date that is not a string is never converted and
    never raises: the falsy values (0, false, empty list or dict) become
    the empty string, the others come back as they are. *)
Theorem roc_to_western_other_values (v : pyval) :
  (forall s, v <> VStr s) ->
  roc_to_western v = if truthy v then v else VStr "".
Proof. apply roc_to_western_not_str. Qed.

Lemma roc_to_western_other_values_witness :
  roc_to_western (VInt 1090101) = VInt 1090101
  /\ roc_to_western (VInt 0) = VStr "".
Proof.
  split.
  - apply (roc_to_western_other_values (VInt 1090101)). discriminate.
  - apply (roc_to_western_other_values (VInt 0)). discriminate.
Defined.

(** ** The normalizers: what they read and what they never give *)

Module NormalizerMore.

Lemma pick_ext (rec rec' : record) candidates :
  (forall c, c ∈ candidates -> rec !! c = rec' !! c) ->
  pick rec candidates = pick rec' candidates.
Proof.
  induction candidates as [ | c cs IH]; intros H; [done | ].
  simpl. rewrite <- (H c) by left.
  rewrite IH; [done | ]. intros c' Hc'. apply H. by right.
Qed.

Lemma picked_ext sources (rec rec' : record) :
  (forall field candidates c, (field, candidates) ∈ sources ->
     c ∈ candidates -> rec !! c = rec' !! c) ->
  picked sources rec = picked sources rec'.
Proof.
  intros H. unfold picked. apply map_ext_in. intros [f cs] Hin. simpl.
  f_equal. apply pick_ext. intros c Hc.
  apply (H f cs c); [by apply list_elem_of_In | done].
Qed.

Lemma pick_not_None rec candidates : pick rec candidates <> VNone.
Proof.
  induction candidates as [ | c cs IH]; simpl; [done | ].
  destruct (rec !! c) as [v | ]; [ | done].
  destruct (in_None_or_empty v) eqn:B; simpl; [done | ].
  intros ->. done.
Qed.

Lemma roc_to_western_not_None v : v <> VNone -> roc_to_western v <> VNone.
Proof.
  intros Hv. unfold roc_to_western. destruct (truthy v); simpl; [ | done].
  unfold roc_to_western_try. destruct v; simpl; try done.
  cbn [mbind result_bind].
  destruct (PyStr.split "."%char s) as [ | p0 [ | p1 [ | p2 [ | p3 ps]]]];
    try done.
  destruct (PyStr.int p0); cbn [mbind result_bind]; [ | done].
  destruct (PyStr.int p1); cbn [mbind result_bind]; [ | done].
  destruct (PyStr.int p2); cbn [mbind result_bind]; done.
Qed.

Lemma output_value_not_None date_field rec field candidates :
  output_value date_field rec field candidates <> VNone.
Proof.
  unfold output_value. case_bool_decide.
  - apply roc_to_western_not_None, pick_not_None.
  - apply pick_not_None.
Qed.

(** In a normalized record every value is the value of an output
    field. *)
Lemma normalize_record_values rec d field v :
  normalize_record rec = Ret d -> d !! field = Some v ->
  exists candidates, (field, candidates) ∈ FIELD_SOURCES
    /\ v = output_value DATE_FIELD rec field candidates.
Proof.
  intros Hd Hv.
  destruct (normalize_record_spec rec) as (d' & Hd' & Hdom & Hlook).
  rewrite Hd in Hd'. injection Hd' as <-.
  assert (Hin : field ∈ dom d) by (apply elem_of_dom; eauto).
  rewrite Hdom, <- field_sources_fields, elem_of_list_to_set in Hin.
  apply list_elem_of_fmap in Hin as ([f cs] & -> & Hin). simpl in *.
  exists cs. split; [done | ]. rewrite (Hlook _ _ Hin) in Hv. congruence.
Qed.

End NormalizerMore.
Import NormalizerMore.

(** X7: [normalize_record] reads nothing but the source names of its
    table: two records that agree on these names have the same
    normalized record, whatever other keys they carry. *)
Theorem normalize_record_reads_sources (rec rec' : record) :
  (forall field candidates c, (field, candidates) ∈ FIELD_SOURCES ->
     c ∈ candidates -> rec !! c = rec' !! c) ->
  normalize_record rec = normalize_record rec'.
Proof.
  intros H. rewrite !normalize_record_with. unfold normalize_with.
  by rewrite (picked_ext FIELD_SOURCES rec rec' H).
Qed.

Lemma normalize_record_reads_sources_witness :
  normalize_record (<["Unit" := VStr "kg"]> sample_record)
  = normalize_record sample_record.
Proof.
  apply (normalize_record_reads_sources
           (<["Unit" := VStr "kg"]> sample_record) sample_record).
  intros field candidates c Hin Hc. apply lookup_insert_ne. intros <-.
  apply list_elem_of_In in Hin. vm_compute in Hin.
  repeat (destruct Hin as [Hin | Hin];
          [injection Hin as <- <-; vm_compute in Hc;
           repeat (apply elem_of_cons in Hc as [Hc | Hc]; [discriminate Hc | ]);
           by apply elem_of_nil in Hc | ]).
  destruct Hin.
Defined.

(** X8: no value of a normalized record is [None]: a field with
    nothing to show holds the empty string. *)
Theorem normalize_record_no_None (rec d : record) field v :
  normalize_record rec = Ret d -> d !! field = Some v ->
  v <> VNone /\ (in_None_or_empty v = true -> v = VStr "").
Proof.
  intros Hd Hv.
  destruct (normalize_record_values rec d field v Hd Hv) as (cs & _ & ->).
  split; [apply output_value_not_None | apply output_value_blank].
Qed.

Lemma normalize_record_no_None_witness :
  VStr "" <> VNone /\ (in_None_or_empty (VStr "") = true -> VStr "" = VStr "").
Proof.
  apply (normalize_record_no_None
           (<["上價" := VNone]> sample_record)
           (normalized (<["上價" := VNone]> sample_record)) "上價" (VStr "")).
  - apply normalize_record_normalized.
  - reflexivity.
Defined.

(** X9: the normalizer of [Steven_Crawler全範圍.py] never raises and
    returns exactly its sixteen output fields, each holding the first
    present non-empty value among its source names, or the empty string;
    the date field holds [roc_to_western] of that value. *)
Theorem steven_normalize_record_complete (rec : record) :
  exists d, Steven_Crawler.normalize_record rec = Ret d
    /\ dom d = list_to_set Steven_Crawler.OUTPUT_FIELDS
    /\ forall field candidates,
         (field, candidates) ∈ Steven_FIELD_SOURCES ->
         exists v, first_nonempty rec candidates v
           /\ d !! field
              = Some (if bool_decide (field = Steven_DATE_FIELD)
                      then roc_to_western v else v).
Proof. apply StevenCrawlerFacts.steven_normalize_record_total. Qed.

(** X10: in [Steven_Crawler全範圍.py] the middle price and the average
    price stand in for each other: a record that gives only [中價] has
    its value under both [MiddlePrice] and [AveragePrice], and likewise
    for a record that gives only [平均價]. *)
Theorem steven_prices_stand_in (rec d : record) (name : string) v :
  Steven_Crawler.normalize_record rec = Ret d ->
  name = "中價" \/ name = "平均價" ->
  rec !! name = Some v -> in_None_or_empty v = false ->
  (forall c, c ∈ ["MiddlePrice"; "AveragePrice"; "中價"; "平均價"] ->
             c <> name -> rec !! c = None) ->
  d !! "MiddlePrice" = Some v /\ d !! "AveragePrice" = Some v.
Proof.
  intros Hd Hname Hv Hb Hothers.
  rewrite StevenCrawlerFacts.steven_normalize_record_with in Hd.
  destruct (normalize_with_spec _ _ StevenCrawlerFacts.steven_sources_ok
              StevenCrawlerFacts.steven_date_field_source rec)
    as (d' & Hd' & _ & Hlook).
  rewrite Hd in Hd'. injection Hd' as <-.
  rewrite (Hlook "MiddlePrice" ["MiddlePrice"; "中價"; "平均價"])
    by (apply list_elem_of_In; vm_compute; tauto).
  rewrite (Hlook "AveragePrice" ["AveragePrice"; "平均價"; "中價"])
    by (apply list_elem_of_In; vm_compute; tauto).
  unfold output_value. rewrite !bool_decide_eq_false_2 by done.
  assert (HM : rec !! "MiddlePrice" = None).
  { apply Hothers; [set_solver | destruct Hname as [-> | ->]; done]. }
  assert (HA : rec !! "AveragePrice" = None).
  { apply Hothers; [set_solver | destruct Hname as [-> | ->]; done]. }
  destruct Hname as [-> | ->].
  - assert (HO : rec !! "平均價" = None) by (apply Hothers; [set_solver | done]).
    simpl. by rewrite HM, HA, HO, Hv, Hb.
  - assert (HO : rec !! "中價" = None) by (apply Hothers; [set_solver | done]).
    simpl. by rewrite HM, HA, HO, Hv, Hb.
Qed.

Lemma steven_prices_stand_in_witness :
  exists d, Steven_Crawler.normalize_record {[ "中價" := VInt 30 ]} = Ret d
    /\ d !! "MiddlePrice" = Some (VInt 30)
    /\ d !! "AveragePrice" = Some (VInt 30).
Proof.
  destruct (StevenCrawlerFacts.steven_normalize_record_total
              {[ "中價" := VInt 30 ]}) as (d & Hd & _).
  exists d. split; [done | ].
  apply (steven_prices_stand_in {[ "中價" := VInt 30 ]} d "中價" (VInt 30)).
  - done.
  - by left.
  - reflexivity.
  - reflexivity.
  - intros c Hc Hne. by apply lookup_singleton_ne.
Defined.

(** X11: the sibling normalizer run on its own output keeps every field
    but the date, which it converts once more. *)
Theorem steven_normalize_record_twice (rec d1 : record) :
  Steven_Crawler.normalize_record rec = Ret d1 ->
  exists d2, Steven_Crawler.normalize_record d1 = Ret d2
    /\ (forall field, field <> Steven_DATE_FIELD -> d2 !! field = d1 !! field)
    /\ (exists v, d1 !! Steven_DATE_FIELD = Some v
          /\ d2 !! Steven_DATE_FIELD = Some (roc_to_western v)).
Proof. apply StevenCrawlerFacts.steven_normalize_record_again. Qed.

Lemma steven_normalize_record_twice_witness :
  let d1 := match Steven_Crawler.normalize_record sample_record with
            | Ret d => d
            | Raise _ => ∅
            end in
  exists d2, Steven_Crawler.normalize_record d1 = Ret d2
    /\ (forall field, field <> Steven_DATE_FIELD -> d2 !! field = d1 !! field)
    /\ (exists v, d1 !! Steven_DATE_FIELD = Some v
          /\ d2 !! Steven_DATE_FIELD = Some (roc_to_western v)).
Proof.
  apply (steven_normalize_record_twice sample_record). reflexivity.
Defined.

(** ** The page fetch and the paged fetcher under any upstream *)

Module FetchMore.

Lemma range_succ (k : nat) :
  range (Z.of_nat (S k)) = range (Z.of_nat k) ++ [Z.of_nat k].
Proof.
  unfold range. rewrite !Nat2Z.id, seq_S, map_app. reflexivity.
Qed.

Lemma total_delay_app l1 l2 :
  total_delay (l1 ++ l2) = total_delay l1 + total_delay l2.
Proof.
  unfold total_delay. induction l1 as [ | x l1 IH]; simpl; [done | ].
  rewrite IH. lia.
Qed.

Lemma total_retry_delay (k : nat) :
  2 * total_delay (map retry_delay (range (Z.of_nat k)))
  = RETRY_DELAY_BASE * Z.of_nat k * (Z.of_nat k + 1).
Proof.
  induction k as [ | k IH]; [reflexivity | ].
  rewrite range_succ, map_app, total_delay_app. simpl map.
  unfold total_delay at 2. simpl fold_right. unfold retry_delay at 2.
  unfold RETRY_DELAY_BASE in *. lia.
Qed.

(** The category that let a record through is the one its row shows. *)
Lemma pick_category rec :
  str_strip_is_N05 (category_field rec) = true ->
  pick rec ["CategoryCode"; "種類代碼"] = category_field rec.
Proof.
  unfold category_field, dict_get. simpl.
  destruct (rec !! "CategoryCode") as [v | ].
  - destruct v; simpl; try done. destruct (String.eqb_spec s ""); [ | done].
    by subst.
  - destruct (rec !! "種類代碼") as [v | ]; [ | done].
    destruct v; simpl; try done. destruct (String.eqb_spec s ""); [ | done].
    by subst.
Qed.

Lemma str_strip_is_N05_inv v :
  str_strip_is_N05 v = true -> exists s, v = VStr s /\ PyStr.strip s = "N05".
Proof.
  destruct v; simpl; try done. intros H. apply String.eqb_eq in H. eauto.
Qed.

Lemma normalized_accepted rec :
  str_strip_is_N05 (category_field rec) = true ->
  accepted_row (normalized rec).
Proof.
  intros Hcat. pose proof (normalize_record_normalized rec) as Hn.
  destruct (normalize_record_spec rec) as (d & Hd & Hdom & Hlook).
  rewrite Hn in Hd. injection Hd as <-.
  split; [done | ]. split.
  - destruct (str_strip_is_N05_inv _ Hcat) as (s & Hs & Hstrip).
    exists s. split; [ | done].
    rewrite (Hlook "種類代碼" ["CategoryCode"; "種類代碼"])
      by (apply list_elem_of_In; vm_compute; tauto).
    unfold output_value. rewrite bool_decide_eq_false_2 by done.
    by rewrite pick_category, Hs.
  - intros field v Hv.
    by destruct (NormalizerMore.normalize_record_values _ _ _ _ Hn Hv)
      as (cs & _ & ->); apply NormalizerMore.output_value_not_None.
Qed.

Lemma scan_page_keeps data : forall all_rows rows,
  Forall accepted_row all_rows ->
  scan_page data all_rows = Ret rows -> Forall accepted_row rows.
Proof.
  induction data as [ | v data IH]; intros all_rows rows Hall Hscan.
  - simpl in Hscan. by injection Hscan as <-.
  - destruct v as [ | | | | | | rec]; try discriminate Hscan.
    cbn [scan_page] in Hscan.
    destruct (str_strip_is_N05 (category_field rec)) eqn:Hcat.
    + rewrite normalize_record_normalized in Hscan.
      cbn [mbind result_bind] in Hscan.
      apply (IH _ _ (Forall_app_2 _ _ _ Hall
                       (proj2 (Forall_singleton _ _)
                          (normalized_accepted _ Hcat)))
               Hscan).
    + by apply (IH all_rows).
Qed.

Lemma scan_page_raises data : forall all_rows,
  Exists (fun v => is_dict v = false) data ->
  scan_page data all_rows = Raise AttributeError.
Proof.
  induction data as [ | v data IH]; intros all_rows Hex.
  - by apply Exists_nil in Hex.
  - destruct v as [ | | | | | | rec]; try reflexivity.
    apply Exists_cons in Hex as [Hv | Hex]; [done | ].
    cbn [scan_page]. destruct (str_strip_is_N05 (category_field rec)).
    + rewrite normalize_record_normalized. cbn [mbind result_bind].
      by apply IH.
    + by apply IH.
Qed.

Lemma fetch_pages_keeps fuel ps pe page_top :
  forall all_rows skip w rows w',
  Forall accepted_row all_rows ->
  fetch_pages fuel ps pe page_top all_rows skip w = (Returns rows, w') ->
  Forall accepted_row rows.
Proof.
  induction fuel as [ | fuel IH]; intros all_rows skip w rows w' Hall Hrun;
    [done | ].
  rewrite fetch_pages_S in Hrun. cbv zeta in Hrun.
  destruct (get_json FARM_TRANS_URL (page_params ps pe page_top skip)
              get_json_max_retry get_json_timeout w) as [data w1].
  destruct data as [ | | | | | [ | v data] | ];
    try (injection Hrun as <- _; done).
  destruct (scan_page (v :: data) all_rows) as [rows1 | e] eqn:Hscan;
    [ | done].
  pose proof (scan_page_keeps _ _ _ Hall Hscan) as Hrows1.
  destruct (_ <? _).
  - by injection Hrun as <- _.
  - exact (IH rows1 _ w1 rows w' Hrows1 Hrun).
Qed.

Lemma fetch_pages_bad_page ps pe page_top (page : nat -> pyval) (n : nat)
  (w : world) data fuel :
  (forall j, (j < n)%nat ->
     upstream w (List.length (sent w) + j) (page_request ps pe page_top j)
     = Body (page j)
     /\ full_page page_top (page j)) ->
  upstream w (List.length (sent w) + n) (page_request ps pe page_top n)
  = Body (VList data) ->
  Exists (fun v => is_dict v = false) data ->
  fetch_pages (n + S fuel) ps pe page_top [] 0 w
  = (Raises AttributeError,
     world_after w (map (page_request ps pe page_top) (seq 0 (S n))) []).
Proof.
  intros Hpages Hup Hbad.
  change 0 with (Z.of_nat 0 * page_top).
  rewrite (fetch_pages_run ps pe page_top page n)
    by (intros j Hj; by apply Hpages).
  rewrite fetch_pages_S. cbv zeta.
  rewrite (get_json_first_try _ _ _ (VList data)).
  - destruct data as [ | v data]; [by apply Exists_nil in Hbad | ].
    rewrite scan_page_raises by done.
    rewrite world_after_after, seq_S, map_app. reflexivity.
  - simpl. rewrite length_app, length_map, length_seq. exact Hup.
Qed.

Lemma fetch_pages_down ps pe page_top (w : world) fuel :
  (forall j, (j < 5)%nat -> fails_at w (page_request ps pe page_top 0) j) ->
  fetch_pages (S fuel) ps pe page_top [] 0 w
  = (Returns [],
     world_after w (repeat (page_request ps pe page_top 0) 5)
       [1; 2; 3; 4; 5]).
Proof.
  intros Hfail. change 0 with (Z.of_nat 0 * page_top).
  by apply fetch_pages_gives_up.
Qed.

End FetchMore.
Import FetchMore.

(** X12: when every attempt fails, [get_json] gives up with the empty
    list after [max_retry] requests, having slept after each of them,
    the last one included: [max_retry * (max_retry + 1) / 2] times the
    base delay in all, 15 seconds for the default of 5.  With
    [max_retry <= 0] it makes no request at all. *)
Theorem get_json_exhausted url params max_retry timeout (w : world) :
  (forall k, (k < Z.to_nat max_retry)%nat ->
     fails_at w (mkrequest url params timeout) k) ->
  get_json url params max_retry timeout w
  = (VList [],
     world_after w (repeat (mkrequest url params timeout) (Z.to_nat max_retry))
       (map retry_delay (range max_retry)))
  /\ 2 * total_delay (map retry_delay (range max_retry))
     = RETRY_DELAY_BASE * Z.max 0 max_retry * (Z.max 0 max_retry + 1)
  /\ (max_retry <= 0 -> get_json url params max_retry timeout w = (VList [], w)).
Proof.
  intros Hfail. split; [ | split].
  - unfold get_json. rewrite get_json_for_exhausted.
    + by rewrite range_length.
    + by rewrite range_length.
  - assert (range max_retry = range (Z.of_nat (Z.to_nat max_retry)))
      as -> by (unfold range; by rewrite Nat2Z.id).
    rewrite total_retry_delay. lia.
  - intros Hle. unfold get_json, range.
    replace (Z.to_nat max_retry) with 0%nat by lia. reflexivity.
Qed.

Lemma get_json_exhausted_witness :
  get_json FARM_TRANS_URL ∅ 5 40 (mkworld down_upstream [] [])
  = (VList [],
     world_after (mkworld down_upstream [] [])
       (repeat (mkrequest FARM_TRANS_URL ∅ 40) 5) [1; 2; 3; 4; 5])
  /\ 2 * total_delay [1; 2; 3; 4; 5] = 1 * 5 * 6.
Proof.
  destruct (get_json_exhausted FARM_TRANS_URL ∅ 5 40
              (mkworld down_upstream [] [])) as (H1 & H2 & _).
  - intros k Hk. by exists ConnectionError.
  - split; [exact H1 | exact H2].
Defined.

(** X13: whatever the upstream does, every row that [fetch_period_block]
    returns has exactly the output fields, a category that reads [N05]
    once stripped, and no [None] value. *)
Theorem fetch_period_block_rows fuel ps pe page_top (w w' : world) rows :
  fetch_period_block fuel ps pe page_top w = (Returns rows, w') ->
  Forall accepted_row rows.
Proof. apply fetch_pages_keeps. constructor. Qed.

Lemma fetch_period_block_rows_witness :
  Forall accepted_row
    (match (fetch_period_block 3 (mkdate 2020 1 1) (mkdate 2020 1 10) 2
              (mkworld three_pages [] [])).1 with
     | Returns rows => rows
     | _ => []
     end).
Proof.
  apply (fetch_period_block_rows 3 (mkdate 2020 1 1) (mkdate 2020 1 10) 2
           (mkworld three_pages [] [])
           (fetch_period_block 3 (mkdate 2020 1 1) (mkdate 2020 1 10) 2
              (mkworld three_pages [] [])).2).
  reflexivity.
Defined.

(** X14: the fetcher has no bound on the number of pages: against an
    upstream that answers every request with a full page, every round
    asks for one more page and none is the last. *)
Theorem fetch_period_block_endless fuel ps pe page_top (w : world) body :
  (forall n rq, upstream w n rq = Body body) ->
  full_page page_top body ->
  fetch_period_block fuel ps pe page_top w
  = (OutOfFuel,
     world_after w (map (page_request ps pe page_top) (seq 0 fuel)) []).
Proof.
  intros Hup Hfull. unfold fetch_period_block.
  replace fuel with (fuel + 0)%nat at 1 by lia.
  change 0 with (Z.of_nat 0 * page_top) at 1.
  rewrite (fetch_pages_run ps pe page_top (fun _ => body) fuel); [done | ].
  intros j Hj. split; [apply Hup | done].
Qed.

Lemma fetch_period_block_endless_witness :
  fetch_period_block 50 (mkdate 2020 1 1) (mkdate 2020 1 10) 2
    (mkworld (fun _ _ => Body (VList [sample_row 1 "N05"; sample_row 2 "N05"]))
       [] [])
  = (OutOfFuel,
     world_after
       (mkworld (fun _ _ =>
                   Body (VList [sample_row 1 "N05"; sample_row 2 "N05"])) [] [])
       (map (page_request (mkdate 2020 1 1) (mkdate 2020 1 10) 2) (seq 0 50))
       []).
Proof.
  apply (fetch_period_block_endless 50 (mkdate 2020 1 1) (mkdate 2020 1 10) 2
           _ (VList [sample_row 1 "N05"; sample_row 2 "N05"])).
  - reflexivity.
  - eexists. split; [reflexivity | ]. split; [done | ].
    split; [by repeat constructor | simpl; lia].
Defined.

(** X15: a page that is a list with an element that is not a record
    makes [fetch_period_block] raise [AttributeError]; the rows gathered
    from the pages before it are not returned. *)
Theorem fetch_period_block_bad_page ps pe page_top (page : nat -> pyval)
  (n : nat) (w : world) data :
  (forall j, (j < n)%nat ->
     upstream w (List.length (sent w) + j) (page_request ps pe page_top j)
     = Body (page j)
     /\ full_page page_top (page j)) ->
  upstream w (List.length (sent w) + n) (page_request ps pe page_top n)
  = Body (VList data) ->
  Exists (fun v => is_dict v = false) data ->
  forall fuel, (n < fuel)%nat ->
  fetch_period_block fuel ps pe page_top w
  = (Raises AttributeError,
     world_after w (map (page_request ps pe page_top) (seq 0 (S n))) []).
Proof.
  intros Hpages Hup Hbad fuel Hfuel. unfold fetch_period_block.
  replace fuel with (n + S (fuel - S n))%nat by lia.
  by apply (fetch_pages_bad_page ps pe page_top page n w data).
Qed.

Lemma fetch_period_block_bad_page_witness :
  fetch_period_block 2 (mkdate 2020 1 1) (mkdate 2020 1 10) 2
    (mkworld (fun n _ => if (n =? 0)%nat
                         then Body (VList [sample_row 1 "N05";
                                           sample_row 2 "N05"])
                         else Body (VList [VStr "error"])) [] [])
  = (Raises AttributeError,
     world_after
       (mkworld (fun n _ => if (n =? 0)%nat
                            then Body (VList [sample_row 1 "N05";
                                              sample_row 2 "N05"])
                            else Body (VList [VStr "error"])) [] [])
       (map (page_request (mkdate 2020 1 1) (mkdate 2020 1 10) 2) (seq 0 2))
       []).
Proof.
  apply (fetch_period_block_bad_page (mkdate 2020 1 1) (mkdate 2020 1 10) 2
           (fun _ => VList [sample_row 1 "N05"; sample_row 2 "N05"]) 1
           _ [VStr "error"]).
  - intros [ | j] Hj; [ | lia]. split; [reflexivity | ].
    eexists. split; [reflexivity | ]. split; [done | ].
    split; [by repeat constructor | simpl; lia].
  - reflexivity.
  - by left.
  - lia.
Defined.

(** X16: the filter and the normalizer read the category differently.
    A record whose [CategoryCode] is present but [None] or empty is
    dropped by the fetcher, also when its [種類代碼] is [N05] and its
    normalized record would show [N05]. *)
Theorem scan_page_drops_blank_code (rec : record) v rest all_rows :
  rec !! "CategoryCode" = Some v -> in_None_or_empty v = true ->
  rec !! "種類代碼" = Some (VStr "N05") ->
  scan_page (VDict rec :: rest) all_rows = scan_page rest all_rows
  /\ normalized rec !! "種類代碼" = Some (VStr "N05").
Proof.
  intros Hcode Hblank Hzh. split.
  - cbn [scan_page]. unfold category_field, dict_get. rewrite Hcode.
    destruct v; try discriminate Hblank; [done | ].
    simpl in Hblank. apply String.eqb_eq in Hblank. by subst.
  - pose proof (normalize_record_normalized rec) as Hn.
    destruct (normalize_record_spec rec) as (d & Hd & _ & Hlook).
    rewrite Hn in Hd. injection Hd as <-.
    rewrite (Hlook "種類代碼" ["CategoryCode"; "種類代碼"])
      by (apply list_elem_of_In; vm_compute; tauto).
    unfold output_value. rewrite bool_decide_eq_false_2 by done.
    simpl. by rewrite Hcode, Hblank, Hzh.
Qed.

Lemma scan_page_drops_blank_code_witness :
  scan_page
    [VDict (<["CategoryCode" := VStr ""]> {[ "種類代碼" := VStr "N05" ]})] []
  = Ret []
  /\ normalized (<["CategoryCode" := VStr ""]> {[ "種類代碼" := VStr "N05" ]})
       !! "種類代碼" = Some (VStr "N05").
Proof.
  apply (scan_page_drops_blank_code
           (<["CategoryCode" := VStr ""]> {[ "種類代碼" := VStr "N05" ]})
           (VStr "") [] []).
  - reflexivity.
  - reflexivity.
  - reflexivity.
Defined.

(** ** The period task *)

Module TaskFacts.

Lemma dict_to_list_accepted (r : record) :
  accepted_row r ->
  exists line, dict_to_list OUTPUT_FIELDS r = Ret line /\ line_of r line
    /\ Forall (fun v => v <> VNone) line
    /\ (forallb encodable line = true <-> encodable_row r).
Proof.
  intros (Hdom & _ & Hnone). unfold dict_to_list.
  rewrite bool_decide_eq_true_2 by (by rewrite Hdom).
  eexists. split; [reflexivity | ].
  assert (forall key, key ∈ OUTPUT_FIELDS ->
            exists v, r !! key = Some v /\ dict_get r key (VStr "") = v)
    as Hget.
  { intros key Hkey.
    assert (key ∈ dom r) as Hin
      by (rewrite Hdom; by apply elem_of_list_to_set).
    apply elem_of_dom in Hin as [v Hv]. exists v. split; [done | ].
    unfold dict_get. by rewrite Hv. }
  split; [split | split].
  - by rewrite length_map.
  - intros i key Hi. rewrite list_lookup_fmap, Hi. simpl.
    destruct (Hget key) as (v & -> & ->); [ | done].
    by eapply list_elem_of_lookup_2.
  - apply Forall_fmap, Forall_forall. intros key Hkey. simpl.
    destruct (Hget key Hkey) as (v & Hv & ->). by eapply Hnone.
  - rewrite forallb_forall. split.
    + intros Hall field v Hv. apply Hall, in_map_iff. exists field.
      assert (field ∈ OUTPUT_FIELDS) as Hin.
      { apply (elem_of_list_to_set (C := gset string)). rewrite <- Hdom.
        by apply elem_of_dom. }
      split; [ | by apply list_elem_of_In].
      unfold dict_get. by rewrite Hv.
    + intros Hrow v Hin. apply in_map_iff in Hin as (key & <- & Hkey).
      apply list_elem_of_In in Hkey.
      destruct (Hget key Hkey) as (v & Hv & ->). by eapply Hrow.
Qed.

(** The rows are written up to the first one that cannot be encoded. *)
Lemma write_rows_accepted rows : forall file,
  Forall accepted_row rows ->
  exists written lines e,
    write_rows rows file = (file ++ lines, e)
    /\ Forall2 line_of written lines
    /\ Forall encodable_row written
    /\ Forall (fun line => List.length line = 11%nat
                          /\ Forall (fun v => v <> VNone) line
                          /\ Forall (fun v => encodable v = true) line)
         lines
    /\ (e = None /\ written = rows
        \/ e = Some UnicodeEncodeError
           /\ exists r after, rows = written ++ r :: after
                /\ ~ encodable_row r).
Proof.
  induction rows as [ | r rows IH]; intros file Hrows.
  - exists [], [], None. simpl. rewrite app_nil_r.
    split; [done | ]. do 3 (split; [constructor | ]). by left.
  - apply Forall_cons in Hrows as [Hr Hrows].
    destruct (dict_to_list_accepted r Hr) as (line & Hline & Hof & Hnn & Henc).
    cbn [write_rows]. rewrite Hline.
    destruct (forallb encodable line) eqn:Hline_enc.
    + destruct (IH (file ++ [line]) Hrows)
        as (written & lines & e & Hw & Hall & Hencs & Hnns & Hend).
      exists (r :: written), (line :: lines), e. rewrite Hw, <- app_assoc.
      split; [done | ]. split; [by constructor | ].
      split; [constructor; [by apply Henc | done] | ].
      split.
      { constructor; [ | done]. split; [by destruct Hof | ].
        split; [done | ].
        apply Forall_forall. intros v Hv.
        by apply (proj1 (forallb_forall _ _) Hline_enc), list_elem_of_In. }
      destruct Hend as [[-> ->] | (-> & r' & after & -> & Hr')];
        [by left | right].
      split; [done | ]. by exists r', after.
    + exists [], [], (Some UnicodeEncodeError). rewrite app_nil_r.
      split; [done | ]. do 3 (split; [constructor | ]).
      right. split; [done | ].
      exists r, rows. split; [done | ].
      intros Hrow. apply Henc in Hrow. congruence.
Qed.

Lemma write_rows_encodable rows file :
  Forall accepted_row rows -> Forall encodable_row rows ->
  exists lines,
    write_rows rows file = (file ++ lines, None)
    /\ Forall2 line_of rows lines
    /\ Forall (fun line => Forall (fun v => v <> VNone) line) lines.
Proof.
  intros Hrows Henc.
  destruct (write_rows_accepted rows file Hrows)
    as (written & lines & e & Hw & Hall & _ & Hnn & Hend).
  destruct Hend as [[-> ->] | (_ & r & after & -> & Hr)].
  - exists lines. split; [done | ]. split; [done | ].
    eapply Forall_impl; [exact Hnn | ]. by intros line (_ & H & _).
  - apply Forall_app in Henc as [_ Henc].
    by apply Forall_cons in Henc as [Henc _].
Qed.

Lemma record_period_writes rows total_tasks (s : env) :
  rows <> [] -> can_append s = true ->
  record_period rows total_tasks s
  = match write_rows rows (csv_file s) with
    | (file, Some e) =>
      (TaskRaises e, mkenv (net s) (can_append s) file (completed_tasks s))
    | (file, None) =>
      (match int_truediv_raises (completed_tasks s + 1) total_tasks with
       | Some e => TaskRaises e
       | None => TaskReturns (Z.of_nat (List.length rows))
       end,
       mkenv (net s) (can_append s) file (completed_tasks s + 1))
    end.
Proof.
  intros Hne Hcan. unfold record_period. destruct rows; [done | ].
  rewrite Hcan. destruct (write_rows _ _) as [file [e | ]]; [done | ].
  simpl. by destruct (int_truediv_raises _ _).
Qed.

(** After the fetch: the rows go to the file, if there are any, and the
    counter advances; the division of the progress line decides whether
    the count is returned. *)
Lemma record_period_accepted rows total_tasks (s : env) :
  Forall accepted_row rows -> Forall encodable_row rows ->
  rows = [] \/ can_append s = true ->
  exists lines,
    record_period rows total_tasks s
    = (match int_truediv_raises (completed_tasks s + 1) total_tasks with
       | Some e => TaskRaises e
       | None => TaskReturns (Z.of_nat (List.length rows))
       end, env_after s (net s) lines)
    /\ Forall2 line_of rows lines
    /\ Forall (fun line => Forall (fun v => v <> VNone) line) lines.
Proof.
  intros Hrows Henc Hcan. unfold env_after.
  destruct (decide (rows = [])) as [-> | Hne].
  - exists []. rewrite app_nil_r. unfold record_period. simpl.
    destruct (int_truediv_raises _ _); by repeat split.
  - destruct Hcan as [ | Hcan]; [done | ].
    rewrite record_period_writes by done.
    destruct (write_rows_encodable rows (csv_file s) Hrows Henc)
      as (lines & -> & Hall & Hnn).
    by exists lines.
Qed.

(** A row that cannot be encoded stops the task before the progress
    update. *)
Lemma record_period_stopped before r after total_tasks (s : env) :
  Forall accepted_row (before ++ r :: after) ->
  Forall encodable_row before -> ~ encodable_row r ->
  can_append s = true ->
  exists lines,
    record_period (before ++ r :: after) total_tasks s
    = (TaskRaises UnicodeEncodeError, env_stopped s (net s) lines)
    /\ Forall2 line_of before lines.
Proof.
  intros Hrows Hbefore Hr Hcan. unfold env_stopped.
  rewrite record_period_writes by (by destruct before).
  destruct (write_rows_accepted _ (csv_file s) Hrows)
    as (written & lines & e & -> & Hall & Henc & _ & Hend).
  destruct Hend as [[-> ->] | (-> & r' & after' & Heq & Hr')].
  - apply Forall_app in Henc as [_ Henc].
    by apply Forall_cons in Henc as [Henc _].
  - exists lines. split; [done | ].
    assert (written = before) as ->; [ | done].
    clear -Heq Hbefore Henc Hr Hr'.
    revert written Heq Henc.
    induction before as [ | b before IH]; intros written Heq Henc.
    + destruct written as [ | x written]; [done | ].
      injection Heq as <- _. by apply Forall_cons in Henc as [Henc _].
    + apply Forall_cons in Hbefore as [Hb Hbefore].
      destruct written as [ | x written].
      * injection Heq as -> _. done.
      * injection Heq as <- Heq. apply Forall_cons in Henc as [_ Henc].
        f_equal. by apply IH.
Qed.

Lemma record_period_cannot_append rows total_tasks (s : env) :
  rows <> [] -> can_append s = false ->
  record_period rows total_tasks s = (TaskRaises OSError, s).
Proof.
  intros Hne Hcan. unfold record_period.
  destruct rows; [done | ]. by rewrite Hcan.
Qed.

(** However the part after the fetch ends. *)
Lemma record_period_cases rows total_tasks (s : env) :
  Forall accepted_row rows ->
  exists written lines,
    Forall2 line_of written lines
    /\ Forall encodable_row written
    /\ Forall (fun line => List.length line = 11%nat
                          /\ Forall (fun v => v <> VNone) line
                          /\ Forall (fun v => encodable v = true) line)
         lines
    /\ (record_period rows total_tasks s
        = (match int_truediv_raises (completed_tasks s + 1) total_tasks with
           | Some e => TaskRaises e
           | None => TaskReturns (Z.of_nat (List.length rows))
           end, env_after s (net s) lines)
        /\ written = rows
        \/ record_period rows total_tasks s
           = (TaskRaises UnicodeEncodeError, env_stopped s (net s) lines)
        \/ record_period rows total_tasks s = (TaskRaises OSError, s)
           /\ lines = []).
Proof.
  intros Hrows.
  destruct (decide (rows = [])) as [-> | Hne].
  - exists [], []. do 3 (split; [constructor | ]). left.
    unfold record_period, env_after. rewrite app_nil_r. simpl.
    split; [ | done]. by destruct (int_truediv_raises _ _).
  - destruct (can_append s) eqn:Hcan.
    + destruct (write_rows_accepted rows (csv_file s) Hrows)
        as (written & lines & e & Hw & Hall & Henc & Hnn & Hend).
      exists written, lines. split; [done | ]. split; [done | ].
      split; [done | ].
      rewrite record_period_writes, Hw by done.
      unfold env_after, env_stopped. rewrite Hcan.
      destruct Hend as [[-> ->] | (-> & _)]; [by left | right; by left].
    + exists [], []. do 3 (split; [constructor | ]). right. right.
      split; [ | done]. by apply record_period_cannot_append.
Qed.

Lemma process_period_fetched fuel p_start p_end total_tasks (s : env) :
  process_period fuel p_start p_end total_tasks s
  = match fetch_period_block fuel p_start p_end fetch_period_block_page_top
            (net s) with
    | (Returns rows, w1) => record_period rows total_tasks (env_fetched s w1)
    | (Raises e, w1) => (TaskRaises (Exn e), env_fetched s w1)
    | (OutOfFuel, w1) => (TaskOutOfFuel, env_fetched s w1)
    end.
Proof.
  unfold process_period.
  by destruct (fetch_period_block _ _ _ _ _) as [[rows | e | ] w1].
Qed.

Lemma line_of_length r line : line_of r line -> List.length line = 11%nat.
Proof. by intros [-> _]. Qed.

(** A row with the output fields can be encoded if each of them can. *)
Lemma encodable_row_fields (r : record) :
  dom r = list_to_set OUTPUT_FIELDS ->
  forallb (fun key => encodable (dict_get r key VNone)) OUTPUT_FIELDS = true ->
  encodable_row r.
Proof.
  intros Hdom Hall field v Hv.
  assert (field ∈ OUTPUT_FIELDS) as Hin.
  { apply (elem_of_list_to_set (C := gset string)). rewrite <- Hdom.
    by apply elem_of_dom. }
  apply list_elem_of_In in Hin.
  pose proof (proj1 (forallb_forall _ _) Hall field Hin) as H.
  unfold dict_get in H. by rewrite Hv in H.
Qed.

Lemma int_truediv_progress (completed total_tasks : Z) :
  0 <= completed < total_tasks ->
  int_truediv_raises (completed + 1) total_tasks = None.
Proof.
  intros H. unfold int_truediv_raises.
  destruct (Z.eqb_spec total_tasks 0); [lia | ].
  destruct (Z.leb_spec (DBL_OVERFLOW * Z.abs total_tasks)
              (Z.abs (completed + 1))) as [Hle | ]; [ | done].
  assert (2 <= DBL_OVERFLOW) by (by vm_compute).
  nia.
Qed.

End TaskFacts.
Import TaskFacts.

(** X17: a period task whose fetch returns rows that the file's codec
    can encode appends one line for each fetched row, in their order,
    each with the row's own eleven values (the writer never raises on
    such a row and never fills a field in); it advances the counter by
    one and returns the number of rows.  With no row, it does not open
    the file. *)
Theorem process_period_returns fuel p_start p_end total_tasks (s : env)
  rows (w' : world) :
  fetch_period_block fuel p_start p_end fetch_period_block_page_top (net s)
  = (Returns rows, w') ->
  Forall encodable_row rows ->
  rows = [] \/ can_append s = true ->
  0 <= completed_tasks s < total_tasks ->
  exists lines,
    process_period fuel p_start p_end total_tasks s
    = (TaskReturns (Z.of_nat (List.length rows)), env_after s w' lines)
    /\ Forall2 line_of rows lines
    /\ Forall (fun line => Forall (fun v => v <> VNone) line) lines.
Proof.
  intros Hfetch Henc Hcan Hprogress.
  rewrite process_period_fetched, Hfetch.
  destruct (record_period_accepted rows total_tasks (env_fetched s w'))
    as (lines & Hrec & Hlines & Hnn); [ | done | done | ].
  - eapply fetch_pages_keeps; [constructor | exact Hfetch].
  - exists lines. rewrite Hrec. simpl.
    by rewrite int_truediv_progress.
Qed.

Lemma process_period_returns_witness :
  exists lines,
    process_period 1 (mkdate 2020 1 1) (mkdate 2020 1 10) 208
      (mkenv (mkworld three_pages [] []) true [] 0)
    = (TaskReturns 1,
       env_after (mkenv (mkworld three_pages [] []) true [] 0)
         (world_after (mkworld three_pages [] [])
            [page_request (mkdate 2020 1 1) (mkdate 2020 1 10) 2000 0] [])
         lines)
    /\ Forall2 line_of [normalized (dict_display
                                      [ ("TransDate", VStr "109.01.01");
                                        ("CategoryCode", VStr "N05");
                                        ("上價", VInt 1) ])] lines
    /\ Forall (fun line => Forall (fun v => v <> VNone) line) lines.
Proof.
  apply (process_period_returns 1 (mkdate 2020 1 1) (mkdate 2020 1 10) 208
           (mkenv (mkworld three_pages [] []) true [] 0)
           [normalized (dict_display [ ("TransDate", VStr "109.01.01");
                                         ("CategoryCode", VStr "N05");
                                         ("上價", VInt 1) ])]
           (world_after (mkworld three_pages [] [])
              [page_request (mkdate 2020 1 1) (mkdate 2020 1 10) 2000 0] [])).
  - reflexivity.
  - apply Forall_singleton. apply encodable_row_fields; reflexivity.
  - right. reflexivity.
  - simpl. lia.
Defined.

(** X18: whatever the upstream does and however the task ends, it leaves
    the file a longer or equal file: what was there stays, and each line
    added has eleven values that the file's codec can encode, none of
    them [None].  The counter is advanced by one or not at all; lines
    are added without the counter being advanced only by a task that
    raises [UnicodeEncodeError], stopped by a row that cannot be
    encoded.  A count that is returned is the number of lines added. *)
Theorem process_period_invariant fuel p_start p_end total_tasks
  (s s' : env) (o : task_outcome) :
  process_period fuel p_start p_end total_tasks s = (o, s') ->
  can_append s' = can_append s
  /\ exists lines,
       csv_file s' = csv_file s ++ lines
       /\ Forall (fun line => List.length line = 11%nat
                             /\ Forall (fun v => v <> VNone) line
                             /\ Forall (fun v => encodable v = true) line)
            lines
       /\ (completed_tasks s' = completed_tasks s + 1
           \/ completed_tasks s' = completed_tasks s
              /\ (lines = [] \/ o = TaskRaises UnicodeEncodeError))
       /\ forall n, o = TaskReturns n ->
            n = Z.of_nat (List.length lines)
            /\ completed_tasks s' = completed_tasks s + 1.
Proof.
  rewrite process_period_fetched.
  destruct (fetch_period_block _ _ _ _ _) as [[rows | e | ] w1] eqn:Hfetch.
  - assert (Forall accepted_row rows) as Hrows
      by (eapply fetch_pages_keeps; [constructor | exact Hfetch]).
    destruct (record_period_cases rows total_tasks (env_fetched s w1) Hrows)
      as (written & lines & Hl & Henc & Hnn & Hcases).
    destruct Hcases as [[Hrec ->] | [Hrec | [Hrec Hnil]]]; rewrite Hrec;
      intros [= <- <-]; (split; [done | ]); exists lines; simpl.
    + split; [done | ]. split; [done | ]. split; [by left | ].
      intros n. destruct (int_truediv_raises _ _); [done | ].
      intros [= <-]. split; [ | done]. by rewrite (Forall2_length _ _ _ Hl).
    + split; [done | ]. split; [done | ].
      split; [right; split; [done | by right] | done].
    + rewrite Hnil, app_nil_r. split; [done | ]. split; [constructor | ].
      split; [right; split; [done | by left] | done].
  - intros [= <- <-]. split; [done | ]. exists []. simpl.
    rewrite app_nil_r.
    repeat split; [constructor | right; split; [done | by left] | done | done].
  - intros [= <- <-]. split; [done | ]. exists []. simpl.
    rewrite app_nil_r.
    repeat split; [constructor | right; split; [done | by left] | done | done].
Qed.

Lemma process_period_invariant_witness :
  let s := mkenv (mkworld surrogate_upstream [] []) true [] 0 in
  let run := process_period 1 (mkdate 2020 1 1) (mkdate 2020 1 10) 208 s in
  can_append run.2 = can_append s
  /\ exists lines,
       csv_file run.2 = csv_file s ++ lines
       /\ Forall (fun line => List.length line = 11%nat
                             /\ Forall (fun v => v <> VNone) line
                             /\ Forall (fun v => encodable v = true) line)
            lines
       /\ (completed_tasks run.2 = completed_tasks s + 1
           \/ completed_tasks run.2 = completed_tasks s
              /\ (lines = [] \/ run.1 = TaskRaises UnicodeEncodeError))
       /\ forall n, run.1 = TaskReturns n ->
            n = Z.of_nat (List.length lines)
            /\ completed_tasks run.2 = completed_tasks s + 1.
Proof.
  intros s run.
  apply (process_period_invariant 1 (mkdate 2020 1 1) (mkdate 2020 1 10) 208
           s run.2 run.1).
  reflexivity.
Defined.

(** X19: the progress line divides by [total_tasks] after the rows are
    written and the counter is advanced.  When the rows can be encoded
    and that division raises (with [total_tasks] zero:
    [ZeroDivisionError]), the task raises with the lines in the file
    and the counter advanced; the number of rows is not returned. *)
Theorem process_period_division_raises fuel p_start p_end total_tasks
  (s : env) rows (w' : world) (e : task_exn) :
  fetch_period_block fuel p_start p_end fetch_period_block_page_top (net s)
  = (Returns rows, w') ->
  Forall encodable_row rows ->
  rows = [] \/ can_append s = true ->
  int_truediv_raises (completed_tasks s + 1) total_tasks = Some e ->
  (total_tasks = 0 -> e = ZeroDivisionError)
  /\ exists lines,
       process_period fuel p_start p_end total_tasks s
       = (TaskRaises e, env_after s w' lines)
       /\ Forall2 line_of rows lines.
Proof.
  intros Hfetch Henc Hcan Hdiv. split.
  - intros ->. unfold int_truediv_raises in Hdiv. simpl in Hdiv. congruence.
  - rewrite process_period_fetched, Hfetch.
    destruct (record_period_accepted rows total_tasks (env_fetched s w'))
      as (lines & Hrec & Hlines & _); [ | done | done | ].
    + eapply fetch_pages_keeps; [constructor | exact Hfetch].
    + exists lines. rewrite Hrec. simpl. by rewrite Hdiv.
Qed.

Lemma process_period_division_raises_witness :
  (0 = 0 -> ZeroDivisionError = ZeroDivisionError)
  /\ exists lines,
       process_period 1 (mkdate 2020 1 1) (mkdate 2020 1 10) 0
         (mkenv (mkworld three_pages [] []) true [] 0)
       = (TaskRaises ZeroDivisionError,
          env_after (mkenv (mkworld three_pages [] []) true [] 0)
            (world_after (mkworld three_pages [] [])
               [page_request (mkdate 2020 1 1) (mkdate 2020 1 10) 2000 0] [])
            lines)
       /\ Forall2 line_of [normalized (dict_display
                                         [ ("TransDate", VStr "109.01.01");
                                           ("CategoryCode", VStr "N05");
                                           ("上價", VInt 1) ])] lines.
Proof.
  apply (process_period_division_raises 1 (mkdate 2020 1 1)
           (mkdate 2020 1 10) 0
           (mkenv (mkworld three_pages [] []) true [] 0)
           [normalized (dict_display [ ("TransDate", VStr "109.01.01");
                                         ("CategoryCode", VStr "N05");
                                         ("上價", VInt 1) ])]
           (world_after (mkworld three_pages [] [])
              [page_request (mkdate 2020 1 1) (mkdate 2020 1 10) 2000 0] [])
           ZeroDivisionError).
  - reflexivity.
  - apply Forall_singleton. apply encodable_row_fields; reflexivity.
  - right. reflexivity.
  - reflexivity.
Defined.

(** X29: a fetched row with a value that the file's codec cannot
    encode, a string with a surrogate, stops the task: it raises
    [UnicodeEncodeError] with the lines of the rows before it in the
    file, the rows after it lost, and the counter not advanced. *)
Theorem process_period_encode_error fuel p_start p_end total_tasks
  (s : env) before r after (w' : world) :
  fetch_period_block fuel p_start p_end fetch_period_block_page_top (net s)
  = (Returns (before ++ r :: after), w') ->
  Forall encodable_row before -> ~ encodable_row r ->
  can_append s = true ->
  exists lines,
    process_period fuel p_start p_end total_tasks s
    = (TaskRaises UnicodeEncodeError, env_stopped s w' lines)
    /\ Forall2 line_of before lines.
Proof.
  intros Hfetch Hbefore Hr Hcan.
  rewrite process_period_fetched, Hfetch.
  apply (record_period_stopped before r after total_tasks (env_fetched s w'));
    try done.
  eapply fetch_pages_keeps; [constructor | exact Hfetch].
Qed.

Lemma process_period_encode_error_witness :
  exists lines,
    process_period 1 (mkdate 2020 1 1) (mkdate 2020 1 10) 208
      (mkenv (mkworld surrogate_upstream [] []) true [] 0)
    = (TaskRaises UnicodeEncodeError,
       env_stopped (mkenv (mkworld surrogate_upstream [] []) true [] 0)
         (world_after (mkworld surrogate_upstream [] [])
            [page_request (mkdate 2020 1 1) (mkdate 2020 1 10) 2000 0] [])
         lines)
    /\ Forall2 line_of [normalized (dict_display
                                      [ ("TransDate", VStr "109.01.01");
                                        ("CategoryCode", VStr "N05");
                                        ("上價", VInt 1) ])] lines.
Proof.
  apply (process_period_encode_error 1 (mkdate 2020 1 1) (mkdate 2020 1 10)
           208 (mkenv (mkworld surrogate_upstream [] []) true [] 0)
           [normalized (dict_display [ ("TransDate", VStr "109.01.01");
                                         ("CategoryCode", VStr "N05");
                                         ("上價", VInt 1) ])]
           (normalized (dict_display [ ("CategoryCode", VStr "N05");
                                       ("MarketName", VStr lone_surrogate) ]))
           [normalized (dict_display [ ("TransDate", VStr "109.01.01");
                                         ("CategoryCode", VStr "N05");
                                         ("上價", VInt 3) ])]).
  - reflexivity.
  - apply Forall_singleton. apply encodable_row_fields; reflexivity.
  - intros Hrow.
    specialize (Hrow "市場名稱" (VStr lone_surrogate) eq_refl).
    discriminate Hrow.
  - reflexivity.
Defined.

(** X20: a period whose first page request fails five times ends like a
    period with no data: the task returns 0, leaves the file as it is,
    and counts the period as completed. *)
Theorem process_period_upstream_down fuel p_start p_end total_tasks
  (s : env) :
  (forall j, (j < 5)%nat ->
     fails_at (net s)
       (page_request p_start p_end fetch_period_block_page_top 0) j) ->
  0 <= completed_tasks s < total_tasks ->
  process_period (S fuel) p_start p_end total_tasks s
  = (TaskReturns 0,
     mkenv
       (world_after (net s)
          (repeat (page_request p_start p_end fetch_period_block_page_top 0)
             5) [1; 2; 3; 4; 5])
       (can_append s) (csv_file s) (completed_tasks s + 1)).
Proof.
  intros Hfail Hprogress. rewrite process_period_fetched.
  unfold fetch_period_block. rewrite fetch_pages_down by done.
  unfold record_period. simpl. by rewrite int_truediv_progress.
Qed.

Lemma process_period_upstream_down_witness :
  process_period 1 (mkdate 2020 1 1) (mkdate 2020 1 10) 208
    (mkenv (mkworld down_upstream [] []) false [] 7)
  = (TaskReturns 0,
     mkenv
       (world_after (mkworld down_upstream [] [])
          (repeat (page_request (mkdate 2020 1 1) (mkdate 2020 1 10)
                     fetch_period_block_page_top 0) 5) [1; 2; 3; 4; 5])
       false [] 8).
Proof.
  apply (process_period_upstream_down 0 (mkdate 2020 1 1) (mkdate 2020 1 10)
           208 (mkenv (mkworld down_upstream [] []) false [] 7)).
  - intros j Hj. by exists ConnectionError.
  - simpl. lia.
Defined.

(** X21: a page with an element that is not a record makes the task
    raise [AttributeError]: nothing is written, although the pages
    before it were fetched, and the counter is not advanced. *)
Theorem process_period_bad_page p_start p_end total_tasks (s : env)
  (page : nat -> pyval) (n : nat) data :
  (forall j, (j < n)%nat ->
     upstream (net s) (List.length (sent (net s)) + j)
       (page_request p_start p_end fetch_period_block_page_top j)
     = Body (page j)
     /\ full_page fetch_period_block_page_top (page j)) ->
  upstream (net s) (List.length (sent (net s)) + n)
    (page_request p_start p_end fetch_period_block_page_top n)
  = Body (VList data) ->
  Exists (fun v => is_dict v = false) data ->
  forall fuel, (n < fuel)%nat ->
  process_period fuel p_start p_end total_tasks s
  = (TaskRaises (Exn AttributeError),
     env_fetched s
       (world_after (net s)
          (map (page_request p_start p_end fetch_period_block_page_top)
             (seq 0 (S n))) [])).
Proof.
  intros Hpages Hup Hbad fuel Hfuel. rewrite process_period_fetched.
  unfold fetch_period_block.
  replace fuel with (n + S (fuel - S n))%nat by lia.
  by rewrite (fetch_pages_bad_page _ _ _ page n _ data).
Qed.

Lemma process_period_bad_page_witness :
  process_period 1 (mkdate 2020 1 1) (mkdate 2020 1 10) 208
    (mkenv (mkworld garbled_upstream [] []) true [] 0)
  = (TaskRaises (Exn AttributeError),
     env_fetched (mkenv (mkworld garbled_upstream [] []) true [] 0)
       (world_after (mkworld garbled_upstream [] [])
          (map (page_request (mkdate 2020 1 1) (mkdate 2020 1 10)
                  fetch_period_block_page_top) (seq 0 1)) [])).
Proof.
  apply (process_period_bad_page (mkdate 2020 1 1) (mkdate 2020 1 10) 208
           (mkenv (mkworld garbled_upstream [] []) true [] 0)
           (fun _ => VNone) 0 [VStr "error"]).
  - intros j Hj. lia.
  - reflexivity.
  - by left.
  - lia.
Defined.

(** ** The crop table *)

Module CropFacts.

Lemma prefix_app kw s b :
  String.prefix kw s = true -> String.prefix kw (s ++ b) = true.
Proof.
  revert s. induction kw as [ | c kw IH]; intros s H;
    [by destruct (s ++ b)%string | ].
  destruct s as [ | c' s]; [done | ]. simpl in *.
  destruct (ascii_dec c c'); [by apply IH | done].
Qed.

Lemma str_contains_app_r kw s b :
  str_contains kw s = true -> str_contains kw (s ++ b) = true.
Proof.
  induction s as [ | c s IH]; intros H.
  - simpl in H. rewrite orb_false_r in H.
    destruct kw; [ | done]. by destruct b.
  - cbn [str_contains] in H. apply orb_true_iff in H as [H | H].
    + change (String c s ++ b)%string with (String c (s ++ b)).
      cbn [str_contains]. apply orb_true_iff. left.
      by apply (prefix_app kw (String c s) b).
    + change (String c s ++ b)%string with (String c (s ++ b)).
      cbn [str_contains]. apply orb_true_iff. right. by apply IH.
Qed.

Lemma str_contains_app_l kw a s :
  str_contains kw s = true -> str_contains kw (a ++ s) = true.
Proof.
  intros H. induction a as [ | c a IH]; [done | ].
  change (String c a ++ s)%string with (String c (a ++ s)).
  cbn [str_contains]. apply orb_true_iff. by right.
Qed.

Section Rows.

Variable py_str : pyval -> string.

Local Abbreviation taken row :=
  (is_vege_or_fruit py_str row
   && negb (String.eqb (get_crop_code py_str row) "")).

Local Abbreviation named row :=
  (taken row && negb (String.eqb (get_crop_name py_str row) "")).

Lemma crop_rows_dict row rest codes names :
  crop_rows py_str (VDict row :: rest) codes names
  = crop_rows py_str rest
      (if taken row then codes ∪ {[ get_crop_code py_str row ]} else codes)
      (if named row
       then <[get_crop_code py_str row := get_crop_name py_str row]> names
       else names).
Proof.
  cbn [crop_rows].
  destruct (is_vege_or_fruit py_str row); [ | done].
  destruct (String.eqb (get_crop_code py_str row) ""); [done | ].
  by destruct (String.eqb (get_crop_name py_str row) "").
Qed.

Lemma crop_rows_not_dict v rest codes names :
  is_dict v = false ->
  crop_rows py_str (v :: rest) codes names = Raise AttributeError.
Proof. by destruct v. Qed.

Lemma named_names_code row :
  named row = true <-> names_code py_str (get_crop_code py_str row) (VDict row)
                       /\ get_crop_code py_str row <> "".
Proof.
  rewrite !andb_true_iff, !negb_true_iff, !String.eqb_neq. split.
  - intros [[Hv Hc] Hn]. split; [ | done]. by exists row.
  - intros [(row' & [= <-] & Hv & _ & Hn) Hc]. done.
Qed.

Lemma crop_rows_sound rows : forall codes0 names0 codes names,
  crop_rows py_str rows codes0 names0 = Ret (codes, names) ->
  (forall code, code ∈ codes <->
     code ∈ codes0
     \/ code <> "" /\ exists row, crop_row py_str rows code row)
  /\ (forall code name, names !! code = Some name ->
        names0 !! code = Some name
        \/ name <> "" /\ code <> ""
           /\ exists row, crop_row py_str rows code row
                /\ get_crop_name py_str row = name).
Proof.
  induction rows as [ | v rows IH]; intros codes0 names0 codes names Hrun.
  - simpl in Hrun. injection Hrun as <- <-. split.
    + intros code. split; [by left | ].
      intros [ | (_ & row & Hin & _)]; [done | ]. by apply elem_of_nil in Hin.
    + intros code name. by left.
  - destruct v as [ | | | | | | row]; try discriminate Hrun.
    rewrite crop_rows_dict in Hrun.
    destruct (IH _ _ _ _ Hrun) as [Hcodes Hnames]. clear IH Hrun. split.
    + intros code. rewrite Hcodes. clear Hcodes Hnames. split.
      * intros [Hin | (Hne & row' & Hin & Hv & Hc)].
        -- destruct (taken row) eqn:Ht; [ | by left].
           apply elem_of_union in Hin as [ | Hin]; [by left | ].
           apply elem_of_singleton in Hin as ->.
           apply andb_true_iff in Ht as [Hv Hc].
           apply negb_true_iff, String.eqb_neq in Hc.
           right. split; [done | ]. exists row.
           split; [by left | done].
        -- right. split; [done | ]. exists row'. split; [by right | done].
      * intros [Hin | (Hne & row' & Hin & Hv & Hc)].
        -- left. destruct (taken row); [ | done].
           apply elem_of_union. by left.
        -- apply elem_of_cons in Hin as [[= <-] | Hin].
           ++ left. rewrite Hv, Hc. simpl.
              apply String.eqb_neq in Hne. rewrite Hne. simpl.
              apply elem_of_union. right. by apply elem_of_singleton.
           ++ right. split; [done | ]. by exists row'.
    + intros code name Hlook.
      destruct (Hnames _ _ Hlook)
        as [Hin | (Hn & Hc & row' & (Hin & Hv & Hcode) & Hname)].
      * destruct (named row) eqn:Ht; [ | by left].
        destruct (decide (get_crop_code py_str row = code)) as [Heq | Hneq].
        -- rewrite Heq, lookup_insert_eq in Hin. injection Hin as <-.
           apply andb_true_iff in Ht as [Ht Hn].
           apply andb_true_iff in Ht as [Hv Hc].
           apply negb_true_iff, String.eqb_neq in Hn, Hc.
           right. split; [done | ]. split; [congruence | ].
           exists row. split; [ | done]. split; [by left | done].
        -- rewrite lookup_insert_ne in Hin by done. by left.
      * right. split; [done | ]. split; [done | ]. exists row'.
        split; [ | done]. split; [by right | done].
Qed.

Lemma crop_rows_app l1 : forall l2 codes names,
  crop_rows py_str (l1 ++ l2) codes names
  = match crop_rows py_str l1 codes names with
    | Ret (codes1, names1) => crop_rows py_str l2 codes1 names1
    | Raise e => Raise e
    end.
Proof.
  induction l1 as [ | v l1 IH]; intros l2 codes names; [done | ].
  destruct v as [ | | | | | | row]; try reflexivity.
  change ((VDict row :: l1) ++ l2) with (VDict row :: (l1 ++ l2)).
  by rewrite !crop_rows_dict, IH.
Qed.

Lemma crop_rows_keeps_name code rows : forall codes0 names0 codes names,
  Forall (fun v => ~ names_code py_str code v) rows ->
  crop_rows py_str rows codes0 names0 = Ret (codes, names) ->
  names !! code = names0 !! code.
Proof.
  induction rows as [ | v rows IH]; intros codes0 names0 codes names Hno Hrun.
  - simpl in Hrun. by injection Hrun as <- <-.
  - apply Forall_cons in Hno as [Hv Hno].
    destruct v as [ | | | | | | row]; try discriminate Hrun.
    rewrite crop_rows_dict in Hrun.
    rewrite (IH _ _ _ _ Hno Hrun).
    destruct (named row) eqn:Ht; [ | done].
    apply named_names_code in Ht as [Hnames _].
    destruct (decide (get_crop_code py_str row = code)) as [<- | Hneq];
      [done | ].
    by rewrite lookup_insert_ne.
Qed.

Lemma crop_rows_dicts rows : forall codes names,
  Forall (fun v => is_dict v = true) rows ->
  exists r, crop_rows py_str rows codes names = Ret r.
Proof.
  induction rows as [ | v rows IH]; intros codes names Hd.
  - by eexists.
  - apply Forall_cons in Hd as [Hv Hd].
    destruct v as [ | | | | | | row]; try discriminate Hv.
    rewrite crop_rows_dict. by apply IH.
Qed.

Lemma crop_rows_raises rows : forall codes names,
  Exists (fun v => is_dict v = false) rows ->
  crop_rows py_str rows codes names = Raise AttributeError.
Proof.
  induction rows as [ | v rows IH]; intros codes names Hex.
  - by apply Exists_nil in Hex.
  - destruct (is_dict v) eqn:Hv.
    + apply Exists_cons in Hex as [ | Hex]; [congruence | ].
      destruct v as [ | | | | | | row]; try discriminate Hv.
      rewrite crop_rows_dict. by apply IH.
    + by apply crop_rows_not_dict.
Qed.

End Rows.

End CropFacts.
Import CropFacts.

(** X22: the crop table holds what the dictionary gives and nothing
    else.  A code is in [vege_fruit_codes] exactly when it is not empty
    and is the code of a row that [is_vege_or_fruit] accepts; every
    code with a name in [code_to_name] is in [vege_fruit_codes], and its
    name is the non-empty name of such a row. *)
Theorem crop_table_sound (py_str : pyval -> string) (crop_dict : list pyval)
  (vege_fruit_codes : gset string) (code_to_name : gmap string string) :
  crop_table py_str crop_dict = Ret (vege_fruit_codes, code_to_name) ->
  (forall code, code ∈ vege_fruit_codes <->
     code <> "" /\ exists row, crop_row py_str crop_dict code row)
  /\ dom code_to_name ⊆ vege_fruit_codes
  /\ forall code name, code_to_name !! code = Some name ->
       name <> ""
       /\ exists row, crop_row py_str crop_dict code row
            /\ get_crop_name py_str row = name.
Proof.
  intros Hrun. destruct (crop_rows_sound _ _ _ _ _ _ Hrun) as [Hcodes Hnames].
  assert (forall code name, code_to_name !! code = Some name ->
            name <> "" /\ code <> ""
            /\ exists row, crop_row py_str crop_dict code row
                 /\ get_crop_name py_str row = name) as Hnames'.
  { intros code name Hlook.
    by destruct (Hnames _ _ Hlook) as [Hin | H]. }
  split; [ | split].
  - intros code. rewrite Hcodes. split; [ | by right].
    by intros [Hin | H].
  - intros code Hin. apply elem_of_dom in Hin as [name Hlook].
    destruct (Hnames' _ _ Hlook) as (_ & Hne & row & Hrow & _).
    apply Hcodes. right. split; [done | ]. by exists row.
  - intros code name Hlook.
    by destruct (Hnames' _ _ Hlook) as (Hn & _ & H).
Qed.

Lemma crop_table_sound_witness :
  let table := match crop_table sample_str sample_crops with
               | Ret r => r
               | Raise _ => (∅, ∅)
               end in
  (forall code, code ∈ table.1 <->
     code <> "" /\ exists row, crop_row sample_str sample_crops code row)
  /\ dom table.2 ⊆ table.1
  /\ forall code name, table.2 !! code = Some name ->
       name <> ""
       /\ exists row, crop_row sample_str sample_crops code row
            /\ get_crop_name sample_str row = name.
Proof.
  intros table. apply (crop_table_sound sample_str sample_crops).
  reflexivity.
Defined.

(** X23: when several rows name the same code, the last one wins: the
    name in [code_to_name] is that of the last accepted row with that
    code and a non-empty name. *)
Theorem crop_table_last_name (py_str : pyval -> string)
  (before after : list pyval) (row : record)
  (vege_fruit_codes : gset string) (code_to_name : gmap string string) :
  crop_table py_str (before ++ VDict row :: after)
  = Ret (vege_fruit_codes, code_to_name) ->
  is_vege_or_fruit py_str row = true ->
  get_crop_code py_str row <> "" -> get_crop_name py_str row <> "" ->
  Forall (fun v => ~ names_code py_str (get_crop_code py_str row) v) after ->
  code_to_name !! get_crop_code py_str row = Some (get_crop_name py_str row).
Proof.
  intros Hrun Hv Hc Hn Hafter. unfold crop_table in Hrun.
  rewrite crop_rows_app in Hrun.
  destruct (crop_rows py_str before ∅ ∅) as [[codes1 names1] | e];
    [ | done].
  rewrite crop_rows_dict in Hrun.
  rewrite (crop_rows_keeps_name _ _ _ _ _ _ _ Hafter Hrun).
  apply String.eqb_neq in Hc, Hn. rewrite Hv, Hc, Hn. simpl.
  by rewrite lookup_insert_eq.
Qed.

Lemma crop_table_last_name_witness :
  let table := match crop_table sample_str sample_crops with
               | Ret r => r
               | Raise _ => (∅, ∅)
               end in
  table.2 !! "A1" = Some "芭蕉".
Proof.
  intros table.
  apply (crop_table_last_name sample_str
           [ sample_crop "水果類" " A1 " "香蕉";
             sample_crop "花卉" "F1" "玫瑰";
             sample_crop "蔬菜類" "B2" "" ]
           []
           (dict_display [ ("PLV2_NAME", VStr "水果類");
                           ("CROP_UID", VStr "A1");
                           ("CNAME", VStr "芭蕉") ])
           table.1 table.2).
  - reflexivity.
  - reflexivity.
  - vm_compute. discriminate.
  - vm_compute. discriminate.
  - constructor.
Defined.

(** X24: the loop over the crop dictionary ends without an error
    exactly when every row is a [dict]; one row that is not makes it
    raise [AttributeError], whatever the other rows are. *)
Theorem crop_table_returns_iff (py_str : pyval -> string)
  (crop_dict : list pyval) :
  ((exists r, crop_table py_str crop_dict = Ret r)
   <-> Forall (fun v => is_dict v = true) crop_dict)
  /\ (crop_table py_str crop_dict = Raise AttributeError
      <-> Exists (fun v => is_dict v = false) crop_dict).
Proof.
  assert (Forall (fun v => is_dict v = true) crop_dict
          \/ Exists (fun v => is_dict v = false) crop_dict) as Hcases.
  { induction crop_dict as [ | v l IH]; [left; constructor | ].
    destruct (is_dict v) eqn:Hv; [ | right; by left].
    destruct IH as [IH | IH]; [left | right]; by constructor. }
  unfold crop_table. split; split.
  - intros [r Hr]. destruct Hcases as [ | Hex]; [done | ].
    rewrite crop_rows_raises in Hr by done. done.
  - apply crop_rows_dicts.
  - intros Hr. destruct Hcases as [Hall | ]; [ | done].
    destruct (crop_rows_dicts py_str _ ∅ ∅ Hall) as [r Hr'].
    rewrite Hr in Hr'. done.
  - apply crop_rows_raises.
Qed.

(** X25: a row is taken for a vegetable or a fruit as soon as one of
    its three level names is a string that contains one of the
    keywords, whatever the other two are. *)
Theorem is_vege_or_fruit_field (py_str : pyval -> string) (rec : record)
  (key kw s : string) :
  (forall s, py_str (VStr s) = s) ->
  key ∈ ["PLV1_NAME"; "PLV2_NAME"; "PLV3_NAME"] ->
  kw ∈ ["蔬菜"; "果菜"; "水果"] ->
  rec !! key = Some (VStr s) -> str_contains kw s = true ->
  is_vege_or_fruit py_str rec = true.
Proof.
  intros Hstr Hkey Hkw Hlook Hin. unfold is_vege_or_fruit.
  apply existsb_exists. exists kw. split; [by apply list_elem_of_In | ].
  repeat (apply elem_of_cons in Hkey as [-> | Hkey]);
    [ | | | by apply elem_of_nil in Hkey].
  - unfold dict_get at 1. rewrite Hlook, Hstr. by apply str_contains_app_r.
  - unfold dict_get at 2. rewrite Hlook, Hstr.
    by apply str_contains_app_l, str_contains_app_r.
  - unfold dict_get at 3. rewrite Hlook, Hstr.
    by apply str_contains_app_l, str_contains_app_l.
Qed.

Lemma is_vege_or_fruit_field_witness :
  is_vege_or_fruit sample_str
    (dict_display [ ("PLV1_NAME", VNone); ("PLV3_NAME", VStr "熱帶水果類") ])
  = true.
Proof.
  apply (is_vege_or_fruit_field sample_str _ "PLV3_NAME" "水果" "熱帶水果類").
  - reflexivity.
  - vm_compute. right. right. left.
  - vm_compute. right. right. left.
  - reflexivity.
  - reflexivity.
Defined.

(** The three names are joined with nothing between them: a keyword
    that no name contains is found across two of them. *)
Example is_vege_or_fruit_across_names :
  is_vege_or_fruit sample_str
    (dict_display [ ("PLV1_NAME", VStr "花果"); ("PLV2_NAME", VStr "菜豆") ])
  = true
  /\ str_contains "果菜" "花果" = false
  /\ str_contains "果菜" "菜豆" = false.
Proof. by vm_compute. Qed.

(** ** The count of the main block *)

Module CountFacts.

Lemma add_results_ended completed : forall total_cnt,
  forallb task_ended completed = true ->
  add_results completed total_cnt
  = Some (total_cnt + fold_right Z.add 0 (map task_count completed)).
Proof.
  induction completed as [ | o completed IH]; intros total_cnt Hall.
  - simpl. f_equal. lia.
  - simpl in Hall. apply andb_true_iff in Hall as [Ho Hall].
    destruct o as [n | e | ]; [ | | done]; simpl; rewrite IH by done;
      f_equal; lia.
Qed.

Lemma add_results_waits completed : forall total_cnt,
  forallb task_ended completed = false ->
  add_results completed total_cnt = None.
Proof.
  induction completed as [ | o completed IH]; intros total_cnt Hall;
    [done | ].
  destruct o as [n | e | ]; [ | | done]; simpl in *; by apply IH.
Qed.

Lemma task_ended_perm (completed completed' : list task_outcome) :
  Permutation completed completed' ->
  forallb task_ended completed = forallb task_ended completed'.
Proof.
  intros Hperm.
  induction Hperm as [ | o l l' _ IH | o o' l | l l' l'' _ IH _ IH'];
    simpl; [done | by rewrite IH | | congruence].
  by destruct (task_ended o), (task_ended o').
Qed.

Lemma task_count_perm (completed completed' : list task_outcome) :
  Permutation completed completed' ->
  fold_right Z.add 0 (map task_count completed)
  = fold_right Z.add 0 (map task_count completed').
Proof.
  intros Hperm.
  induction Hperm as [ | o l l' _ IH | o o' l | l l' l'' _ IH _ IH'];
    cbn [map fold_right]; lia.
Qed.

End CountFacts.
Import CountFacts.

(** X26: [total_cnt] does not depend on the order in which the futures
    complete: for any two orders of the same results the loop gives the
    same total; when every task has ended it is the sum of the counts
    of the tasks that returned, a task that raised adding nothing. *)
Theorem add_results_any_order (completed completed' : list task_outcome)
  (total_cnt : Z) :
  Permutation completed completed' ->
  add_results completed total_cnt = add_results completed' total_cnt
  /\ (forallb task_ended completed = true ->
      add_results completed total_cnt
      = Some (total_cnt
              + fold_right Z.add 0 (map task_count completed))).
Proof.
  intros Hperm. split; [ | apply add_results_ended].
  pose proof (task_ended_perm _ _ Hperm) as Hended.
  destruct (forallb task_ended completed) eqn:Hall.
  - rewrite !add_results_ended by congruence.
    by rewrite (task_count_perm _ _ Hperm).
  - by rewrite !add_results_waits by congruence.
Qed.

Lemma add_results_any_order_witness :
  add_results [TaskReturns 3; TaskRaises OSError; TaskReturns 4] 0
  = add_results [TaskReturns 4; TaskReturns 3; TaskRaises OSError] 0
  /\ (forallb task_ended [TaskReturns 3; TaskRaises OSError; TaskReturns 4]
      = true ->
      add_results [TaskReturns 3; TaskRaises OSError; TaskReturns 4] 0
      = Some (0 + fold_right Z.add 0
                    (map task_count
                       [TaskReturns 3; TaskRaises OSError; TaskReturns 4]))).
Proof.
  apply (add_results_any_order
           [TaskReturns 3; TaskRaises OSError; TaskReturns 4]
           [TaskReturns 4; TaskReturns 3; TaskRaises OSError] 0).
  apply Permutation_sym.
  apply (Permutation_cons_append [TaskReturns 3; TaskRaises OSError]
           (TaskReturns 4)).
Defined.

(** ** Pages served after retries *)

(** X27: retries do not show in the result.  When the upstream serves
    the pages one after the other, each after at most four failed
    attempts, with full pages followed by a last one, the fetcher
    returns the accepted rows of all pages in page order, the same rows
    as with no failure at all; the failures only add their requests
    and their sleeps. *)
Theorem fetch_period_block_retries ps pe page_top (w : world)
  (script : list (nat * pyval)) (failures : nat) (last : pyval) fuel :
  serves ps pe page_top w 0 (script ++ [(failures, last)]) ->
  Forall (fun entry => full_page page_top entry.2) script ->
  last_page page_top last ->
  (List.length script < fuel)%nat ->
  fetch_period_block fuel ps pe page_top w
  = (Returns (flat_map page_rows (map snd script ++ [last])),
     world_served ps pe page_top w 0 (script ++ [(failures, last)])).
Proof.
  intros Hserves Hfull Hlast Hfuel. unfold fetch_period_block.
  apply serves_app in Hserves as [Hscript Hend].
  replace fuel with (List.length script + S (fuel - S (List.length script)))%nat
    by lia.
  change 0 with (Z.of_nat 0 * page_top).
  rewrite (fetch_pages_served ps pe page_top script) by done.
  rewrite (fetch_pages_served_last ps pe page_top _ _ _ failures _ last)
    by done.
  rewrite world_served_app, flat_map_app. simpl. by rewrite app_nil_r.
Qed.

Lemma fetch_period_block_retries_witness :
  fetch_period_block 2 (mkdate 2020 1 1) (mkdate 2020 1 10) 2
    (mkworld stuttering_upstream [] [])
  = (Returns
       (flat_map page_rows
          (map snd [(2%nat, VList [sample_row 1 "N05"; sample_row 2 "N04"])]
           ++ [VList [sample_row 3 "N05"]])),
     world_served (mkdate 2020 1 1) (mkdate 2020 1 10) 2
       (mkworld stuttering_upstream [] []) 0
       ([(2%nat, VList [sample_row 1 "N05"; sample_row 2 "N04"])]
        ++ [(2%nat, VList [sample_row 3 "N05"])])).
Proof.
  apply (fetch_period_block_retries (mkdate 2020 1 1) (mkdate 2020 1 10) 2
           (mkworld stuttering_upstream [] [])
           [(2%nat, VList [sample_row 1 "N05"; sample_row 2 "N04"])]
           2 (VList [sample_row 3 "N05"]) 2).
  - simpl. repeat split; try lia; try reflexivity.
    + intros i Hi. exists ConnectionError.
      destruct i as [ | [ | i]]; [reflexivity | reflexivity | lia].
    + intros i Hi. exists ConnectionError.
      destruct i as [ | [ | i]]; [reflexivity | reflexivity | lia].
  - repeat constructor. eexists. split; [reflexivity | ].
    split; [done | ]. split; [by repeat constructor | simpl; lia].
  - left. eexists. split; [reflexivity | ].
    split; [done | ]. split; [by repeat constructor | simpl; lia].
  - simpl. lia.
Defined.

(** X28: without the ROC offset, [to_roc] writes the western year, and
    [roc_to_western] cannot tell: it adds 1911 years to it as to any
    other year. *)
Theorem roc_to_western_western (d : date) :
  roc_to_western (VStr (to_roc d false))
  = VStr (western_text (mkdate (year d + 1911) (month d) (day d))).
Proof.
  unfold to_roc, western_text. simpl.
  by rewrite roc_to_western_dotted_signed.
Qed.
